(** * The JNI transition bridge of quick_jni_entrypoints.cc

    A shallow embedding of [code/chapter-12/quick_jni_entrypoints.cc]: the
    entry points generated code calls immediately before and after a native
    method runs.  The C++ functions mutate the current thread ([self]), its
    [JNIEnvExt], the runtime's configuration item and the log; here they are
    functions in a state monad over [Process], with the fatal exits of the
    source ([CHECK], [LOG(FATAL)], a JNI abort, a null dereference) as the
    second constructor of [Outcome].  Every call into the rest of the runtime
    that has an effect is recorded in [history], together with the thread as
    it was when the call was made, so that ordering properties can be stated
    on what the bridge did and not on how the model is written. *)

From Stdlib Require Import ZArith List Bool String Ascii Lia.
From Stdlib Require Import Floats.SpecFloat.
Import ListNotations.
Local Open Scope string_scope.
Local Open Scope list_scope.
Local Open Scope Z_scope.

(** ** Data *)

(** [mirror::Object*] and [ObjPtr<T>]: an address in the managed heap. *)
Definition ObjPtr := Z.
Definition nullptr : ObjPtr := 0.
Definition is_null (o : ObjPtr) : bool := o =? nullptr.

(** [jobject]: an opaque indirect reference, resolved by [DecodeJObject]. *)
Definition jobject := Z.

(** Address of a [mirror::CompressedReference<mirror::Class>] root slot. *)
Definition RootSlot := Z.

(** The two thread states the bridge names, and one it does not. *)
Inductive ThreadState := kRunnable | kNative | kSuspended.

Definition ThreadState_eqb (a b : ThreadState) : bool :=
  match a, b with
  | kRunnable, kRunnable | kNative, kNative | kSuspended, kSuspended => true
  | _, _ => false
  end.

(** [IRTSegmentState]: the static_asserts of the source fix it to a trivial
    struct of the size of a [uint32_t]; [bit_cast] moves the same four bytes
    between the two types. *)
Record IRTSegmentState := { top_index : Z }.

Definition bit_cast_uint32 (s : IRTSegmentState) : Z := top_index s.
Definition bit_cast_IRTSegmentState (c : Z) : IRTSegmentState := {| top_index := c |}.

Inductive InstructionSet := kNone | kArm | kArm64 | kThumb2 | kX86 | kX86_64.

Definition InstructionSet_eqb (a b : InstructionSet) : bool :=
  match a, b with
  | kNone, kNone | kArm, kArm | kArm64, kArm64 | kThumb2, kThumb2
  | kX86, kX86 | kX86_64, kX86_64 => true
  | _, _ => false
  end.

(** What the bridge reads of an [ArtMethod]. *)
Record ArtMethod := {
  IsFastNative : bool;
  IsCriticalNative : bool;
  IsSynchronized : bool;
  GetShorty : string;
  PrettyMethod : string
}.

Record JNIEnvExt := {
  local_ref_cookie : IRTSegmentState;
  locals_segment_state : IRTSegmentState;
  check_jni : bool
}.

Record Thread := {
  state : ThreadState;
  jni_env : JNIEnvExt;
  exception : ObjPtr;
  flags : Z;
  top_quick_frame : ArtMethod
}.

(** Modelled from the spec: [Runtime::Current()->GetConfigItem()], whose
    declaration is not in the source file.  It is the tracing configuration
    the course adds to the runtime: a switch, the substring of the method
    names to trace, and the flag the bridge sets while such a method runs. *)
Record ConfigItem := {
  isJNIMethodPrint : bool;
  jniFuncName : string;
  jniEnable : bool
}.

(** Calls into the runtime that the bridge makes for their effect. *)
Inductive Event :=
| EvSetLocalRefCookie (c : IRTSegmentState)
| EvSetLocalSegmentState (c : IRTSegmentState)
| EvTransitionFromRunnableToSuspended (new_state : ThreadState)
| EvTransitionFromSuspendedToRunnable
| EvCheckSuspend
| EvDecodeJObject (ref : jobject)
| EvMonitorEnter (o : ObjPtr)
| EvMonitorExit (o : ObjPtr)
| EvClearException
| EvSetException (e : ObjPtr)
| EvCheckNoHeldMonitors
| EvCheckReferenceResult (o : ObjPtr)
| EvVerifyObject (o : ObjPtr)
| EvPaletteShouldReportJniInvocations
| EvPaletteNotifyBeginJniInvocation
| EvPaletteNotifyEndJniInvocation
| EvBarrierForRoot (o : ObjPtr).

(** One [ALOGD] call: the format string and its arguments. *)
Inductive LogArg := ArgString (s : string) | ArgSelf.
Definition LogLine := (string * list LogArg)%type.

Record Process := {
  self : Thread;
  roots : RootSlot -> ObjPtr;
  config : ConfigItem;
  logcat : list LogLine;
  history : list (Event * Thread)
}.

Inductive Abort :=
| CheckFailed (msg : string)
| LogFatal (msg : string)
| JniAbort
| NullDereference.

Inductive Outcome (A : Type) :=
| Returns (a : A) (p : Process)
| Aborts (why : Abort) (p : Process).
Arguments Returns {A} a p.
Arguments Aborts {A} why p.

Definition final {A} (o : Outcome A) : Process :=
  match o with Returns _ p | Aborts _ p => p end.

Definition returned {A} (o : Outcome A) : option A :=
  match o with Returns a _ => Some a | Aborts _ _ => None end.

(** ** The monad *)

Definition M (A : Type) := Process -> Outcome A.

Definition ret {A} (a : A) : M A := fun p => Returns a p.

Definition bind {A B} (m : M A) (k : A -> M B) : M B :=
  fun p => match m p with
           | Returns a p' => k a p'
           | Aborts why p' => Aborts why p'
           end.

Definition abort {A} (why : Abort) : M A := fun p => Aborts why p.

Declare Scope bridge_scope.
Delimit Scope bridge_scope with bridge.
Notation "x <- m ;; k" := (bind m (fun x => k))
  (at level 61, m at next level, right associativity) : bridge_scope.
Notation "m ;;; k" := (bind m (fun _ => k))
  (at level 61, right associativity) : bridge_scope.
Local Open Scope bridge_scope.

Definition when (b : bool) (m : M unit) : M unit := if b then m else ret tt.

(** ** Field updates of the thread *)

Definition with_state (st : ThreadState) (t : Thread) : Thread :=
  {| state := st; jni_env := jni_env t; exception := exception t;
     flags := flags t; top_quick_frame := top_quick_frame t |}.

Definition with_jni_env (e : JNIEnvExt) (t : Thread) : Thread :=
  {| state := state t; jni_env := e; exception := exception t;
     flags := flags t; top_quick_frame := top_quick_frame t |}.

Definition with_exception (x : ObjPtr) (t : Thread) : Thread :=
  {| state := state t; jni_env := jni_env t; exception := x;
     flags := flags t; top_quick_frame := top_quick_frame t |}.

Definition with_flags (f : Z) (t : Thread) : Thread :=
  {| state := state t; jni_env := jni_env t; exception := exception t;
     flags := f; top_quick_frame := top_quick_frame t |}.

Definition with_local_ref_cookie (c : IRTSegmentState) (e : JNIEnvExt) : JNIEnvExt :=
  {| local_ref_cookie := c; locals_segment_state := locals_segment_state e;
     check_jni := check_jni e |}.

Definition with_locals_segment_state (c : IRTSegmentState) (e : JNIEnvExt) : JNIEnvExt :=
  {| local_ref_cookie := local_ref_cookie e; locals_segment_state := c;
     check_jni := check_jni e |}.

Definition with_jniEnable (b : bool) (c : ConfigItem) : ConfigItem :=
  {| isJNIMethodPrint := isJNIMethodPrint c; jniFuncName := jniFuncName c;
     jniEnable := b |}.

(** ** Updates of the process *)

Definition set_self (f : Thread -> Thread) (p : Process) : Process :=
  {| self := f (self p); roots := roots p; config := config p;
     logcat := logcat p; history := history p |}.

Definition set_config (f : ConfigItem -> ConfigItem) (p : Process) : Process :=
  {| self := self p; roots := roots p; config := f (config p);
     logcat := logcat p; history := history p |}.

Definition log_line (l : LogLine) (p : Process) : Process :=
  {| self := self p; roots := roots p; config := config p;
     logcat := logcat p ++ [l]; history := history p |}.

(** An event enters the history with the thread as it is at that moment. *)
Definition record (e : Event) (p : Process) : Process :=
  {| self := self p; roots := roots p; config := config p;
     logcat := logcat p; history := history p ++ [(e, self p)] |}.

Definition set_root (slot : RootSlot) (o : ObjPtr) (p : Process) : Process :=
  {| self := self p; roots := fun a => if a =? slot then o else roots p a;
     config := config p; logcat := logcat p; history := history p |}.

Definition GetSelf : M Thread := fun p => Returns (self p) p.
Definition update_self (f : Thread -> Thread) : M unit := fun p => Returns tt (set_self f p).
Definition GetConfigItem : M ConfigItem := fun p => Returns (config p) p.
Definition update_config (f : ConfigItem -> ConfigItem) : M unit :=
  fun p => Returns tt (set_config f p).
Definition ALOGD (fmt : string) (args : list LogArg) : M unit :=
  fun p => Returns tt (log_line (fmt, args) p).
Definition emit (e : Event) : M unit := fun p => Returns tt (record e p).
Definition load_root (slot : RootSlot) : M ObjPtr := fun p => Returns (roots p slot) p.
Definition Assign (slot : RootSlot) (o : ObjPtr) : M unit :=
  fun p => Returns tt (set_root slot o p).

(** [strstr(haystack, needle) != NULL]. *)
Definition strstr (haystack needle : string) : bool :=
  match index 0 needle haystack with Some _ => true | None => false end.

Arguments strstr : simpl never.
Arguments is_null : simpl never.

(** ** Return values *)

(** [jvalue] is a union of eight bytes; it is kept as those bytes, read as an
    unsigned little-endian number, and each member is a view of them. *)
Definition jvalue := Z.

Definition unsigned_bits (w : Z) (x : Z) : Z := x mod 2 ^ w.

Definition signed_bits (w : Z) (x : Z) : Z :=
  let u := unsigned_bits w x in
  if u <? 2 ^ (w - 1) then u else u - 2 ^ w.

(** Conversion of an integer to [uint64_t]. *)
Definition to_uint64 (x : Z) : Z := x mod 2 ^ 64.

Definition jvalue_z (v : jvalue) : Z := unsigned_bits 8 v.   (* jboolean *)
Definition jvalue_b (v : jvalue) : Z := signed_bits 8 v.     (* jbyte *)
Definition jvalue_c (v : jvalue) : Z := unsigned_bits 16 v.  (* jchar *)
Definition jvalue_s (v : jvalue) : Z := signed_bits 16 v.    (* jshort *)
Definition jvalue_i (v : jvalue) : Z := signed_bits 32 v.    (* jint *)
Definition jvalue_j (v : jvalue) : Z := signed_bits 64 v.    (* jlong *)

Definition pointer_bits (isa : InstructionSet) : Z :=
  match isa with kArm64 | kX86_64 => 64 | _ => 32 end.

Definition jvalue_l (isa : InstructionSet) (v : jvalue) : jobject :=
  unsigned_bits (pointer_bits isa) v.

(** *** Floating point

    [double] and [float] are the IEEE 754 binary64 and binary32 formats.  A
    number is a [spec_float] of the standard library; a NaN keeps its sign
    and fraction bits, which [spec_float] leaves out. *)
Inductive ieee :=
| Num (x : spec_float)
| NaN (sign : bool) (fraction : Z).

(** Reading a bit pattern with [mw] fraction bits and [ew] exponent bits. *)
Definition ieee_of_bits (mw ew : Z) (x : Z) : ieee :=
  let prec := mw + 1 in
  let emax := 2 ^ (ew - 1) in
  let s := Z.testbit x (mw + ew) in
  let e := (x / 2 ^ mw) mod 2 ^ ew in
  let m := x mod 2 ^ mw in
  if e =? 0 then
    match m with
    | Z.pos mp => Num (S754_finite s mp (emin prec emax))
    | _ => Num (S754_zero s)
    end
  else if e =? 2 ^ ew - 1 then
    if m =? 0 then Num (S754_infinity s) else NaN s m
  else
    match m + 2 ^ mw with
    | Z.pos mp => Num (S754_finite s mp (e + emin prec emax - 1))
    | _ => Num S754_nan
    end.

(** Writing a value as a bit pattern of the same format. *)
Definition bits_of_ieee (mw ew : Z) (f : ieee) : Z :=
  let prec := mw + 1 in
  let emax := 2 ^ (ew - 1) in
  let sign (s : bool) := if s then 2 ^ (mw + ew) else 0 in
  let top := (2 ^ ew - 1) * 2 ^ mw in
  match f with
  | Num (S754_zero s) => sign s
  | Num (S754_infinity s) => sign s + top
  | Num S754_nan => top + 2 ^ (mw - 1)
  | Num (S754_finite s m e) =>
      if 2 ^ mw <=? Z.pos m
      then sign s + (e - emin prec emax + 1) * 2 ^ mw + (Z.pos m - 2 ^ mw)
      else sign s + Z.pos m
  | NaN s frac => sign s + top + frac
  end.

(** [bit_cast<double, uint64_t>]. *)
Definition bit_cast_double (x : Z) : ieee := ieee_of_bits 52 11 (x mod 2 ^ 64).

(** [static_cast<float>(d)]: round to nearest, ties to even, onto binary32;
    a NaN stays a NaN, quiet, with its sign and the leading fraction bits. *)
Definition static_cast_float (d : ieee) : ieee :=
  match d with
  | Num (S754_finite s m e) => Num (binary_round 24 128 s m e)
  | Num x => Num x
  | NaN s frac => NaN s (Z.lor (Z.shiftr frac 29) (2 ^ 22))
  end.

(** [bit_cast<uint32_t, float>]. *)
Definition bit_cast_uint32_float (f : ieee) : Z := unsigned_bits 32 (bits_of_ieee 23 8 f).

(** ** The rest of the runtime

    What the bridge calls and the source file does not define: build
    constants, the palette hook, and the operations of [Thread], [JNIEnvExt],
    [mirror::Object] and [ReadBarrier] whose result the bridge uses.  Each is
    a field of one interface; the bridge below is written once over it. *)
Class Collaborators := {
  kIsDebugBuild : bool;
  kUseReadBarrier : bool;
  kUseBakerReadBarrier : bool;
  kRuntimeISA : InstructionSet;
  (** What [PaletteShouldReportJniInvocations] stores. *)
  should_report_jni_invocations : bool;
  (** The object an indirect reference denotes for this thread. *)
  decode : Thread -> jobject -> ObjPtr;
  (** The exception [MonitorExit] leaves pending, [nullptr] when it
      succeeds. *)
  monitor_exit_exception : Thread -> ObjPtr -> ObjPtr;
  (** The flags that remain raised after [CheckSuspend]. *)
  flags_after_suspend_check : Thread -> Z;
  (** [mirror::Throwable::Dump]. *)
  Dump : ObjPtr -> string;
  GetGenericJniSynchronizationObject : Thread -> ArtMethod -> jobject;
  (** Whether [JNIEnvExt::CheckNoHeldMonitors] finds nothing to report. *)
  no_held_monitors : Thread -> bool;
  (** Whether [CheckReferenceResult] accepts the object. *)
  reference_result_ok : Thread -> ObjPtr -> bool;
  (** Whether [VerifyObject] accepts the object. *)
  object_verifies : ObjPtr -> bool;
  (** [mirror::Object::GetMarkBit]. *)
  GetMarkBit : ObjPtr -> Z;
  (** What [ReadBarrier::BarrierForRoot] returns for a root that holds the
      given reference. *)
  barrier_for_root : ObjPtr -> ObjPtr
}.

Section Bridge.

Context {rt : Collaborators}.

(** *** Checks *)

Definition CHECK (cond : bool) (msg : string) : M unit :=
  if cond then ret tt else abort (CheckFailed msg).

Definition DCHECK (cond : bool) (msg : string) : M unit :=
  when kIsDebugBuild (CHECK cond msg).

(** *** Thread and JNIEnvExt operations *)

Definition GetLocalRefCookie : M IRTSegmentState :=
  t <- GetSelf ;; ret (local_ref_cookie (jni_env t)).

Definition GetLocalsSegmentState : M IRTSegmentState :=
  t <- GetSelf ;; ret (locals_segment_state (jni_env t)).

Definition SetLocalRefCookie (c : IRTSegmentState) : M unit :=
  emit (EvSetLocalRefCookie c) ;;;
  update_self (fun t => with_jni_env (with_local_ref_cookie c (jni_env t)) t).

Definition SetLocalSegmentState (c : IRTSegmentState) : M unit :=
  emit (EvSetLocalSegmentState c) ;;;
  update_self (fun t => with_jni_env (with_locals_segment_state c (jni_env t)) t).

Definition IsCheckJniEnabled : M bool :=
  t <- GetSelf ;; ret (check_jni (jni_env t)).

Definition CheckNoHeldMonitors : M unit :=
  emit EvCheckNoHeldMonitors ;;;
  t <- GetSelf ;;
  if no_held_monitors t then ret tt else abort JniAbort.

Definition GetTopQuickFrame : M ArtMethod :=
  t <- GetSelf ;; ret (top_quick_frame t).

Definition TransitionFromRunnableToSuspended (new_state : ThreadState) : M unit :=
  emit (EvTransitionFromRunnableToSuspended new_state) ;;;
  update_self (with_state new_state).

Definition TransitionFromSuspendedToRunnable : M unit :=
  emit EvTransitionFromSuspendedToRunnable ;;;
  update_self (with_state kRunnable).

Definition TestAllFlags : M bool :=
  t <- GetSelf ;; ret (negb (flags t =? 0)).

Definition CheckSuspend : M unit :=
  emit EvCheckSuspend ;;;
  update_self (fun t => with_flags (flags_after_suspend_check t) t).

(** A thread holds its share of the mutator lock while it is Runnable. *)
Definition IsSharedHeld : M bool :=
  t <- GetSelf ;; ret (ThreadState_eqb (state t) kRunnable).

Definition IsExceptionPending : M bool :=
  t <- GetSelf ;; ret (negb (is_null (exception t))).

Definition GetException : M ObjPtr :=
  t <- GetSelf ;; ret (exception t).

Definition ClearException : M unit :=
  emit EvClearException ;;; update_self (with_exception nullptr).

Definition SetException (e : ObjPtr) : M unit :=
  emit (EvSetException e) ;;; update_self (with_exception e).

Definition DecodeJObject (ref : jobject) : M ObjPtr :=
  emit (EvDecodeJObject ref) ;;;
  t <- GetSelf ;; ret (decode t ref).

(** Calling a member of a null object is a crash. *)
Definition deref (o : ObjPtr) : M unit :=
  if is_null o then abort NullDereference else ret tt.

Definition MonitorEnter (o : ObjPtr) : M unit :=
  deref o ;;; emit (EvMonitorEnter o).

Definition MonitorExit (o : ObjPtr) : M unit :=
  deref o ;;;
  emit (EvMonitorExit o) ;;;
  t <- GetSelf ;;
  let e := monitor_exit_exception t o in
  if is_null e then ret tt else update_self (with_exception e).

Definition CheckReferenceResult (o : ObjPtr) : M unit :=
  emit (EvCheckReferenceResult o) ;;;
  t <- GetSelf ;;
  if reference_result_ok t o then ret tt else abort JniAbort.

Definition VerifyObject (o : ObjPtr) : M unit :=
  emit (EvVerifyObject o) ;;;
  if object_verifies o then ret tt else abort (LogFatal "VerifyObject").

Definition PaletteNotifyBeginJniInvocation : M unit := emit EvPaletteNotifyBeginJniInvocation.
Definition PaletteNotifyEndJniInvocation : M unit := emit EvPaletteNotifyEndJniInvocation.

Definition PaletteShouldReportJniInvocations : M bool :=
  emit EvPaletteShouldReportJniInvocations ;;;
  ret should_report_jni_invocations.

(** The macro [MONITOR_JNI(kind)]. *)
Definition MONITOR_JNI (kind : M unit) : M unit :=
  should_report <- PaletteShouldReportJniInvocations ;;
  when should_report kind.

Definition BarrierForRoot (slot : RootSlot) : M ObjPtr :=
  ref <- load_root slot ;;
  emit (EvBarrierForRoot ref) ;;;
  ret (barrier_for_root ref).

(** ** The entry points *)

Definition ReadBarrierJni (declaring_class : RootSlot) : M unit :=
  DCHECK kUseReadBarrier "kUseReadBarrier" ;;;
  marked <-
    (if kUseBakerReadBarrier then
       ref <- load_root declaring_class ;;
       DCHECK (negb (is_null ref)) "The class of a static jni call must not be null" ;;;
       (* Check the mark bit and return early if it's already marked. *)
       deref ref ;;;
       ret (negb (GetMarkBit ref =? 0))
     else ret false) ;;
  if marked then ret tt
  else
    (* Call the read barrier and update the handle. *)
    to_ref <- BarrierForRoot declaring_class ;;
    Assign declaring_class to_ref.

(** Called on entry to fast JNI, push a new local reference table only. *)
Definition JniMethodFastStart : M Z :=
  saved <- GetLocalRefCookie ;;
  let saved_local_ref_cookie := bit_cast_uint32 saved in
  seg <- GetLocalsSegmentState ;;
  SetLocalRefCookie seg ;;;
  when kIsDebugBuild
    (native_method <- GetTopQuickFrame ;;
     CHECK (IsFastNative native_method) (PrettyMethod native_method)) ;;;
  ret saved_local_ref_cookie.

(** Called on entry to JNI, transition out of Runnable and release share of
    mutator_lock_. *)
Definition JniMethodStart : M Z :=
  saved <- GetLocalRefCookie ;;
  let saved_local_ref_cookie := bit_cast_uint32 saved in
  seg <- GetLocalsSegmentState ;;
  SetLocalRefCookie seg ;;;
  (* add *)
  cfg <- GetConfigItem ;;
  when (isJNIMethodPrint cfg)
    (native_method <- GetTopQuickFrame ;;
     let methodname := PrettyMethod native_method in
     when (strstr methodname (jniFuncName cfg))
       (ALOGD "[ROM] enter jni %s %p" [ArgString methodname; ArgSelf] ;;;
        update_config (with_jniEnable true))) ;;;
  (* endadd *)
  when kIsDebugBuild
    (native_method <- GetTopQuickFrame ;;
     CHECK (negb (IsFastNative native_method)) (PrettyMethod native_method)) ;;;
  (* Transition out of runnable. *)
  TransitionFromRunnableToSuspended kNative ;;;
  ret saved_local_ref_cookie.

Definition JniMethodStartSynchronized (to_lock : jobject) : M Z :=
  o <- DecodeJObject to_lock ;;
  MonitorEnter o ;;;
  JniMethodStart.

Definition GoToRunnable : M unit :=
  when kIsDebugBuild
    (native_method <- GetTopQuickFrame ;;
     CHECK (negb (IsFastNative native_method)) (PrettyMethod native_method)) ;;;
  TransitionFromSuspendedToRunnable.

Definition GoToRunnableFast : M unit :=
  when kIsDebugBuild
    (* Should only enter here if the method is @FastNative. *)
    (native_method <- GetTopQuickFrame ;;
     CHECK (IsFastNative native_method) (PrettyMethod native_method)) ;;;
  (* When we are in @FastNative, we are already Runnable.
     Only do a suspend check on the way out of JNI. *)
  raised <- TestAllFlags ;;
  when raised
    (held <- IsSharedHeld ;;
     DCHECK held "Locks::mutator_lock_->IsSharedHeld(self)" ;;;
     CheckSuspend).

Definition PopLocalReferences (saved_local_ref_cookie : Z) : M unit :=
  checked <- IsCheckJniEnabled ;;
  when checked CheckNoHeldMonitors ;;;
  cookie <- GetLocalRefCookie ;;
  SetLocalSegmentState cookie ;;;
  SetLocalRefCookie (bit_cast_IRTSegmentState saved_local_ref_cookie).

Definition newline : string := String "010" EmptyString.

Definition second_exception_message (first second : ObjPtr) : string :=
  ("Synchronized JNI code returning with an exception:" ++ newline
   ++ Dump first
   ++ newline ++ "Encountered second exception during implicit MonitorExit:" ++ newline
   ++ Dump second)%string.

Arguments second_exception_message : simpl never.

Definition UnlockJniSynchronizedMethod (locked : jobject) : M unit :=
  (* Save any pending exception over monitor exit call. *)
  pending <- IsExceptionPending ;;
  saved_exception <-
    (if pending then
       e <- GetException ;; ClearException ;;; ret e
     else ret nullptr) ;;
  (* Decode locked object and unlock, before popping local references. *)
  o <- DecodeJObject locked ;;
  MonitorExit o ;;;
  pending <- IsExceptionPending ;;
  when pending
    (deref saved_exception ;;;
     second <- GetException ;;
     abort (LogFatal (second_exception_message saved_exception second))) ;;;
  (* Restore pending exception. *)
  when (negb (is_null saved_exception)) (SetException saved_exception).

Definition JniMethodEnd (saved_local_ref_cookie : Z) : M unit :=
  (* add *)
  cfg <- GetConfigItem ;;
  when (isJNIMethodPrint cfg)
    (native_method <- GetTopQuickFrame ;;
     let methodname := PrettyMethod native_method in
     ALOGD "[ROM] JniMethodEnd jni %s" [ArgString methodname] ;;;
     when (strstr methodname (jniFuncName cfg))
       (update_config (with_jniEnable false) ;;;
        ALOGD "[ROM] leave jni %s" [ArgString methodname])) ;;;
  (* endadd *)
  GoToRunnable ;;;
  PopLocalReferences saved_local_ref_cookie.

Definition JniMethodFastEnd (saved_local_ref_cookie : Z) : M unit :=
  GoToRunnableFast ;;;
  PopLocalReferences saved_local_ref_cookie.

Definition JniMethodEndSynchronized (saved_local_ref_cookie : Z) (locked : jobject) : M unit :=
  GoToRunnable ;;;
  UnlockJniSynchronizedMethod locked ;;;  (* Must decode before pop. *)
  PopLocalReferences saved_local_ref_cookie.

(** Common result handling for EndWithReference. *)
Definition JniMethodEndWithReferenceHandleResult
    (result : jobject) (saved_local_ref_cookie : Z) : M ObjPtr :=
  (* add *)
  cfg <- GetConfigItem ;;
  when (isJNIMethodPrint cfg)
    (native_method <- GetTopQuickFrame ;;
     let methodname := PrettyMethod native_method in
     when (strstr methodname (jniFuncName cfg))
       (update_config (with_jniEnable false) ;;;
        ALOGD "[ROM] leave jni %s" [ArgString methodname])) ;;;
  (* endadd *)
  (* Must decode before pop. The 'result' may not be valid in case of an
     exception, though. *)
  pending <- IsExceptionPending ;;
  o <- (if negb pending then DecodeJObject result else ret nullptr) ;;
  PopLocalReferences saved_local_ref_cookie ;;;
  (* Process result. *)
  checked <- IsCheckJniEnabled ;;
  when checked (CheckReferenceResult o) ;;;
  VerifyObject o ;;;
  ret o.

Definition JniMethodFastEndWithReference (result : jobject) (saved_local_ref_cookie : Z)
    : M ObjPtr :=
  GoToRunnableFast ;;;
  JniMethodEndWithReferenceHandleResult result saved_local_ref_cookie.

Definition JniMethodEndWithReference (result : jobject) (saved_local_ref_cookie : Z)
    : M ObjPtr :=
  GoToRunnable ;;;
  JniMethodEndWithReferenceHandleResult result saved_local_ref_cookie.

Definition JniMethodEndWithReferenceSynchronized
    (result : jobject) (saved_local_ref_cookie : Z) (locked : jobject) : M ObjPtr :=
  GoToRunnable ;;;
  UnlockJniSynchronizedMethod locked ;;;
  JniMethodEndWithReferenceHandleResult result saved_local_ref_cookie.

(** [GetShorty()[0]]; the character after an empty shorty is the
    terminating zero. *)
Definition return_shorty (called : ArtMethod) : ascii :=
  match GetShorty called with
  | EmptyString => zero
  | String c _ => c
  end.

Definition GenericJniMethodEnd
    (saved_local_ref_cookie : Z) (result : jvalue) (result_f : Z) (called : ArtMethod)
    : M Z :=
  let critical_native := IsCriticalNative called in
  let fast_native := IsFastNative called in
  let normal_native := negb critical_native && negb fast_native in
  (* @CriticalNative does not do a state transition. @FastNative usually does
     not do a state transition either but it performs a suspend check that
     may do state transitions. *)
  (if normal_native then
     MONITOR_JNI PaletteNotifyEndJniInvocation ;;;
     GoToRunnable
   else if fast_native then
     GoToRunnableFast
   else ret tt) ;;;
  (* We need the mutator lock (i.e., calling GoToRunnable()) before accessing
     the shorty or the locked object. *)
  when (IsSynchronized called)
    (DCHECK normal_native "@FastNative/@CriticalNative and synchronize is not supported" ;;;
     t <- GetSelf ;;
     let lock := GetGenericJniSynchronizationObject t called in
     DCHECK (negb (lock =? 0)) "lock != nullptr" ;;;
     UnlockJniSynchronizedMethod lock) ;;;
  let return_shorty_char := return_shorty called in
  if Ascii.eqb return_shorty_char "L" then
    o <- JniMethodEndWithReferenceHandleResult
           (jvalue_l kRuntimeISA result) saved_local_ref_cookie ;;
    ret (to_uint64 o)
  else
    when (negb critical_native) (PopLocalReferences saved_local_ref_cookie) ;;;
    if Ascii.eqb return_shorty_char "F" then
      if InstructionSet_eqb kRuntimeISA kX86 then
        (* Convert back the result to float. *)
        let d := bit_cast_double result_f in
        ret (to_uint64 (bit_cast_uint32_float (static_cast_float d)))
      else ret (to_uint64 result_f)
    else if Ascii.eqb return_shorty_char "D" then ret (to_uint64 result_f)
    else if Ascii.eqb return_shorty_char "Z" then ret (to_uint64 (jvalue_z result))
    else if Ascii.eqb return_shorty_char "B" then ret (to_uint64 (jvalue_b result))
    else if Ascii.eqb return_shorty_char "C" then ret (to_uint64 (jvalue_c result))
    else if Ascii.eqb return_shorty_char "S" then ret (to_uint64 (jvalue_s result))
    else if Ascii.eqb return_shorty_char "I" then ret (to_uint64 (jvalue_i result))
    else if Ascii.eqb return_shorty_char "J" then ret (to_uint64 (jvalue_j result))
    else if Ascii.eqb return_shorty_char "V" then ret 0
    else abort (LogFatal (String.append "Unexpected return shorty character "
                                        (String return_shorty_char EmptyString))).

Definition JniMonitoredMethodStart : M Z :=
  result <- JniMethodStart ;;
  MONITOR_JNI PaletteNotifyBeginJniInvocation ;;;
  ret result.

Definition JniMonitoredMethodStartSynchronized (to_lock : jobject) : M Z :=
  result <- JniMethodStartSynchronized to_lock ;;
  MONITOR_JNI PaletteNotifyBeginJniInvocation ;;;
  ret result.

Definition JniMonitoredMethodEnd (saved_local_ref_cookie : Z) : M unit :=
  MONITOR_JNI PaletteNotifyEndJniInvocation ;;;
  JniMethodEnd saved_local_ref_cookie.

Definition JniMonitoredMethodEndSynchronized (saved_local_ref_cookie : Z) (locked : jobject)
    : M unit :=
  MONITOR_JNI PaletteNotifyEndJniInvocation ;;;
  JniMethodEndSynchronized saved_local_ref_cookie locked.

Definition JniMonitoredMethodEndWithReference (result : jobject) (saved_local_ref_cookie : Z)
    : M ObjPtr :=
  MONITOR_JNI PaletteNotifyEndJniInvocation ;;;
  JniMethodEndWithReference result saved_local_ref_cookie.

Definition JniMonitoredMethodEndWithReferenceSynchronized
    (result : jobject) (saved_local_ref_cookie : Z) (locked : jobject) : M ObjPtr :=
  MONITOR_JNI PaletteNotifyEndJniInvocation ;;;
  JniMethodEndWithReferenceSynchronized result saved_local_ref_cookie locked.

End Bridge.

(** ** What a call adds to the history *)

Definition events (h : list (Event * Thread)) : list Event := map fst h.

(** The steps of the transition protocol: the calls of the monitoring hooks,
    the transitions, the suspend check and the monitor operations. *)
Definition is_step (e : Event) : bool :=
  match e with
  | EvPaletteShouldReportJniInvocations
  | EvPaletteNotifyBeginJniInvocation | EvPaletteNotifyEndJniInvocation
  | EvTransitionFromRunnableToSuspended _ | EvTransitionFromSuspendedToRunnable
  | EvCheckSuspend | EvMonitorEnter _ | EvMonitorExit _ => true
  | _ => false
  end.

Definition is_transition (e : Event) : bool :=
  match e with
  | EvTransitionFromRunnableToSuspended _ | EvTransitionFromSuspendedToRunnable => true
  | _ => false
  end.

Definition is_suspend_check (e : Event) : bool :=
  match e with EvCheckSuspend => true | _ => false end.

Definition is_monitor_exit (e : Event) : bool :=
  match e with EvMonitorExit _ => true | _ => false end.

(** A pop of the local reference scope is the write of the segment state. *)
Definition is_pop (e : Event) : bool :=
  match e with EvSetLocalSegmentState _ => true | _ => false end.

(** A push is the write of the cookie that [Start] makes; [End] writes the
    cookie too, after the pop. *)
Definition is_cookie_write (e : Event) : bool :=
  match e with EvSetLocalRefCookie _ => true | _ => false end.

Definition is_decode (e : Event) : bool :=
  match e with EvDecodeJObject _ => true | _ => false end.

Definition count (f : Event -> bool) (h : list (Event * Thread)) : nat :=
  List.length (filter f (events h)).

(** Started with a thread that satisfies [I], the computation [m] only adds
    to the history, only events that [ok] accepts, each made with a thread
    that satisfies [I], and it ends with such a thread. *)
Definition confined {A} (I : Thread -> Prop) (ok : Event -> bool) (m : M A) : Prop :=
  forall p, I (self p) ->
    exists d,
      history (final (m p)) = history p ++ d
      /\ forallb ok (events d) = true
      /\ Forall (fun et => I (snd et)) d
      /\ I (self (final (m p))).

Definition emits_only {A} (ok : Event -> bool) (m : M A) : Prop :=
  confined (fun _ => True) ok m.

(** The thread after the push that [Start] makes, and after
    [PopLocalReferences]. *)
Definition pushed (t : Thread) : Thread :=
  with_jni_env (with_local_ref_cookie (locals_segment_state (jni_env t)) (jni_env t)) t.

Definition popped (cookie : Z) (t : Thread) : Thread :=
  with_jni_env
    (with_local_ref_cookie (bit_cast_IRTSegmentState cookie)
       (with_locals_segment_state (local_ref_cookie (jni_env t)) (jni_env t))) t.

(** ** Processes that differ in the tracing configuration only *)

Definition same_but_tracing (p q : Process) : Prop :=
  self p = self q /\ roots p = roots q /\ history p = history q.

(** Two outcomes agree: both return the same value or both abort for the
    same reason, and the processes they end in differ in the tracing
    configuration and the log at most. *)
Definition agree {A} (o1 o2 : Outcome A) : Prop :=
  match o1, o2 with
  | Returns a p, Returns b q => a = b /\ same_but_tracing p q
  | Aborts why p, Aborts why' q => why = why' /\ same_but_tracing p q
  | _, _ => False
  end.

(** The tracing configuration does not interfere with [m]. *)
Definition untraced {A} (m : M A) : Prop :=
  forall p q, same_but_tracing p q -> agree (m p) (m q).

(** [m] always returns and touches the configuration and the log only. *)
Definition invisible {A} (m : M A) : Prop :=
  forall p, exists a p', m p = Returns a p' /\ same_but_tracing p p'.

(** ** Specifications

    [spec pre post m]: started with a thread that satisfies [pre], [m]
    returns; and whenever [m] returns, the thread before, the value and the
    thread after satisfy [post]. *)
Definition spec {A} (pre : Thread -> Prop) (post : Thread -> A -> Thread -> Prop)
    (m : M A) : Prop :=
  forall p, match m p with
            | Returns a p' => post (self p) a (self p')
            | Aborts _ _ => ~ pre (self p)
            end.

(** The thread after the suspend check of the fast path. *)
Definition suspend_checked {rt : Collaborators} (t : Thread) : Thread :=
  if flags t =? 0 then t else with_flags (flags_after_suspend_check t) t.

(** The lock denotes an object whose monitor the thread can leave. *)
Definition releasable {rt : Collaborators} (locked : jobject) (t : Thread) : Prop :=
  let detached := with_exception nullptr t in
  decode detached locked <> nullptr
  /\ monitor_exit_exception detached (decode detached locked) = nullptr.

(** What [JniMethodEndWithReferenceHandleResult] returns. *)
Definition reference_result {rt : Collaborators} (result : jobject) (t : Thread) : ObjPtr :=
  if is_null (exception t) then decode t result else nullptr.

(** ** Call sites

    The bridge is called in pairs: a [Start] before the native code runs and
    the [End] that matches it afterwards, with the cookie [Start] returned.
    A compiled stub calls the entry points of one row below, with or without
    a reference result; the generic trampoline picks [Start] from the flags
    of the method and ends with [GenericJniMethodEnd]. *)
Inductive Stub :=
| StubNormal
| StubFast
| StubSynchronized (lock : jobject)
| StubMonitored
| StubMonitoredSynchronized (lock : jobject).

Inductive CallSite :=
| Compiled (stub : Stub) (reference_result : option jobject)
| Generic (called : ArtMethod) (to_lock : jobject) (result : jvalue) (result_f : Z).

Section CallSites.

Context {rt : Collaborators}.

(** Modelled from the spec: the generic trampoline, which is not in the
    source file, chooses the Start of a call.  A critical method skips
    [Start] altogether (no push, no transition, the cookie is unused), a
    fast method starts with [JniMethodFastStart], a synchronized one with
    [JniMethodStartSynchronized] on its lock and any other with
    [JniMethodStart]. *)
Definition generic_start (called : ArtMethod) (to_lock : jobject) : M Z :=
  if IsCriticalNative called then ret 0
  else if IsFastNative called then JniMethodFastStart
  else if IsSynchronized called then JniMethodStartSynchronized to_lock
  else JniMethodStart.

Definition Start (site : CallSite) : M Z :=
  match site with
  | Compiled StubNormal _ => JniMethodStart
  | Compiled StubFast _ => JniMethodFastStart
  | Compiled (StubSynchronized lock) _ => JniMethodStartSynchronized lock
  | Compiled StubMonitored _ => JniMonitoredMethodStart
  | Compiled (StubMonitoredSynchronized lock) _ => JniMonitoredMethodStartSynchronized lock
  | Generic called to_lock _ _ => generic_start called to_lock
  end.

(** A void [End] has no value; it is given the value 0 here. *)
Definition void (m : M unit) : M Z := m ;;; ret 0.

Definition End (site : CallSite) (cookie : Z) : M Z :=
  match site with
  | Compiled StubNormal None => void (JniMethodEnd cookie)
  | Compiled StubNormal (Some r) => JniMethodEndWithReference r cookie
  | Compiled StubFast None => void (JniMethodFastEnd cookie)
  | Compiled StubFast (Some r) => JniMethodFastEndWithReference r cookie
  | Compiled (StubSynchronized lock) None => void (JniMethodEndSynchronized cookie lock)
  | Compiled (StubSynchronized lock) (Some r) =>
      JniMethodEndWithReferenceSynchronized r cookie lock
  | Compiled StubMonitored None => void (JniMonitoredMethodEnd cookie)
  | Compiled StubMonitored (Some r) => JniMonitoredMethodEndWithReference r cookie
  | Compiled (StubMonitoredSynchronized lock) None =>
      void (JniMonitoredMethodEndSynchronized cookie lock)
  | Compiled (StubMonitoredSynchronized lock) (Some r) =>
      JniMonitoredMethodEndWithReferenceSynchronized r cookie lock
  | Generic called _ result result_f => GenericJniMethodEnd cookie result result_f called
  end.

End CallSites.

(** *** What a call site does and needs *)

Section CallSiteShape.

Context {rt : Collaborators}.

(** The call leaves Runnable for the native code and comes back. *)
Definition leaves_native (site : CallSite) : bool :=
  match site with
  | Compiled StubFast _ => false
  | Compiled _ _ => true
  | Generic called _ _ _ => negb (IsCriticalNative called) && negb (IsFastNative called)
  end.

Definition pushes (site : CallSite) : bool :=
  match site with
  | Generic called _ _ _ => negb (IsCriticalNative called)
  | _ => true
  end.

Definition pops (site : CallSite) : bool :=
  match site with
  | Generic called _ _ _ =>
      negb (IsCriticalNative called) || Ascii.eqb (return_shorty called) "L"
  | _ => true
  end.

(** The [End] of the call site goes through [GoToRunnableFast]. *)
Definition runs_fast_exit (site : CallSite) : bool :=
  match site with
  | Compiled StubFast _ => true
  | Compiled _ _ => false
  | Generic called _ _ _ => IsFastNative called
  end.

(** A critical native method takes and returns primitive values only. *)
Definition critical_returns_no_reference (site : CallSite) : Prop :=
  match site with
  | Generic called _ _ _ =>
      IsCriticalNative called = true -> return_shorty called <> "L"%char
  | _ => True
  end.

(** Synchronized is combined with the normal mode only. *)
Definition synchronized_is_normal (site : CallSite) : Prop :=
  match site with
  | Generic called _ _ _ =>
      IsSynchronized called = true ->
      IsFastNative called = false /\ IsCriticalNative called = false
  | _ => True
  end.

(** The method on top of the managed stack is the one the call site was
    made for; the debug build checks it. *)
Definition frame_matches (site : CallSite) (t : Thread) : Prop :=
  kIsDebugBuild = true ->
  match site with
  | Compiled StubFast _ => IsFastNative (top_quick_frame t) = true
  | Compiled _ _ => IsFastNative (top_quick_frame t) = false
  | Generic called _ _ _ =>
      top_quick_frame t = called
      /\ (IsSynchronized called = true ->
          IsFastNative called = false /\ IsCriticalNative called = false)
  end.

(** The rest of the runtime has no objection: no monitor is left held, the
    result checks pass and leaving a monitor raises nothing. *)
Definition cooperative : Prop :=
  (forall t, no_held_monitors t = true)
  /\ (forall t o, reference_result_ok t o = true)
  /\ (forall o, object_verifies o = true)
  /\ (forall t o, monitor_exit_exception t o = nullptr).

(** The lock of a synchronized call denotes an object. *)
Definition locks_resolve (site : CallSite) : Prop :=
  match site with
  | Compiled (StubSynchronized lock) _
  | Compiled (StubMonitoredSynchronized lock) _ => forall t, decode t lock <> nullptr
  | Compiled _ _ => True
  | Generic called to_lock _ _ =>
      IsSynchronized called = true ->
      (forall t, decode t to_lock <> nullptr)
      /\ (forall t, GetGenericJniSynchronizationObject t called <> 0)
      /\ (forall t t', decode t (GetGenericJniSynchronizationObject t' called) <> nullptr)
  end.

Definition known_return_type (site : CallSite) : Prop :=
  match site with
  | Generic called _ _ _ =>
      In (return_shorty called) ["L"; "F"; "D"; "Z"; "B"; "C"; "S"; "I"; "J"; "V"]%char
  | _ => True
  end.

(** What [Start] and [End] of a call site need in order to return. *)
Definition start_pre (site : CallSite) (t : Thread) : Prop :=
  frame_matches site t /\ locks_resolve site.

Definition end_pre (site : CallSite) (t : Thread) : Prop :=
  frame_matches site t /\ cooperative /\ locks_resolve site /\ known_return_type site
  /\ (leaves_native site = false -> state t = kRunnable).

Definition start_post (site : CallSite) (t : Thread) (cookie : Z) (t' : Thread) : Prop :=
  if pushes site then
    cookie = bit_cast_uint32 (local_ref_cookie (jni_env t))
    /\ t' = if leaves_native site then with_state kNative (pushed t) else pushed t
  else t' = t.

Definition end_post (site : CallSite) (cookie : Z) (t : Thread) (t' : Thread) : Prop :=
  state t' = (if leaves_native site then kRunnable else state t)
  /\ jni_env t' = (if pops site then jni_env (popped cookie t) else jni_env t)
  /\ exception t' = exception t
  /\ top_quick_frame t' = top_quick_frame t.

End CallSiteShape.

(** *** Runs that stay Runnable *)

Definition runnable (t : Thread) : Prop := state t = kRunnable.

(** The run added no transition to the history, the thread was Runnable at
    every call it recorded, and it is Runnable at the end. *)
Definition stays_runnable {A} (run : Outcome A) (start : Process) : Prop :=
  exists d,
    history (final run) = history start ++ d
    /\ count is_transition d = 0%nat
    /\ Forall (fun et => runnable (snd et)) d
    /\ runnable (self (final run)).

(** The run made the suspend check at most once, not at all when no flag was
    raised at its start, and once when a flag was raised and it returned. *)
Definition checks_once {A} (run : Outcome A) (start : Process) : Prop :=
  exists d,
    history (final run) = history start ++ d
    /\ (count is_suspend_check d <= 1)%nat
    /\ (flags (self start) = 0 -> count is_suspend_check d = 0%nat)
    /\ (flags (self start) <> 0 -> returned run <> None ->
        count is_suspend_check d = 1%nat).

Definition never_checks {A} (run : Outcome A) (start : Process) : Prop :=
  exists d,
    history (final run) = history start ++ d /\ count is_suspend_check d = 0%nat.

(** What the root barrier does when it runs: the root holds what the barrier
    routine returned, no other root changes and the thread is untouched. *)
Definition forwarded {rt : Collaborators} (slot : RootSlot) (p p' : Process) : Prop :=
  roots p' slot = barrier_for_root (roots p slot)
  /\ (forall other, other <> slot -> roots p' other = roots p other)
  /\ self p' = self p
  /\ history p' = history p ++ [(EvBarrierForRoot (roots p slot), self p)].

(** The checks made while a reference result is handled accept the object
    [o]: with CheckJNI on, the thread holds no monitor when the scope is
    popped and the reference check passes after the pop; and the object
    verifies. *)
Definition result_checks_accept {rt : Collaborators}
    (cookie : Z) (p : Process) (o : ObjPtr) : Prop :=
  (check_jni (jni_env (self p)) = true ->
   no_held_monitors (self p) = true
   /\ reference_result_ok (popped cookie (self p)) o = true)
  /\ object_verifies o = true.

(** ** A runtime to run the bridge on *)

Module Demo.

(** Handle [n] denotes the object at address [16 * n]; in a [strict] runtime
    the monitor of the object at address 64 is not owned, so that leaving it
    raises the exception at address 4096; objects at odd addresses are
    marked, and the collector has moved every other object up by 8. *)
#[export] Instance runtime (debug baker strict : bool) (isa : InstructionSet)
  : Collaborators := {|
  kIsDebugBuild := debug;
  kUseReadBarrier := true;
  kUseBakerReadBarrier := baker;
  kRuntimeISA := isa;
  should_report_jni_invocations := true;
  decode := fun _ ref => 16 * ref;
  monitor_exit_exception := fun _ o => if strict && (o =? 64) then 4096 else nullptr;
  flags_after_suspend_check := fun _ => 0;
  Dump := fun o => if o =? 4096 then "IllegalMonitorStateException" else "Throwable";
  GetGenericJniSynchronizationObject := fun _ _ => 2;
  no_held_monitors := fun _ => true;
  reference_result_ok := fun _ _ => true;
  object_verifies := fun _ => true;
  GetMarkBit := fun o => o mod 2;
  barrier_for_root := fun o => o + 8
|}.

Definition method (fast critical synchronized : bool) (shorty : string) : ArtMethod :=
  {| IsFastNative := fast; IsCriticalNative := critical; IsSynchronized := synchronized;
     GetShorty := shorty; PrettyMethod := "void Demo.nativeCall()" |}.

Definition env : JNIEnvExt :=
  {| local_ref_cookie := {| top_index := 3 |};
     locals_segment_state := {| top_index := 7 |};
     check_jni := true |}.

Definition thread (m : ArtMethod) (pending : ObjPtr) (raised : Z) : Thread :=
  {| state := kRunnable; jni_env := env; exception := pending; flags := raised;
     top_quick_frame := m |}.

Definition tracing (on : bool) : ConfigItem :=
  {| isJNIMethodPrint := on; jniFuncName := "nativeCall"; jniEnable := false |}.

Definition process (t : Thread) (cfg : ConfigItem) : Process :=
  {| self := t; roots := fun slot => 33 * slot; config := cfg; logcat := []; history := [] |}.

End Demo.


(** ** Further notions *)

(** The native code kept the saved cookie and the CheckJNI switch of [t]. *)
Definition scope_kept (t q : Thread) : Prop :=
  local_ref_cookie (jni_env q) = local_ref_cookie (jni_env t)
  /\ check_jni (jni_env q) = check_jni (jni_env t).

(** ** What a run keeps

    [keeps R m]: every run of [m], returning or not, leaves a process that
    is related by [R] to the one it started in. *)
Definition keeps (R : Process -> Process -> Prop) {A} (m : M A) : Prop :=
  forall p, R p (final (m p)).

(** The switch and the name of the tracing configuration are kept and the
    log has grown. *)
Definition tracing_kept (p q : Process) : Prop :=
  isJNIMethodPrint (config q) = isJNIMethodPrint (config p)
  /\ jniFuncName (config q) = jniFuncName (config p)
  /\ exists lines, logcat q = logcat p ++ lines.

(** With the switch off, configuration and log are kept. *)
Definition silent_when_off (p q : Process) : Prop :=
  isJNIMethodPrint (config p) = false ->
  config q = config p /\ logcat q = logcat p.

(** The switch is on and the name of the method on the stack contains the
    name the configuration asks for. *)
Definition traced (p : Process) : Prop :=
  isJNIMethodPrint (config p) = true
  /\ strstr (PrettyMethod (top_quick_frame (self p))) (jniFuncName (config p)) = true.

(** The configuration and the method on the stack are kept. *)
Definition config_kept (p q : Process) : Prop :=
  config q = config p /\ top_quick_frame (self q) = top_quick_frame (self p).

(** The [Start] of the stub goes through [JniMethodStart]. *)
Definition marks_entry (stub : Stub) : bool :=
  match stub with StubFast => false | _ => true end.

(** The [End] of the call site goes through [JniMethodEnd] or
    [JniMethodEndWithReferenceHandleResult]. *)
Definition marks_exit (site : CallSite) : bool :=
  match site with
  | Compiled StubFast None
  | Compiled (StubSynchronized _) None
  | Compiled (StubMonitoredSynchronized _) None => false
  | Compiled _ _ => true
  | Generic called _ _ _ => Ascii.eqb (return_shorty called) "L"
  end.

(** [yields R m]: a run of [m] that returns leaves a process related by [R]
    to the one it started in. *)
Definition yields (R : Process -> Process -> Prop) {A} (m : M A) : Prop :=
  forall p a q, m p = Returns a q -> R p q.

(** For a traced method, the configuration has become the one with
    [jniEnable] set to [b]. *)
Definition flag_set (b : bool) (p q : Process) : Prop :=
  traced p -> config q = with_jniEnable b (config p).

(** The configuration is kept. *)
Definition flag_kept (p q : Process) : Prop := config q = config p.

(** ** Handles and the scope

    [two_phase I ok1 ok2 m]: started with a thread that satisfies [I], what
    [m] adds to the history is in two parts: in the first, every event is
    accepted by [ok1] and made with a thread that satisfies [I]; in the
    second, every event is accepted by [ok2]. *)
Definition two_phase {A} (I : Thread -> Prop) (ok1 ok2 : Event -> bool) (m : M A) : Prop :=
  forall p, I (self p) ->
    exists before after,
      history (final (m p)) = history p ++ before ++ after
      /\ forallb ok1 (events before) = true
      /\ Forall (fun et => I (snd et)) before
      /\ forallb ok2 (events after) = true.

(** The scope of the thread is [env]. *)
Definition in_scope (env : JNIEnvExt) (t : Thread) : Prop := jni_env t = env.

(** ** The monitoring hooks *)

Definition is_palette (e : Event) : bool :=
  match e with
  | EvPaletteShouldReportJniInvocations
  | EvPaletteNotifyBeginJniInvocation | EvPaletteNotifyEndJniInvocation => true
  | _ => false
  end.

(** The entry points of the call site run the monitoring macro. *)
Definition monitored (site : CallSite) : bool :=
  match site with
  | Compiled StubMonitored _ | Compiled (StubMonitoredSynchronized _) _ => true
  | Compiled _ _ => false
  | Generic called _ _ _ => negb (IsCriticalNative called) && negb (IsFastNative called)
  end.

(** ** CheckJNI

    With CheckJNI on, the scope is kept. *)
Definition scope_kept_if_checked (p q : Process) : Prop :=
  check_jni (jni_env (self p)) = true -> jni_env (self q) = jni_env (self p).

(** Started with CheckJNI on, the computation does not return. *)
Definition stops_if_checked {A} (m : M A) : Prop :=
  forall p, check_jni (jni_env (self p)) = true -> returned (m p) = None.

(** The runtime [rt] for native code that comes back with a monitor held. *)
Definition with_held_monitors (rt : Collaborators) : Collaborators := {|
  kIsDebugBuild := @kIsDebugBuild rt;
  kUseReadBarrier := @kUseReadBarrier rt;
  kUseBakerReadBarrier := @kUseBakerReadBarrier rt;
  kRuntimeISA := @kRuntimeISA rt;
  should_report_jni_invocations := @should_report_jni_invocations rt;
  decode := @decode rt;
  monitor_exit_exception := @monitor_exit_exception rt;
  flags_after_suspend_check := @flags_after_suspend_check rt;
  Dump := @Dump rt;
  GetGenericJniSynchronizationObject := @GetGenericJniSynchronizationObject rt;
  no_held_monitors := fun _ => false;
  reference_result_ok := @reference_result_ok rt;
  object_verifies := @object_verifies rt;
  GetMarkBit := @GetMarkBit rt;
  barrier_for_root := @barrier_for_root rt
|}.

(** The checks that CheckJNI adds. *)
Definition is_jni_check (e : Event) : bool :=
  match e with
  | EvCheckNoHeldMonitors | EvCheckReferenceResult _ => true
  | _ => false
  end.

(** CheckJNI is off for the thread. *)
Definition unchecked (t : Thread) : Prop := check_jni (jni_env t) = false.

(** The log is kept. *)
Definition log_kept (p q : Process) : Prop := logcat q = logcat p.

(** ** Processes that differ in the calls of the palette only *)

Definition no_palette (h : list (Event * Thread)) : list Event :=
  filter (fun e => negb (is_palette e)) (events h).

Definition same_but_history (p q : Process) : Prop :=
  self p = self q /\ roots p = roots q /\ config p = config q /\ logcat p = logcat q
  /\ no_palette (history p) = no_palette (history q).

(** Both outcomes return the same value or both abort for the same reason,
    and the processes they end in differ at most in the calls of the palette
    that their histories record. *)
Definition same_outcome {A} (o1 o2 : Outcome A) : Prop :=
  match o1, o2 with
  | Returns a p, Returns b q => a = b /\ same_but_history p q
  | Aborts why p, Aborts why' q => why = why' /\ same_but_history p q
  | _, _ => False
  end.

(** [m] does not depend on the palette having been called. *)
Definition unobserving {A} (m : M A) : Prop :=
  forall p q, same_but_history p q -> same_outcome (m p) (m q).

(** The stub without the monitoring. *)
Definition plain (stub : Stub) : Stub :=
  match stub with
  | StubMonitored => StubNormal
  | StubMonitoredSynchronized lock => StubSynchronized lock
  | _ => stub
  end.

(** What no [Start] and no [End] writes: the roots, the method on the stack
    and the CheckJNI switch. *)
Definition bystanders_kept (p q : Process) : Prop :=
  roots q = roots p
  /\ top_quick_frame (self q) = top_quick_frame (self p)
  /\ check_jni (jni_env (self q)) = check_jni (jni_env (self p)).

(** ** Work that is done while Runnable

    [reaches I ok m]: what [m] adds to the history is in two parts: every
    event of the first is accepted by [ok], every event of the second is
    made with a thread that satisfies [I]; and when [m] returns, the thread
    satisfies [I]. *)
Definition reaches {A} (I : Thread -> Prop) (ok : Event -> bool) (m : M A) : Prop :=
  forall p,
    exists before after,
      history (final (m p)) = history p ++ before ++ after
      /\ forallb ok (events before) = true
      /\ Forall (fun et => I (snd et)) after
      /\ (returned (m p) <> None -> I (self (final (m p)))).

(** The transitions and the calls of the palette. *)
Definition is_changeover (e : Event) : bool := is_palette e || is_transition e.

(** ** Steps that are taken once

    [once f m]: what [m] adds to the history has at most one event that [f]
    accepts, and exactly one when [m] returns. *)
Definition once (f : Event -> bool) {A} (m : M A) : Prop :=
  forall p,
    exists d,
      history (final (m p)) = history p ++ d
      /\ (count f d <= 1)%nat
      /\ (returned (m p) <> None -> count f d = 1%nat).

Definition is_monitor_enter (e : Event) : bool :=
  match e with EvMonitorEnter _ => true | _ => false end.

(** The stub is one of a synchronized method. *)
Definition locks (stub : Stub) : bool :=
  match stub with
  | StubSynchronized _ | StubMonitoredSynchronized _ => true
  | _ => false
  end.

(** How often a run that returns takes a step: once or never. *)
Definition times (b : bool) : nat := if b then 1%nat else 0%nat.


(** The calls that work on objects, on the local reference scope or on the
    pending exception: the decoding of a handle, entering and leaving a
    monitor, the writes of the saved cookie and the segment state, clearing
    and setting the exception, and the checks of monitors and of the
    result. *)
Definition works_on_objects (e : Event) : bool :=
  match e with
  | EvDecodeJObject _ | EvMonitorEnter _ | EvMonitorExit _
  | EvSetLocalRefCookie _ | EvSetLocalSegmentState _
  | EvClearException | EvSetException _
  | EvCheckNoHeldMonitors | EvCheckReferenceResult _ | EvVerifyObject _ => true
  | _ => false
  end.
(** * Properties *)

(** ** The floating-point model on known values *)

Example float_one : bit_cast_uint32_float (static_cast_float (bit_cast_double 0x3FF0000000000000)) = 0x3F800000.
Proof. reflexivity. Qed.

Example float_tenth :
  bit_cast_uint32_float (static_cast_float (bit_cast_double 0x3FB999999999999A)) = 0x3DCCCCCD.
Proof. reflexivity. Qed.

Example float_overflow :
  bit_cast_uint32_float (static_cast_float (bit_cast_double 0x7FEFFFFFFFFFFFFF)) = 0x7F800000.
Proof. reflexivity. Qed.

Example float_tie_to_even :
  bit_cast_uint32_float (static_cast_float (bit_cast_double 0x3FF0000010000000)) = 0x3F800000
  /\ bit_cast_uint32_float (static_cast_float (bit_cast_double 0x3FF0000030000000)) = 0x3F800002.
Proof. split; reflexivity. Qed.

Example float_subnormal :
  bit_cast_uint32_float (static_cast_float (bit_cast_double 0x36A0000000000000)) = 1
  /\ bit_cast_uint32_float (static_cast_float (bit_cast_double 0x3800000000000000)) = 0x00400000.
Proof. split; reflexivity. Qed.

Example float_quiet_nan :
  bit_cast_uint32_float (static_cast_float (bit_cast_double 0x7FF0000000000001)) = 0x7FC00000.
Proof. reflexivity. Qed.

(** ** Histories only grow *)

Section Runs.

Context {rt : Collaborators}.

Lemma confined_ret {A} I ok (a : A) : confined I ok (ret a).
Proof. intros p Hp. exists []. cbn. rewrite app_nil_r. auto. Qed.

Lemma confined_abort {A} I ok why : confined I ok (@abort A why).
Proof. intros p Hp. exists []. cbn. rewrite app_nil_r. auto. Qed.

Lemma confined_bind {A B} I ok (m : M A) (k : A -> M B) :
  confined I ok m -> (forall a, confined I ok (k a)) -> confined I ok (bind m k).
Proof.
  intros Hm Hk p Hp. unfold bind.
  destruct (Hm p Hp) as (d1 & E1 & F1 & S1 & I1).
  destruct (m p) as [a p1 | why p1]; cbn in E1, I1.
  - destruct (Hk a p1 I1) as (d2 & E2 & F2 & S2 & I2).
    exists (d1 ++ d2). rewrite E2, E1, app_assoc. split; [reflexivity|].
    unfold events. rewrite map_app, forallb_app. fold (events d1) (events d2).
    rewrite F1, F2. repeat split; auto. now apply Forall_app.
  - exists d1. auto.
Qed.

Lemma confined_if {A} I ok (b : bool) (m1 m2 : M A) :
  confined I ok m1 -> confined I ok m2 -> confined I ok (if b then m1 else m2).
Proof. now destruct b. Qed.

Lemma confined_when I ok (b : bool) (m : M unit) :
  confined I ok m -> confined I ok (when b m).
Proof. intros H. destruct b; [exact H | apply confined_ret]. Qed.

Lemma confined_emit (I : Thread -> Prop) ok e : ok e = true -> confined I ok (emit e).
Proof.
  intros H p Hp. exists [(e, self p)]. cbn. rewrite H. repeat split; auto.
Qed.

Lemma confined_update_self (I : Thread -> Prop) ok f :
  (forall t, I t -> I (f t)) -> confined I ok (update_self f).
Proof. intros H p Hp. exists []. cbn. rewrite app_nil_r. auto. Qed.

(** A computation that leaves the thread and the history as they are. *)
Lemma confined_quiet {A} (I : Thread -> Prop) ok (m : M A) :
  (forall p, history (final (m p)) = history p /\ self (final (m p)) = self p) ->
  confined I ok m.
Proof.
  intros H p Hp. exists []. destruct (H p) as [Hh Hs]. rewrite Hh, Hs, app_nil_r. auto.
Qed.

Lemma emits_only_history {A} ok (m : M A) :
  emits_only ok m ->
  forall p, exists d,
    history (final (m p)) = history p ++ d /\ forallb ok (events d) = true.
Proof. intros H p. destruct (H p I) as (d & E & F & _). now exists d. Qed.

End Runs.

(** Decomposes a computation of the bridge into the events it emits. *)
Ltac emits_step :=
  first
    [ match goal with
      | |- confined _ _ (match ?x with _ => _ end) => destruct x
      end
    | apply confined_ret
    | apply confined_abort
    | apply confined_bind; [ | intros ? ]
    | apply confined_when
    | apply confined_if
    | apply confined_emit; reflexivity
    | apply confined_quiet; intros ?; split; reflexivity
    | apply confined_update_self; intros ? ?; first [ exact I | assumption ] ].

Ltac emits :=
  unfold emits_only;
  cbv [ReadBarrierJni JniMethodFastStart JniMethodStart JniMethodStartSynchronized
       GoToRunnable GoToRunnableFast PopLocalReferences UnlockJniSynchronizedMethod
       JniMethodEnd JniMethodFastEnd JniMethodEndSynchronized
       JniMethodEndWithReferenceHandleResult JniMethodFastEndWithReference
       JniMethodEndWithReference JniMethodEndWithReferenceSynchronized
       GenericJniMethodEnd JniMonitoredMethodStart JniMonitoredMethodStartSynchronized
       JniMonitoredMethodEnd JniMonitoredMethodEndSynchronized
       JniMonitoredMethodEndWithReference JniMonitoredMethodEndWithReferenceSynchronized
       MONITOR_JNI PaletteShouldReportJniInvocations
       PaletteNotifyBeginJniInvocation PaletteNotifyEndJniInvocation
       CHECK DCHECK GetLocalRefCookie GetLocalsSegmentState SetLocalRefCookie
       SetLocalSegmentState IsCheckJniEnabled CheckNoHeldMonitors GetTopQuickFrame
       TransitionFromRunnableToSuspended TransitionFromSuspendedToRunnable TestAllFlags
       CheckSuspend IsSharedHeld IsExceptionPending GetException ClearException
       SetException DecodeJObject deref MonitorEnter MonitorExit CheckReferenceResult
       VerifyObject BarrierForRoot generic_start Start End void];
  repeat emits_step.

Section Frames.

Context {rt : Collaborators}.

(** The result handling and the pop are no steps of the transition
    protocol. *)
Lemma PopLocalReferences_no_step c :
  emits_only (fun e => negb (is_step e)) (PopLocalReferences c).
Proof. emits. Qed.

Lemma HandleResult_no_step r c :
  emits_only (fun e => negb (is_step e)) (JniMethodEndWithReferenceHandleResult r c).
Proof. emits. Qed.

(** Leaving native code and releasing the monitor do not touch the scope. *)
Lemma GoToRunnable_no_pop : emits_only (fun e => negb (is_pop e)) GoToRunnable.
Proof. emits. Qed.

Lemma GoToRunnableFast_no_pop : emits_only (fun e => negb (is_pop e)) GoToRunnableFast.
Proof. emits. Qed.

Lemma Unlock_no_pop l : emits_only (fun e => negb (is_pop e)) (UnlockJniSynchronizedMethod l).
Proof. emits. Qed.

End Frames.

(** ** Running the bridge symbolically *)

Ltac unfold_bridge :=
  cbv [ReadBarrierJni JniMethodFastStart JniMethodStart JniMethodStartSynchronized
       GoToRunnable GoToRunnableFast PopLocalReferences UnlockJniSynchronizedMethod
       JniMethodEnd JniMethodFastEnd JniMethodEndSynchronized
       JniMethodEndWithReferenceHandleResult JniMethodFastEndWithReference
       JniMethodEndWithReference JniMethodEndWithReferenceSynchronized
       JniMonitoredMethodStart JniMonitoredMethodStartSynchronized
       JniMonitoredMethodEnd JniMonitoredMethodEndSynchronized
       JniMonitoredMethodEndWithReference JniMonitoredMethodEndWithReferenceSynchronized
       MONITOR_JNI PaletteShouldReportJniInvocations
       PaletteNotifyBeginJniInvocation PaletteNotifyEndJniInvocation
       CHECK DCHECK GetLocalRefCookie GetLocalsSegmentState SetLocalRefCookie
       SetLocalSegmentState IsCheckJniEnabled CheckNoHeldMonitors GetTopQuickFrame
       TransitionFromRunnableToSuspended TransitionFromSuspendedToRunnable TestAllFlags
       CheckSuspend IsSharedHeld IsExceptionPending GetException ClearException
       SetException DecodeJObject deref MonitorEnter MonitorExit CheckReferenceResult
       VerifyObject BarrierForRoot
       GetSelf update_self GetConfigItem update_config ALOGD emit load_root Assign
       bind ret abort when].

(** Follows every branch of an unfolded computation, using what is known
    about a condition before splitting on it. *)
Ltac crunch :=
  repeat (cbn;
    match goal with
    | H : true = false |- _ => discriminate H
    | H : false = true |- _ => discriminate H
    | H : negb true = true |- _ => discriminate H
    | H : negb false = false |- _ => discriminate H
    | |- context [?b && true] => rewrite (andb_true_r b)
    | |- context [?b && false] => rewrite (andb_false_r b)
    | H : ?b = true |- context [?b] =>
        lazymatch b with true => fail | false => fail | _ => rewrite H end
    | H : ?b = false |- context [?b] =>
        lazymatch b with true => fail | false => fail | _ => rewrite H end
    | |- context [is_null nullptr] => change (is_null nullptr) with true
    | |- context [if negb ?b then _ else _] => destruct b eqn:?
    | |- context [if ?b then _ else _] => destruct b eqn:?
    end); cbn.

(** Closes a goal about the explicit process a run ends in. *)
Ltac finish :=
  repeat (first [ eexists | split ]); cbn; rewrite <- ?app_assoc; cbn;
  first [ reflexivity | congruence | tauto ].

(** Closes a goal about what a run added to the history. *)
Ltac history_goal :=
  eexists; split;
  [ rewrite <- ?app_assoc; cbn; reflexivity
  | repeat split; cbn; try reflexivity;
    repeat constructor; cbn; intros;
    first [ discriminate | assumption | reflexivity | congruence ] ].

Lemma ThreadState_eqb_eq a b : ThreadState_eqb a b = true <-> a = b.
Proof. destruct a, b; cbn; split; congruence. Qed.

Lemma ThreadState_eqb_neq a b : ThreadState_eqb a b = false <-> a <> b.
Proof. destruct a, b; cbn; split; congruence. Qed.

Lemma is_null_false (o : ObjPtr) : o <> nullptr -> is_null o = false.
Proof. intros H. now apply Z.eqb_neq. Qed.

Lemma is_null_true (o : ObjPtr) : o = nullptr -> is_null o = true.
Proof. intros H. now apply Z.eqb_eq. Qed.

(** Writes every thread as a record of its fields. *)
Ltac thread_fields :=
  cbv [with_state with_jni_env with_exception with_flags with_local_ref_cookie
       with_locals_segment_state pushed popped] in *;
  cbn [state jni_env exception flags top_quick_frame
       local_ref_cookie locals_segment_state check_jni] in *.

(** Turns what is known about null pointers into values of [is_null]. *)
Ltac nulls :=
  repeat match goal with
         | H : _ <> nullptr |- _ => apply is_null_false in H
         | H : _ = nullptr |- _ => apply is_null_true in H
         end.

Lemma with_exception_same (t : Thread) : with_exception (exception t) t = t.
Proof. now destruct t. Qed.

Lemma with_exception_twice (a b : ObjPtr) (t : Thread) :
  with_exception a (with_exception b t) = with_exception a t.
Proof. reflexivity. Qed.

(** ** The root barrier *)

Section RootBarrier.

Context {rt : Collaborators}.

Lemma forwarded_set_root slot p :
  forwarded slot p
    (set_root slot (barrier_for_root (roots p slot))
       (record (EvBarrierForRoot (roots p slot)) p)).
Proof.
  unfold forwarded; cbn. rewrite Z.eqb_refl. repeat split.
  intros other H. apply Z.eqb_neq in H. now rewrite H.
Qed.

(** C8.  The build the contract of the root barrier names: a collector with
    read barriers (which a debug build checks and a release build takes for
    granted) and the Baker mark-bit test.  For a root that is not null: when
    the mark bit of its referent is set, the call returns and nothing has
    changed; otherwise the barrier routine is called on the root and what it
    returns overwrites the root in place, nothing else being changed. *)
Theorem ReadBarrierJni_mark_bit (declaring_class : RootSlot) (p : Process) :
  (kIsDebugBuild = true -> kUseReadBarrier = true) ->
  kUseBakerReadBarrier = true ->
  roots p declaring_class <> nullptr ->
  (GetMarkBit (roots p declaring_class) <> 0 ->
   ReadBarrierJni declaring_class p = Returns tt p)
  /\ (GetMarkBit (roots p declaring_class) = 0 ->
      exists p', ReadBarrierJni declaring_class p = Returns tt p'
                 /\ forwarded declaring_class p p').
Proof.
  intros Hrb Hb Hnull. apply is_null_false in Hnull.
  assert (Hrb' : kIsDebugBuild = false \/ kUseReadBarrier = true)
    by (destruct kIsDebugBuild; auto).
  clear Hrb. unfold_bridge. split.
  - intros Hmark. apply Z.eqb_neq in Hmark.
    destruct Hrb' as [Hd | Hr]; crunch; reflexivity.
  - intros Hmark. apply Z.eqb_eq in Hmark.
    destruct Hrb' as [Hd | Hr]; crunch;
      (eexists; split; [reflexivity | apply forwarded_set_root]).
Qed.

(** Without the Baker read barrier there is no mark-bit test: the barrier
    routine is called on every root. *)
Lemma ReadBarrierJni_without_mark_bit (declaring_class : RootSlot) (p : Process) :
  kUseReadBarrier = true ->
  kUseBakerReadBarrier = false ->
  exists p', ReadBarrierJni declaring_class p = Returns tt p'
             /\ forwarded declaring_class p p'.
Proof.
  intros Hrb Hb. unfold_bridge. rewrite Hrb.
  crunch; (eexists; split; [reflexivity | apply forwarded_set_root]).
Qed.

End RootBarrier.

Lemma ReadBarrierJni_mark_bit_witness :
  let rt := Demo.runtime true true true kArm64 in
  let p := Demo.process (Demo.thread (Demo.method false false false "V") 0 0)
                        (Demo.tracing false) in
  ReadBarrierJni 1 p = Returns tt p
  /\ exists p', ReadBarrierJni 2 p = Returns tt p' /\ roots p' 2 = 74.
Proof.
  intros rt p.
  destruct (@ReadBarrierJni_mark_bit rt 1 p (fun _ => eq_refl) eq_refl)
    as (marked & _); [discriminate|].
  destruct (@ReadBarrierJni_mark_bit rt 2 p (fun _ => eq_refl) eq_refl)
    as (_ & unmarked); [discriminate|].
  split.
  - apply marked. discriminate.
  - destruct unmarked as (p' & E & F & _); [reflexivity|].
    exists p'. split; [exact E | exact F].
Defined.

(** ** Start of a synchronized call *)

Section SynchronizedStart.

Context {rt : Collaborators}.

(** C10.  [JniMethodStartSynchronized] enters the monitor of the decoded lock
    object first, with the thread as the caller left it (Runnable); the write
    of the cookie (the push) and the transition to [kNative] follow in that
    order, and the cookie returned is the one [JniMethodStart] returns from
    the same process. *)
Theorem JniMethodStartSynchronized_enters_monitor_first (to_lock : jobject) (p : Process) :
  let o := decode (self p) to_lock in
  let cookie := bit_cast_uint32 (local_ref_cookie (jni_env (self p))) in
  state (self p) = kRunnable ->
  o <> nullptr ->
  (kIsDebugBuild = true -> IsFastNative (top_quick_frame (self p)) = false) ->
  exists p',
    JniMethodStartSynchronized to_lock p = Returns cookie p'
    /\ returned (JniMethodStart p) = Some cookie
    /\ history p' = history p ++
         [ (EvDecodeJObject to_lock, self p);
           (EvMonitorEnter o, self p);
           (EvSetLocalRefCookie (locals_segment_state (jni_env (self p))), self p);
           (EvTransitionFromRunnableToSuspended kNative, pushed (self p)) ]
    /\ state (pushed (self p)) = kRunnable
    /\ self p' = with_state kNative (pushed (self p)).
Proof.
  intros o cookie Hrun Ho Hd. subst o cookie.
  apply is_null_false in Ho.
  unfold_bridge.
  destruct p as [t r c l h]; cbn [self config history logcat roots] in *.
  assert (Hf : kIsDebugBuild = false \/ IsFastNative (top_quick_frame t) = false)
    by (destruct kIsDebugBuild; auto).
  clear Hd. destruct Hf as [Hf | Hf]; crunch; finish.
Qed.

End SynchronizedStart.

Lemma JniMethodStartSynchronized_enters_monitor_first_witness :
  let rt := Demo.runtime true true true kArm64 in
  let m := Demo.method false false true "V" in
  let p := Demo.process (Demo.thread m 0 0) (Demo.tracing true) in
  exists p',
    JniMethodStartSynchronized 2 p = Returns 3 p'
    /\ events (history p')
       = [EvDecodeJObject 2; EvMonitorEnter 32;
          EvSetLocalRefCookie {| top_index := 7 |};
          EvTransitionFromRunnableToSuspended kNative].
Proof.
  intros rt m p.
  destruct (@JniMethodStartSynchronized_enters_monitor_first rt 2 p)
    as (p' & E & _ & H & _).
  - reflexivity.
  - discriminate.
  - reflexivity.
  - exists p'. split; [exact E | rewrite H; reflexivity].
Defined.

(** ** Release of the monitor *)

Section MonitorGuard.

Context {rt : Collaborators}.

(** The run of [UnlockJniSynchronizedMethod], case by case. *)
Lemma UnlockJniSynchronizedMethod_run (locked : jobject) (p : Process) :
  let E1 := exception (self p) in
  let detached := with_exception nullptr (self p) in
  let o := decode detached locked in
  let E2 := monitor_exit_exception detached o in
  let run := UnlockJniSynchronizedMethod locked p in
  o <> nullptr ->
  (exists d,
      history (final run) = history p ++ d
      /\ events d =
           (if is_null E1 then [] else [EvClearException])
           ++ [EvDecodeJObject locked; EvMonitorExit o]
           ++ (if is_null E2 && negb (is_null E1) then [EvSetException E1] else [])
      /\ count is_monitor_exit d = 1%nat
      /\ Forall (fun et => is_monitor_exit (fst et) = true -> exception (snd et) = nullptr) d)
  /\ (E2 <> nullptr -> E1 <> nullptr ->
      exists p', run = Aborts (LogFatal (second_exception_message E1 E2)) p')
  /\ (E2 <> nullptr -> returned run = None)
  /\ (E2 = nullptr -> exists p', run = Returns tt p' /\ self p' = self p).
Proof.
  intros E1 detached o E2 run Ho.
  apply is_null_false in Ho.
  subst run E2 o E1.
  assert (Hdet : is_null (exception (self p)) = true -> detached = self p).
  { intros H. apply Z.eqb_eq in H. subst detached.
    destruct (self p); cbn in *. now subst. }
  destruct p as [t r c l h]; cbn [self config history logcat roots] in *.
  destruct (is_null (exception t)) eqn:HE1.
  - (* nothing pending on entry *)
    rewrite Hdet in * by reflexivity. clear Hdet detached.
    assert (Hnone : nullptr = exception t) by (symmetry; now apply Z.eqb_eq).
    unfold_bridge.
    crunch; repeat split; intros; nulls; try congruence; try history_goal; try finish.
  - (* E1 pending on entry *)
    subst detached. clear Hdet.
    unfold_bridge.
    crunch; repeat split; intros; nulls; try congruence; try history_goal; try finish.
    all: eexists; split; [reflexivity | cbn; now destruct t].
Qed.


End MonitorGuard.


(** ** Reference results *)

Section ReferenceResult.

Context {rt : Collaborators}.

(** C3.  With an exception pending, [JniMethodEndWithReferenceHandleResult]
    does not decode the handle, its outcome is the same for every handle,
    and the reference it returns is null.  With none pending, the handle is
    decoded once, before anything else, and the decoded object is what is
    returned.  In both cases the call returns when the checks accept the
    object. *)
Theorem JniMethodEndWithReferenceHandleResult_result
    (result : jobject) (cookie : Z) (p : Process) :
  let run := JniMethodEndWithReferenceHandleResult result cookie p in
  (exception (self p) <> nullptr ->
     (forall other, JniMethodEndWithReferenceHandleResult other cookie p = run)
     /\ (forall o p', run = Returns o p' -> o = nullptr)
     /\ count is_decode (history (final run)) = count is_decode (history p)
     /\ (result_checks_accept cookie p nullptr -> exists p', run = Returns nullptr p'))
  /\ (exception (self p) = nullptr ->
        (forall o p', run = Returns o p' -> o = decode (self p) result)
        /\ (exists d, history (final run)
                      = history p ++ (EvDecodeJObject result, self p) :: d
                      /\ count is_decode d = 0%nat)
        /\ (result_checks_accept cookie p (decode (self p) result) ->
            exists p', run = Returns (decode (self p) result) p')).
Proof.
  intros run; subst run. unfold result_checks_accept, popped.
  destruct p as [t r c l h]; cbn [self config history logcat roots] in *.
  split; intros HE; nulls.
  - split; [|split; [|split]].
    + intros other. unfold_bridge. crunch; reflexivity.
    + unfold_bridge. crunch; intros; congruence.
    + unfold_bridge. unfold count, events.
      crunch; rewrite ?map_app, ?filter_app, ?length_app; cbn; lia.
    + intros (Hjni & Hver). unfold_bridge.
      crunch; try (destruct Hjni; [reflexivity|]; thread_fields; congruence);
      try congruence; eexists; reflexivity.
  - split; [|split].
    + unfold_bridge. crunch; intros; congruence.
    + unfold_bridge. crunch; history_goal.
    + intros (Hjni & Hver). unfold_bridge.
      crunch; try (destruct Hjni; [reflexivity|]; thread_fields; congruence);
      try congruence; eexists; reflexivity.
Qed.

End ReferenceResult.

Lemma JniMethodEndWithReferenceHandleResult_result_witness :
  let rt := Demo.runtime true true true kArm64 in
  let m := Demo.method false false false "L" in
  (exists p', JniMethodEndWithReferenceHandleResult 5 3
                (Demo.process (Demo.thread m 77 0) (Demo.tracing true))
              = Returns nullptr p')
  /\ (exists p', JniMethodEndWithReferenceHandleResult 5 3
                   (Demo.process (Demo.thread m 0 0) (Demo.tracing true))
                 = Returns 80 p').
Proof.
  intros rt m. split.
  - destruct (@JniMethodEndWithReferenceHandleResult_result rt 5 3
                (Demo.process (Demo.thread m 77 0) (Demo.tracing true)))
      as ((_ & _ & _ & H) & _).
    + discriminate.
    + apply H. repeat split.
  - destruct (@JniMethodEndWithReferenceHandleResult_result rt 5 3
                (Demo.process (Demo.thread m 0 0) (Demo.tracing true)))
      as (_ & (_ & _ & H)).
    + reflexivity.
    + apply H. repeat split.
Defined.

(** ** The epilogue dispatcher *)

Lemma filter_rejected {A} (f ok : A -> bool) (l : list A) :
  (forall a, f a = true -> ok a = false) ->
  forallb ok l = true -> filter f l = [].
Proof.
  intros H. induction l as [|a l IH]; cbn; [reflexivity|].
  intros F. apply andb_prop in F as [Fa Fl].
  destruct (f a) eqn:E; [apply H in E; congruence | auto].
Qed.

Lemma no_step_filter (d : list (Event * Thread)) :
  forallb (fun e => negb (is_step e)) (events d) = true ->
  filter is_step (events d) = [].
Proof. apply filter_rejected. intros a H. now rewrite H. Qed.

Lemma no_step_no_monitor_exit (d : list (Event * Thread)) :
  forallb (fun e => negb (is_step e)) (events d) = true ->
  Forall (fun et => is_monitor_exit (fst et) = true -> state (snd et) = kRunnable) d.
Proof.
  induction d as [|[e t] d IH]; cbn; intros F; constructor.
  - apply andb_prop in F as [Fe _]. cbn. destruct e; cbn in *; congruence.
  - apply IH. now apply andb_prop in F as [_ F].
Qed.

Lemma no_step_no_monitor_exit_filter (d : list (Event * Thread)) :
  forallb (fun e => negb (is_step e)) (events d) = true ->
  filter is_monitor_exit (events d) = [].
Proof.
  apply filter_rejected. intros a H. destruct a; cbn in *; congruence.
Qed.

Lemma events_app (a b : list (Event * Thread)) : events (a ++ b) = events a ++ events b.
Proof. apply map_app. Qed.

Section Dispatcher.

Context {rt : Collaborators}.

(** C1.  The steps [GenericJniMethodEnd] takes, for the method [called] on
    top of the managed stack.  What it adds to the history consists, in this
    order, of the steps of leaving native code and then the releases of the
    monitor, and of nothing else that is a step.  A normal method (neither
    flag) gets the monitoring macro with the end hook (the palette is asked
    whether it wants reports and, if so, notified of the end) and then the
    transition to Runnable; a fast method gets only the suspend check, made
    when a flag is raised; a critical method (and not fast) gets neither.
    There is at most one release, none for a method that is not
    synchronized, and one for a synchronized method whose call returns; for a
    normal method it is made with the thread Runnable. *)
Theorem GenericJniMethodEnd_step_order (cookie : Z) (result : jvalue) (result_f : Z)
    (called : ArtMethod) (p : Process) :
  let run := GenericJniMethodEnd cookie result result_f called p in
  top_quick_frame (self p) = called ->
  (IsFastNative called = true -> state (self p) = kRunnable) ->
  exists d,
    history (final run) = history p ++ d
    /\ (count is_monitor_exit d <= 1)%nat
    /\ (IsSynchronized called = false -> count is_monitor_exit d = 0%nat)
    /\ (IsSynchronized called = true -> returned run <> None ->
        count is_monitor_exit d = 1%nat)
    /\ (IsCriticalNative called = false -> IsFastNative called = false ->
        filter is_step (events d)
        = [EvPaletteShouldReportJniInvocations]
          ++ (if should_report_jni_invocations then [EvPaletteNotifyEndJniInvocation] else [])
          ++ [EvTransitionFromSuspendedToRunnable]
          ++ filter is_monitor_exit (events d)
        /\ Forall (fun et => is_monitor_exit (fst et) = true -> state (snd et) = kRunnable) d)
    /\ (IsFastNative called = true ->
        filter is_step (events d)
        = (if flags (self p) =? 0 then [] else [EvCheckSuspend])
          ++ filter is_monitor_exit (events d))
    /\ (IsCriticalNative called = true -> IsFastNative called = false ->
        filter is_step (events d) = filter is_monitor_exit (events d)).
Proof.
  intros run Hframe Hfast. subst run.
  unfold GenericJniMethodEnd. cbv zeta.
  match goal with
  | |- context [bind _ (fun _ => bind _ (fun _ => ?k))] => remember k as phase3 eqn:Hp3
  end.
  assert (H3 : emits_only (fun e => negb (is_step e)) phase3) by (rewrite Hp3; emits).
  clear Hp3.
  destruct p as [t r c l h]; cbn [self config history logcat roots] in *.
  destruct t as [st env exc fl top]; cbn in Hframe, Hfast. subst called.
  unfold count.
  destruct (IsCriticalNative top) eqn:HC;
  (destruct (IsFastNative top) eqn:HF;
    [ rewrite Hfast in * by reflexivity | ]; clear Hfast;
    unfold_bridge; crunch).
  all: try match goal with
           | |- context [final (?f ?q)] =>
               destruct (emits_only_history _ _ H3 q) as (d3 & E3 & F3); rewrite E3; clear E3;
               pose proof (no_step_filter _ F3) as S3;
               pose proof (no_step_no_monitor_exit_filter _ F3) as X3;
               pose proof (no_step_no_monitor_exit _ F3) as R3
           end.
  all: cbn [history record set_self self]; rewrite <- ?app_assoc; cbn [app];
    eexists; (split; [first [reflexivity | symmetry; apply app_nil_r]|]).
  all: rewrite ?events_app; cbn [events map fst filter is_step is_monitor_exit app];
    try change (map fst d3) with (events d3);
    rewrite ?S3, ?X3; cbn [List.length app].
  all: repeat split; intros; try discriminate; try congruence; try lia.
  all: repeat (first [ assumption | apply Forall_cons | apply Forall_nil ]);
    cbn; intros; first [ discriminate | reflexivity ].
Qed.


Lemma no_pop_count (d : list (Event * Thread)) :
  forallb (fun e => negb (is_pop e)) (events d) = true -> count is_pop d = 0%nat.
Proof.
  intros F. unfold count. rewrite (filter_rejected is_pop _ _ (fun a H => f_equal negb H) F).
  reflexivity.
Qed.

Lemma count_app f (a b : list (Event * Thread)) :
  count f (a ++ b) = (count f a + count f b)%nat.
Proof. unfold count. now rewrite events_app, filter_app, length_app. Qed.


End Dispatcher.

Lemma GenericJniMethodEnd_step_order_witness :
  let rt := Demo.runtime true true true kArm64 in
  let m := Demo.method false false true "I" in
  let p := Demo.process (with_state kNative (Demo.thread m 0 0)) (Demo.tracing false) in
  exists d,
    history (final (GenericJniMethodEnd 3 5 0 m p)) = history p ++ d
    /\ filter is_step (events d)
       = [EvPaletteShouldReportJniInvocations; EvPaletteNotifyEndJniInvocation;
          EvTransitionFromSuspendedToRunnable]
         ++ filter is_monitor_exit (events d)
    /\ count is_monitor_exit d = 1%nat.
Proof.
  intros rt m p.
  destruct (@GenericJniMethodEnd_step_order rt 3 5 0 m p eq_refl)
    as (d & E & _ & _ & One & Normal & _).
  - discriminate.
  - exists d. split; [exact E|]. split.
    + apply Normal; reflexivity.
    + apply One; [reflexivity | discriminate].
Defined.

(** ** Narrowing of a float result *)

Section FloatResult.

Context {rt : Collaborators}.

(** C6.  A call of [GenericJniMethodEnd] for a method with return type ['F']
    that returns, returns on x86 the bits of the [float] nearest to the
    [double] whose bits are the payload [result_f], a number below [2^32];
    on any other instruction set it returns the payload itself, so its low
    32 bits are those of the payload.  A critical method that is neither
    fast nor synchronized always returns, and in the process it started
    in. *)
Theorem GenericJniMethodEnd_float_result (cookie : Z) (result : jvalue) (result_f : Z)
    (called : ArtMethod) (p : Process) :
  let run := GenericJniMethodEnd cookie result result_f called p in
  let narrowed := bit_cast_uint32_float (static_cast_float (bit_cast_double result_f)) in
  return_shorty called = "F"%char ->
  (forall v p', run = Returns v p' ->
     (kRuntimeISA = kX86 -> v = narrowed /\ 0 <= v < 2 ^ 32)
     /\ (kRuntimeISA <> kX86 ->
         v = result_f mod 2 ^ 64 /\ v mod 2 ^ 32 = result_f mod 2 ^ 32))
  /\ (IsCriticalNative called = true -> IsFastNative called = false ->
      IsSynchronized called = false ->
      run = Returns (if InstructionSet_eqb kRuntimeISA kX86 then narrowed
                     else result_f mod 2 ^ 64) p).
Proof.
  intros run narrowed HF. subst run.
  assert (Hrange : 0 <= narrowed < 2 ^ 32).
  { subst narrowed. unfold bit_cast_uint32_float, unsigned_bits.
    apply Z.mod_pos_bound. reflexivity. }
  assert (Hwide : to_uint64 narrowed = narrowed).
  { unfold to_uint64. apply Z.mod_small. change (2 ^ 64) with 18446744073709551616.
    change (2 ^ 32) with 4294967296 in Hrange. lia. }
  assert (Hlow : (result_f mod 2 ^ 64) mod 2 ^ 32 = result_f mod 2 ^ 32).
  { apply Z.mod_mod_divide. exists (2 ^ 32). reflexivity. }
  unfold GenericJniMethodEnd. cbv zeta. rewrite HF.
  change (Ascii.eqb "F" "L") with false. change (Ascii.eqb "F" "F") with true.
  cbv iota. fold narrowed.
  split.
  - match goal with
    | |- context [bind ?m1 (fun _ => bind ?m2 (fun _ => bind ?m3 _))] =>
        generalize m1 as phase1; generalize m2 as phase2; generalize m3 as pop
    end.
    intros pop phase2 phase1 v p'. unfold bind, ret.
    destruct (phase1 p) as [? p1|]; [|discriminate].
    destruct (phase2 p1) as [? p2|]; [|discriminate].
    destruct (pop p2) as [? p3|]; [|discriminate].
    destruct kRuntimeISA; cbn; intros E; inversion E; subst; rewrite ?Hwide;
      (split; intros H; [ try discriminate H; try (exfalso; apply H; reflexivity)
                        | try discriminate H; try (exfalso; apply H; reflexivity) ]);
      auto.
  - intros HC HFast HS. rewrite HC, HFast, HS. cbn.
    destruct kRuntimeISA; cbn; unfold bind, ret; cbn; rewrite ?Hwide; reflexivity.
Qed.

End FloatResult.

Lemma GenericJniMethodEnd_float_result_witness :
  let m := Demo.method false true false "F" in
  let p := Demo.process (Demo.thread m 0 0) (Demo.tracing false) in
  @GenericJniMethodEnd (Demo.runtime false true true kX86) 0 0 0x3FB999999999999A m p
  = Returns 0x3DCCCCCD p
  /\ @GenericJniMethodEnd (Demo.runtime false true true kArm64) 0 0 0x3DCCCCCD m p
     = Returns 0x3DCCCCCD p.
Proof.
  intros m p. split.
  - apply (@GenericJniMethodEnd_float_result (Demo.runtime false true true kX86)
             0 0 0x3FB999999999999A m p eq_refl); reflexivity.
  - apply (@GenericJniMethodEnd_float_result (Demo.runtime false true true kArm64)
             0 0 0x3DCCCCCD m p eq_refl); reflexivity.
Defined.

(** ** The tracing configuration *)

Section Tracing.

Context {rt : Collaborators}.

Lemma same_but_tracing_refl p : same_but_tracing p p.
Proof. repeat split. Qed.

Lemma same_but_tracing_sym p q : same_but_tracing p q -> same_but_tracing q p.
Proof. intros (A & B & C). repeat split; congruence. Qed.

Lemma same_but_tracing_trans p q r :
  same_but_tracing p q -> same_but_tracing q r -> same_but_tracing p r.
Proof. intros (A & B & C) (A' & B' & C'). repeat split; congruence. Qed.

Lemma untraced_ret {A} (a : A) : untraced (ret a).
Proof. intros p q H. cbn. auto. Qed.

Lemma untraced_abort {A} why : untraced (@abort A why).
Proof. intros p q H. cbn. auto. Qed.

Lemma untraced_bind {A B} (m : M A) (k : A -> M B) :
  untraced m -> (forall a, untraced (k a)) -> untraced (bind m k).
Proof.
  intros Hm Hk p q H. unfold bind. specialize (Hm p q H).
  destruct (m p) as [a p1 | why p1], (m q) as [b q1 | why' q1]; cbn in Hm;
    try contradiction.
  - destruct Hm as [-> S]. now apply Hk.
  - exact Hm.
Qed.

Lemma untraced_if {A} (b : bool) (m1 m2 : M A) :
  untraced m1 -> untraced m2 -> untraced (if b then m1 else m2).
Proof. now destruct b. Qed.

Lemma untraced_when (b : bool) (m : M unit) : untraced m -> untraced (when b m).
Proof. intros H. destruct b; [exact H | apply untraced_ret]. Qed.

Lemma untraced_GetSelf : untraced GetSelf.
Proof. intros p q H. cbn. split; [apply H | exact H]. Qed.

Lemma untraced_update_self f : untraced (update_self f).
Proof.
  intros p q (A & B & C). cbn. split; [reflexivity|].
  repeat split; cbn; congruence.
Qed.

Lemma untraced_emit e : untraced (emit e).
Proof.
  intros p q (A & B & C). cbn. split; [reflexivity|].
  repeat split; cbn; try assumption. now rewrite A, C.
Qed.

Lemma untraced_load_root slot : untraced (load_root slot).
Proof.
  intros p q (A & B & C). cbn. split; [now rewrite B|]. now repeat split.
Qed.

Lemma untraced_Assign slot o : untraced (Assign slot o).
Proof.
  intros p q (A & B & C). cbn. split; [reflexivity|].
  repeat split; cbn; try assumption. now rewrite B.
Qed.

Lemma invisible_ret {A} (a : A) : invisible (ret a).
Proof. intros p. exists a, p. split; [reflexivity | apply same_but_tracing_refl]. Qed.

Lemma invisible_bind {A B} (m : M A) (k : A -> M B) :
  invisible m -> (forall a, invisible (k a)) -> invisible (bind m k).
Proof.
  intros Hm Hk p. unfold bind.
  destruct (Hm p) as (a & p1 & E & S). rewrite E.
  destruct (Hk a p1) as (b & p2 & E' & S').
  exists b, p2. split; [exact E' | eapply same_but_tracing_trans; eassumption].
Qed.

Lemma invisible_when (b : bool) (m : M unit) : invisible m -> invisible (when b m).
Proof. intros H. destruct b; [exact H | apply invisible_ret]. Qed.

Lemma invisible_GetSelf : invisible GetSelf.
Proof. intros p. exists (self p), p. split; [reflexivity | apply same_but_tracing_refl]. Qed.

Lemma invisible_ALOGD fmt args : invisible (ALOGD fmt args).
Proof. intros p. exists tt. eexists. split; [reflexivity | now repeat split]. Qed.

Lemma invisible_update_config f : invisible (update_config f).
Proof. intros p. exists tt. eexists. split; [reflexivity | now repeat split]. Qed.

(** The shape of the code the course adds: read the configuration, log and
    flip [jniEnable] depending on it, and go on with the original code. *)
Lemma untraced_tracing {A B} (body : ConfigItem -> M A) (k : M B) :
  (forall cfg, invisible (body cfg)) -> untraced k ->
  untraced (bind GetConfigItem (fun cfg => bind (body cfg) (fun _ => k))).
Proof.
  intros Hbody Hk p q H. unfold bind at 1 3, GetConfigItem.
  unfold bind.
  destruct (Hbody (config p) p) as (a & p1 & E & S). rewrite E.
  destruct (Hbody (config q) q) as (b & q1 & E' & S'). rewrite E'.
  apply Hk.
  apply same_but_tracing_trans with p; [apply same_but_tracing_sym; exact S|].
  apply same_but_tracing_trans with q; assumption.
Qed.

End Tracing.

Ltac invisible_step :=
  first
    [ apply invisible_ret
    | apply invisible_bind; [ | intros ? ]
    | apply invisible_when
    | apply invisible_GetSelf
    | apply invisible_ALOGD
    | apply invisible_update_config ].

Ltac untraced_step :=
  first
    [ match goal with
      | |- untraced (match ?x with _ => _ end) => destruct x
      end
    | apply untraced_tracing; [ intros ?; repeat invisible_step | ]
    | apply untraced_ret
    | apply untraced_abort
    | apply untraced_bind; [ | intros ? ]
    | apply untraced_when
    | apply untraced_if
    | apply untraced_GetSelf
    | apply untraced_update_self
    | apply untraced_emit
    | apply untraced_load_root
    | apply untraced_Assign ].

Ltac untraced_all :=
  cbv [ReadBarrierJni JniMethodFastStart JniMethodStart JniMethodStartSynchronized
       GoToRunnable GoToRunnableFast PopLocalReferences UnlockJniSynchronizedMethod
       JniMethodEnd JniMethodFastEnd JniMethodEndSynchronized
       JniMethodEndWithReferenceHandleResult JniMethodFastEndWithReference
       JniMethodEndWithReference JniMethodEndWithReferenceSynchronized
       GenericJniMethodEnd JniMonitoredMethodStart JniMonitoredMethodStartSynchronized
       JniMonitoredMethodEnd JniMonitoredMethodEndSynchronized
       JniMonitoredMethodEndWithReference JniMonitoredMethodEndWithReferenceSynchronized
       MONITOR_JNI PaletteShouldReportJniInvocations
       PaletteNotifyBeginJniInvocation PaletteNotifyEndJniInvocation
       CHECK DCHECK GetLocalRefCookie GetLocalsSegmentState SetLocalRefCookie
       SetLocalSegmentState IsCheckJniEnabled CheckNoHeldMonitors GetTopQuickFrame
       TransitionFromRunnableToSuspended TransitionFromSuspendedToRunnable TestAllFlags
       CheckSuspend IsSharedHeld IsExceptionPending GetException ClearException
       SetException DecodeJObject deref MonitorEnter MonitorExit CheckReferenceResult
       VerifyObject BarrierForRoot generic_start Start End void];
  repeat untraced_step.

Section TracingTheorem.

Context {rt : Collaborators}.

Lemma untraced_Start site : untraced (Start site).
Proof. untraced_all. Qed.

Lemma untraced_End site cookie : untraced (End site cookie).
Proof. untraced_all. Qed.

Lemma untraced_ReadBarrierJni slot : untraced (ReadBarrierJni slot).
Proof. untraced_all. Qed.

(** C9.  Two processes that differ at most in the tracing configuration
    ([isJNIMethodPrint], [jniFuncName], [jniEnable]) and in the log behave
    alike: every Start and every End returns the same value in both, or
    aborts for the same reason in both, and ends with the same thread (scope,
    state and exception slot), the same roots and the same history of calls
    into the runtime. *)
Theorem tracing_does_not_interfere (site : CallSite) (cookie : Z) (p q : Process) :
  same_but_tracing p q ->
  agree (Start site p) (Start site q)
  /\ agree (End site cookie p) (End site cookie q).
Proof.
  intros H. split; [ now apply untraced_Start | now apply untraced_End ].
Qed.

End TracingTheorem.

Lemma tracing_does_not_interfere_witness :
  let rt := Demo.runtime true true true kArm64 in
  let m := Demo.method false false false "L" in
  let site := Generic m 0 5 0 in
  let t := with_state kNative (Demo.thread m 0 0) in
  agree (End site 3 (Demo.process t (Demo.tracing true)))
        (End site 3 (Demo.process t (Demo.tracing false))).
Proof.
  intros rt m site t.
  apply (@tracing_does_not_interfere rt site 3
           (Demo.process t (Demo.tracing true)) (Demo.process t (Demo.tracing false))).
  repeat split.
Defined.

(** ** Specifications of the parts *)

Lemma is_null_eq (o : ObjPtr) : is_null o = true -> o = nullptr.
Proof. apply Z.eqb_eq. Qed.

Lemma is_null_neq (o : ObjPtr) : is_null o = false -> o <> nullptr.
Proof. apply Z.eqb_neq. Qed.

(** Turns the conditions a run went through into propositions. *)
Ltac conditions :=
  repeat match goal with
         | E : is_null _ = true |- _ => apply is_null_eq in E
         | E : is_null _ = false |- _ => apply is_null_neq in E
         | E : (_ =? _) = false |- _ => apply Z.eqb_neq in E
         | E : (_ =? _) = true |- _ => apply Z.eqb_eq in E
         | E : ThreadState_eqb _ _ = false |- _ => apply ThreadState_eqb_neq in E
         | E : ThreadState_eqb _ _ = true |- _ => apply ThreadState_eqb_eq in E
         | E : negb _ = true |- _ => apply negb_true_iff in E
         | E : negb _ = false |- _ => apply negb_false_iff in E
         end.

(** Proves a specification of a small computation by running it. *)
Ltac run_spec :=
  intros p; unfold_bridge;
  destruct p as [t r c l h]; cbn [self config history logcat roots] in *;
  crunch; cbn;
  first
    [ solve [ repeat split; thread_fields; first [ reflexivity | congruence ] ]
    | let H := fresh "Hpre" in
      intros H; cbn in H; thread_fields; conditions;
      solve [ intuition congruence ] ].

Section Specs.

Context {rt : Collaborators}.

Lemma spec_bind {A B} pre1 post1 pre2 post2 (m : M A) (k : A -> M B) :
  spec pre1 post1 m ->
  (forall a, spec (pre2 a) (post2 a) (k a)) ->
  spec (fun t => pre1 t /\ forall a t1, post1 t a t1 -> pre2 a t1)
       (fun t b t2 => exists a t1, post1 t a t1 /\ post2 a t1 b t2)
       (bind m k).
Proof.
  intros Hm Hk p. unfold bind. specialize (Hm p).
  destruct (m p) as [a p1 | why p1].
  - specialize (Hk a p1). destruct (k a p1) as [b p2 | why p2].
    + now exists a, (self p1).
    + intros [_ H]. apply Hk. now apply H.
  - intros [H _]. now apply Hm.
Qed.

Lemma spec_weaken {A} (pre pre' : Thread -> Prop) (post post' : Thread -> A -> Thread -> Prop)
    (m : M A) :
  spec pre post m ->
  (forall t, pre' t -> pre t) ->
  (forall t a t', post t a t' -> post' t a t') ->
  spec pre' post' m.
Proof.
  intros H Hpre Hpost p. specialize (H p).
  destruct (m p); [now apply Hpost | intros Hp; now apply H, Hpre].
Qed.

Lemma spec_returns {A} pre post (m : M A) p :
  spec pre post m -> pre (self p) ->
  exists a p', m p = Returns a p' /\ post (self p) a (self p').
Proof.
  intros H Hp. specialize (H p). destruct (m p) as [a p' | why p'].
  - now exists a, p'.
  - contradiction.
Qed.

Lemma spec_post {A} pre post (m : M A) p a p' :
  spec pre post m -> m p = Returns a p' -> post (self p) a (self p').
Proof. intros H E. specialize (H p). now rewrite E in H. Qed.

Lemma MONITOR_JNI_spec e :
  spec (fun _ => True) (fun t _ t' => t' = t) (MONITOR_JNI (emit e)).
Proof. run_spec. Qed.

Lemma GoToRunnable_spec :
  spec (fun t => kIsDebugBuild = true -> IsFastNative (top_quick_frame t) = false)
       (fun t _ t' => t' = with_state kRunnable t)
       GoToRunnable.
Proof. run_spec. Qed.

Lemma GoToRunnableFast_spec :
  spec (fun t => kIsDebugBuild = true ->
                 IsFastNative (top_quick_frame t) = true
                 /\ (flags t <> 0 -> state t = kRunnable))
       (fun t _ t' => t' = suspend_checked t)
       GoToRunnableFast.
Proof.
  unfold suspend_checked. run_spec.
Qed.

Lemma PopLocalReferences_spec cookie :
  spec (fun t => check_jni (jni_env t) = true -> no_held_monitors t = true)
       (fun t _ t' => t' = popped cookie t)
       (PopLocalReferences cookie).
Proof. run_spec. Qed.

Lemma UnlockJniSynchronizedMethod_spec locked :
  spec (releasable locked) (fun t _ t' => t' = t) (UnlockJniSynchronizedMethod locked).
Proof.
  intros p.
  pose proof (UnlockJniSynchronizedMethod_run locked p) as H.
  cbv zeta in H. unfold releasable.
  destruct (Z.eq_dec (decode (with_exception nullptr (self p)) locked) nullptr) as [N | N].
  - (* the lock denotes nothing: the call cannot return *)
    clear H. revert N. unfold_bridge.
    destruct p as [t r c l h]; cbn [self config history logcat roots].
    intros N. apply is_null_true in N.
    assert (Hdet : is_null (exception t) = true -> with_exception nullptr t = t).
    { intros E. apply Z.eqb_eq in E. destruct t; cbn in *. now subst. }
    destruct (is_null (exception t)) eqn:HE.
    + pose proof N as N'. rewrite Hdet in N' by reflexivity.
      crunch. intros [H _]. nulls. congruence.
    + crunch. intros [H _]. nulls. congruence.
  - destruct (H N) as (_ & _ & Hraise & Hok).
    destruct (Z.eq_dec (monitor_exit_exception (with_exception nullptr (self p))
                          (decode (with_exception nullptr (self p)) locked)) nullptr)
      as [E | E].
    + destruct (Hok E) as (p' & R & S). rewrite R. exact S.
    + specialize (Hraise E).
      destruct (UnlockJniSynchronizedMethod locked p); [discriminate|].
      intros [_ H']. contradiction.
Qed.

Lemma HandleResult_spec result cookie :
  spec (fun t => (check_jni (jni_env t) = true ->
                  no_held_monitors t = true
                  /\ reference_result_ok (popped cookie t) (reference_result result t) = true)
                 /\ object_verifies (reference_result result t) = true)
       (fun t o t' => t' = popped cookie t /\ o = reference_result result t)
       (JniMethodEndWithReferenceHandleResult result cookie).
Proof. unfold reference_result. run_spec. Qed.

Lemma JniMethodStart_spec :
  spec (fun t => kIsDebugBuild = true -> IsFastNative (top_quick_frame t) = false)
       (fun t a t' => a = bit_cast_uint32 (local_ref_cookie (jni_env t))
                      /\ t' = with_state kNative (pushed t))
       JniMethodStart.
Proof. run_spec. Qed.

Lemma JniMethodFastStart_spec :
  spec (fun t => kIsDebugBuild = true -> IsFastNative (top_quick_frame t) = true)
       (fun t a t' => a = bit_cast_uint32 (local_ref_cookie (jni_env t))
                      /\ t' = pushed t)
       JniMethodFastStart.
Proof. run_spec. Qed.

Lemma JniMethodStartSynchronized_spec to_lock :
  spec (fun t => decode t to_lock <> nullptr
                 /\ (kIsDebugBuild = true -> IsFastNative (top_quick_frame t) = false))
       (fun t a t' => a = bit_cast_uint32 (local_ref_cookie (jni_env t))
                      /\ t' = with_state kNative (pushed t))
       (JniMethodStartSynchronized to_lock).
Proof. run_spec. Qed.

Lemma spec_ret {A} (a : A) : spec (fun _ => True) (fun t b t' => t' = t /\ b = a) (ret a).
Proof. intros p. cbn. auto. Qed.

Lemma spec_abort {A} why :
  spec (fun _ => False) (fun _ (_ : A) _ => False) (abort why).
Proof. intros p. cbn. auto. Qed.

(** The code the course adds does not change what the rest guarantees. *)
Lemma spec_tracing {A B} pre post (body : ConfigItem -> M A) (k : M B) :
  (forall cfg, invisible (body cfg)) -> spec pre post k ->
  spec pre post (bind GetConfigItem (fun cfg => bind (body cfg) (fun _ => k))).
Proof.
  intros Hbody Hk p. unfold bind, GetConfigItem.
  destruct (Hbody (config p) p) as (a & p1 & E & S & _). rewrite E.
  specialize (Hk p1). rewrite S. exact Hk.
Qed.

Lemma spec_if {A} (b : bool) pre1 post1 pre2 post2 (m1 m2 : M A) :
  spec pre1 post1 m1 -> spec pre2 post2 m2 ->
  spec (fun t => if b then pre1 t else pre2 t)
       (fun t a t' => if b then post1 t a t' else post2 t a t')
       (if b then m1 else m2).
Proof. now destruct b. Qed.

Lemma DCHECK_spec cond msg :
  spec (fun _ => kIsDebugBuild = true -> cond = true) (fun t _ t' => t' = t)
       (DCHECK cond msg).
Proof.
  intros p. unfold DCHECK, CHECK, when, ret, abort.
  destruct kIsDebugBuild, cond; cbn; auto. intros H. discriminate (H eq_refl).
Qed.

Lemma GetSelf_spec : spec (fun _ => True) (fun t a t' => t' = t /\ a = t) GetSelf.
Proof. intros p. cbn. auto. Qed.

Lemma shorty_cases (c : ascii) :
  In c ["L"; "F"; "D"; "Z"; "B"; "C"; "S"; "I"; "J"; "V"]%char
  \/ (Ascii.eqb c "L" = false /\ Ascii.eqb c "F" = false /\ Ascii.eqb c "D" = false
      /\ Ascii.eqb c "Z" = false /\ Ascii.eqb c "B" = false /\ Ascii.eqb c "C" = false
      /\ Ascii.eqb c "S" = false /\ Ascii.eqb c "I" = false /\ Ascii.eqb c "J" = false
      /\ Ascii.eqb c "V" = false
      /\ ~ In c ["L"; "F"; "D"; "Z"; "B"; "C"; "S"; "I"; "J"; "V"]%char).
Proof.
  destruct (Ascii.eqb_spec c "L") as [-> | ?]; [left; cbn; tauto|].
  destruct (Ascii.eqb_spec c "F") as [-> | ?]; [left; cbn; tauto|].
  destruct (Ascii.eqb_spec c "D") as [-> | ?]; [left; cbn; tauto|].
  destruct (Ascii.eqb_spec c "Z") as [-> | ?]; [left; cbn; tauto|].
  destruct (Ascii.eqb_spec c "B") as [-> | ?]; [left; cbn; tauto|].
  destruct (Ascii.eqb_spec c "C") as [-> | ?]; [left; cbn; tauto|].
  destruct (Ascii.eqb_spec c "S") as [-> | ?]; [left; cbn; tauto|].
  destruct (Ascii.eqb_spec c "I") as [-> | ?]; [left; cbn; tauto|].
  destruct (Ascii.eqb_spec c "J") as [-> | ?]; [left; cbn; tauto|].
  destruct (Ascii.eqb_spec c "V") as [-> | ?]; [left; cbn; tauto|].
  right. repeat split; try reflexivity. cbn [In]. intuition congruence.
Qed.

End Specs.

(** Builds the specification of a sequence from those of its parts. *)
Ltac compose :=
  repeat first
    [ apply GoToRunnable_spec
    | apply GoToRunnableFast_spec
    | apply UnlockJniSynchronizedMethod_spec
    | apply PopLocalReferences_spec
    | apply HandleResult_spec
    | apply MONITOR_JNI_spec
    | apply JniMethodStart_spec
    | apply JniMethodFastStart_spec
    | apply JniMethodStartSynchronized_spec
    | apply DCHECK_spec
    | apply GetSelf_spec
    | match goal with
      | |- spec _ _ (if _ then _ else _) => eapply spec_if
      | |- spec _ _ (bind GetConfigItem _) =>
          apply spec_tracing; [ intros ?; repeat invisible_step | ]
      | |- spec _ _ (ret _) => apply spec_ret
      | |- spec _ _ (abort _) => apply spec_abort
      | |- spec _ _ (bind _ _) => eapply spec_bind; [ | intros ? ]
      end ].

(** Takes apart what a composed specification knows or asks. *)
Ltac unpack :=
  repeat match goal with
         | H : exists _, _ |- _ => destruct H
         | H : _ /\ _ |- _ => destruct H
         | H : True |- _ => clear H
         | |- forall _, _ => intro
         | |- _ /\ _ => split
         | |- True => exact I
         end; subst.

Section SiteSpecs.

Context {rt : Collaborators}.

(** Settles what is left of a composed specification. *)
Ltac settle :=
  cbv [start_pre end_pre start_post end_post frame_matches cooperative locks_resolve
       known_return_type leaves_native pushes pops releasable reference_result
       suspend_checked] in *;
  cbn in *;
  repeat first
    [ progress unpack
    | match goal with
      | H : ?a = ?a -> _ |- _ => specialize (H eq_refl)
      | H : ?a = ?b -> _, H' : ?a = ?b |- _ => specialize (H H')
      | H : False |- _ => destruct H
      | H : true = false |- _ => discriminate H
      | H : false = true |- _ => discriminate H
      | H : context [if ?b then _ else _] |- _ => destruct b eqn:?
      | |- context [if ?b then _ else _] => destruct b eqn:?
      end ];
  thread_fields; conditions;
  first [ reflexivity | assumption | congruence | solve [ eauto ] | tauto
        | apply negb_true_iff; apply Z.eqb_neq; solve [ eauto ]
        | exfalso; solve [ eauto ] ].

Lemma Start_spec_compiled stub reference :
  spec (start_pre (Compiled stub reference)) (start_post (Compiled stub reference))
       (Start (Compiled stub reference)).
Proof.
  destruct stub;
    cbv [Start JniMonitoredMethodStart JniMonitoredMethodStartSynchronized
         PaletteNotifyBeginJniInvocation];
    (eapply spec_weaken; [ compose | | ]); settle.
Qed.

Lemma End_spec_compiled stub reference cookie :
  spec (end_pre (Compiled stub reference))
       (fun t _ t' => end_post (Compiled stub reference) cookie t t')
       (End (Compiled stub reference) cookie).
Proof.
  destruct stub, reference;
    cbv [End void JniMethodEnd JniMethodFastEnd JniMethodEndSynchronized
         JniMethodFastEndWithReference JniMethodEndWithReference
         JniMethodEndWithReferenceSynchronized
         JniMonitoredMethodEnd JniMonitoredMethodEndSynchronized
         JniMonitoredMethodEndWithReference
         JniMonitoredMethodEndWithReferenceSynchronized
         PaletteNotifyEndJniInvocation];
    (eapply spec_weaken; [ compose | | ]); settle.
Qed.

Lemma Start_spec_generic called to_lock result result_f :
  spec (start_pre (Generic called to_lock result result_f))
       (start_post (Generic called to_lock result result_f))
       (Start (Generic called to_lock result result_f)).
Proof.
  cbv [Start generic_start start_pre start_post frame_matches locks_resolve
       pushes leaves_native].
  destruct (IsCriticalNative called) eqn:HC, (IsFastNative called) eqn:HF,
    (IsSynchronized called) eqn:HS; cbn [negb andb];
    (eapply spec_weaken; [ compose | | ]); settle.
Qed.

Lemma End_spec_generic called to_lock result result_f cookie :
  spec (end_pre (Generic called to_lock result result_f))
       (fun t _ t' => end_post (Generic called to_lock result result_f) cookie t t')
       (End (Generic called to_lock result result_f) cookie).
Proof.
  cbv [End GenericJniMethodEnd end_pre end_post frame_matches locks_resolve
       known_return_type pops leaves_native PaletteNotifyEndJniInvocation].
  cbv zeta.
  destruct (shorty_cases (return_shorty called)) as [K | U].
  - cbn [In] in K.
    repeat (destruct K as [K | K]); try contradiction; rewrite <- K;
      (destruct (IsCriticalNative called) eqn:HC, (IsFastNative called) eqn:HF,
         (IsSynchronized called) eqn:HS;
       cbn [Ascii.eqb Bool.eqb andb orb negb when];
       (eapply spec_weaken; [ compose | | ]); settle).
  - destruct U as (U1 & U2 & U3 & U4 & U5 & U6 & U7 & U8 & U9 & U10 & U).
    rewrite U1, U2, U3, U4, U5, U6, U7, U8, U9, U10.
    destruct (IsCriticalNative called) eqn:HC, (IsFastNative called) eqn:HF,
      (IsSynchronized called) eqn:HS;
      cbn [andb orb negb when];
      (eapply spec_weaken;
       [ compose | intros t (_ & _ & _ & K & _); contradiction | ]); settle.
Qed.

End SiteSpecs.

Section RoundTrip.

Context {rt : Collaborators}.

Lemma Start_spec site : spec (start_pre site) (start_post site) (Start site).
Proof.
  destruct site; [apply Start_spec_compiled | apply Start_spec_generic].
Qed.

Lemma End_spec site cookie :
  spec (end_pre site) (fun t _ t' => end_post site cookie t t') (End site cookie).
Proof.
  destruct site; [apply End_spec_compiled | apply End_spec_generic].
Qed.

Lemma pushed_then_popped (t : Thread) :
  jni_env (popped (bit_cast_uint32 (local_ref_cookie (jni_env t))) (pushed t)) = jni_env t.
Proof. destruct t as [st [[c] seg chk] e f m]. reflexivity. Qed.

Lemma pushes_pops site : pushes site = true -> pops site = true.
Proof. destruct site; cbn; [reflexivity | intros ->; reflexivity]. Qed.

Lemma pushes_leaves site : pushes site = false -> leaves_native site = false.
Proof. destruct site; cbn; [discriminate | now destruct (IsCriticalNative called)]. Qed.

Lemma no_push_no_pop site :
  critical_returns_no_reference site -> pushes site = false -> pops site = false.
Proof.
  destruct site; cbn; [discriminate|].
  intros H HC. apply negb_false_iff in HC. rewrite HC. cbn.
  apply Ascii.eqb_neq. now apply H.
Qed.

(** C4.  A thread that is Runnable calls the [Start] of a call site and,
    with the cookie it got, the [End] of the same site at once.  When both
    return, the scope of the thread (saved cookie and segment state), its
    state and its pending exception are what they were before [Start].  Both
    do return when the method on the stack is the one of the call site, the
    locks resolve, the return type is known and the rest of the runtime has
    no objection.  This holds for every pair of entry points of the file and
    every method ended by [GenericJniMethodEnd] that is synchronized only
    if it is normal and that, if it is critical, has no reference result. *)
Theorem Start_End_round_trip (site : CallSite) (p : Process) :
  state (self p) = kRunnable ->
  critical_returns_no_reference site ->
  synchronized_is_normal site ->
  (forall cookie p1 r p2,
      Start site p = Returns cookie p1 ->
      End site cookie p1 = Returns r p2 ->
      jni_env (self p2) = jni_env (self p)
      /\ state (self p2) = state (self p)
      /\ exception (self p2) = exception (self p))
  /\ (frame_matches site (self p) -> cooperative -> locks_resolve site ->
      known_return_type site ->
      exists cookie p1 r p2,
        Start site p = Returns cookie p1 /\ End site cookie p1 = Returns r p2).
Proof.
  intros Hrun Hcrit _.
  assert (Hstart : forall cookie p1, Start site p = Returns cookie p1 ->
            state (self p1) = (if leaves_native site then kNative else kRunnable)
            /\ exception (self p1) = exception (self p)
            /\ top_quick_frame (self p1) = top_quick_frame (self p)
            /\ (if pops site then jni_env (popped cookie (self p1)) else jni_env (self p1))
               = jni_env (self p)).
  { intros cookie p1 E.
    pose proof (spec_post _ _ _ _ _ _ (Start_spec site) E) as S.
    unfold start_post in S. destruct (pushes site) eqn:Hp.
    - destruct S as [-> S]. rewrite (pushes_pops _ Hp).
      destruct (leaves_native site); rewrite S; cbn;
        repeat split; first [ assumption | reflexivity | apply pushed_then_popped ].
    - rewrite (pushes_leaves _ Hp), (no_push_no_pop _ Hcrit Hp), S. auto. }
  split.
  - intros cookie p1 r p2 E1 E2.
    destruct (Hstart _ _ E1) as (S1 & X1 & _ & J1).
    pose proof (spec_post _ _ _ _ _ _ (End_spec site cookie) E2) as (S2 & J2 & X2 & _).
    rewrite J2, J1, S2, X2, X1, Hrun. repeat split.
    destruct (leaves_native site); [reflexivity | rewrite S1; reflexivity].
  - intros Hframe Hcoop Hlocks Hknown.
    destruct (spec_returns _ _ _ p (Start_spec site)) as (cookie & p1 & E1 & _).
    { split; assumption. }
    destruct (Hstart _ _ E1) as (S1 & _ & F1 & _).
    destruct (spec_returns _ _ _ p1 (End_spec site cookie)) as (r & p2 & E2 & _).
    { unfold end_pre.
      split; [ | split; [assumption | split; [assumption | split; [assumption | ]]]].
      - unfold frame_matches in *. rewrite F1. exact Hframe.
      - intros L. rewrite L in S1. exact S1. }
    now exists cookie, p1, r, p2.
Qed.

End RoundTrip.

Lemma Start_End_round_trip_witness :
  let rt := Demo.runtime true true false kArm64 in
  let m := Demo.method false false true "L" in
  let site := Compiled (StubSynchronized 2) (Some 5) in
  let p := Demo.process (Demo.thread m 77 0) (Demo.tracing true) in
  exists cookie p1 r p2,
    Start site p = Returns cookie p1
    /\ End site cookie p1 = Returns r p2
    /\ jni_env (self p2) = Demo.env
    /\ state (self p2) = kRunnable
    /\ exception (self p2) = 77.
Proof.
  intros rt m site p.
  destruct (@Start_End_round_trip rt site p eq_refl I I) as [Restored Returns].
  destruct Returns as (cookie & p1 & r & p2 & E1 & E2).
  - intros _. reflexivity.
  - repeat split.
  - intros t. discriminate.
  - exact I.
  - exists cookie, p1, r, p2.
    destruct (Restored cookie p1 r p2 E1 E2) as (J & S & X).
    repeat split; assumption.
Defined.

(** ** Fast and critical calls *)

Section FastCalls.

Context {rt : Collaborators}.

Lemma bind_assoc {A B C} (m : M A) (k : A -> M B) (h : B -> M C) (p : Process) :
  bind (bind m k) h p = bind m (fun a => bind (k a) h) p.
Proof. unfold bind. now destruct (m p). Qed.

Lemma no_check_count (d : list (Event * Thread)) :
  forallb (fun e => negb (is_suspend_check e)) (events d) = true ->
  count is_suspend_check d = 0%nat.
Proof.
  intros F. unfold count.
  rewrite (filter_rejected is_suspend_check _ _ (fun a H => f_equal negb H) F).
  reflexivity.
Qed.

Lemma fast_exit_then {A} (k : M A) (q : Process) :
  emits_only (fun e => negb (is_suspend_check e)) k ->
  checks_once (bind GoToRunnableFast (fun _ => k) q) q.
Proof.
  intros Hk. unfold checks_once.
  destruct q as [t r c l h]; cbn [self config history logcat roots].
  unfold_bridge. crunch.
  all: try match goal with
           | |- context [final (?f ?q)] =>
               destruct (emits_only_history _ _ Hk q) as (d3 & E3 & F3);
               rewrite E3; clear E3;
               pose proof (no_check_count _ F3) as S3
           end.
  all: cbn [history record set_self self]; rewrite <- ?app_assoc; cbn [app];
    eexists; (split; [first [reflexivity | symmetry; apply app_nil_r]|]).
  all: conditions;
    try change (?x :: ?y) with ([x] ++ y);
    rewrite ?count_app, ?S3; cbn;
    repeat split; intros; first [ lia | congruence | contradiction ].
Qed.

Lemma no_transition_count (d : list (Event * Thread)) :
  forallb (fun e => negb (is_transition e)) (events d) = true ->
  count is_transition d = 0%nat.
Proof.
  intros F. unfold count.
  rewrite (filter_rejected is_transition _ _ (fun a H => f_equal negb H) F).
  reflexivity.
Qed.

Lemma confined_stays {A} (m : M A) (q : Process) :
  confined runnable (fun e => negb (is_transition e)) m ->
  runnable (self q) -> stays_runnable (m q) q.
Proof.
  intros H Hq. destruct (H q Hq) as (d & E & F & S & R).
  exists d. repeat split; auto using no_transition_count.
Qed.

Lemma fast_Start_confined site :
  leaves_native site = false ->
  confined runnable (fun e => negb (is_transition e)) (Start site).
Proof.
  destruct site as [[] ? | called ? ? ?]; cbn [leaves_native]; try discriminate;
    intros H; cbv [Start generic_start].
  - unfold runnable. emits.
  - destruct (IsCriticalNative called), (IsFastNative called); try discriminate H;
      cbv iota; unfold runnable; emits.
Qed.

Lemma fast_End_confined site cookie :
  leaves_native site = false ->
  confined runnable (fun e => negb (is_transition e)) (End site cookie).
Proof.
  destruct site as [[] [] | called ? ? ?]; cbn [leaves_native]; try discriminate;
    intros H; cbv [End GenericJniMethodEnd]; cbv zeta.
  - unfold runnable. emits.
  - unfold runnable. emits.
  - destruct (IsCriticalNative called), (IsFastNative called); try discriminate H;
      cbn [negb andb]; cbv iota; unfold runnable; emits.
Qed.

(** C7, amended.  At a call site of a fast or critical method (not synchronized, as
    synchronized goes with the normal mode only), for a thread that is
    Runnable when [Start] is called and Runnable when the native code is
    done and [End] is called: neither [Start] nor [End] makes a transition,
    every call they make into the runtime is made with the thread Runnable,
    and the thread is Runnable when they are done, also when they abort.
    The [End] of a fast method makes the suspend check at most once: not at
    all when no flag is raised, once when a flag is raised and [End]
    returns.  The [End] of a method that is critical and not fast makes no
    suspend check. *)
Theorem fast_call_stays_runnable (site : CallSite) (cookie : Z) (p q : Process) :
  leaves_native site = false ->
  synchronized_is_normal site ->
  runnable (self p) ->
  runnable (self q) ->
  stays_runnable (Start site p) p
  /\ stays_runnable (End site cookie q) q
  /\ (if runs_fast_exit site
      then checks_once (End site cookie q) q
      else never_checks (End site cookie q) q).
Proof.
  intros Hfast _ Hp Hq.
  split; [ now apply confined_stays; [apply fast_Start_confined|] | ].
  split; [ now apply confined_stays; [apply fast_End_confined|] | ].
  destruct site as [[] [] | called ? ? ?]; cbn [leaves_native] in Hfast;
    try discriminate Hfast; cbn [runs_fast_exit].
  - cbv [End JniMethodFastEndWithReference]. apply fast_exit_then. emits.
  - cbv [End void JniMethodFastEnd]. rewrite bind_assoc.
    apply fast_exit_then. emits.
  - cbv [End GenericJniMethodEnd]; cbv zeta.
    destruct (IsCriticalNative called) eqn:HC, (IsFastNative called) eqn:HF;
      try discriminate Hfast; cbn [negb andb]; cbv iota.
    + apply fast_exit_then. emits.
    + match goal with
      | |- never_checks (?m q) q =>
          assert (H : emits_only (fun e => negb (is_suspend_check e)) m) by emits
      end.
      destruct (emits_only_history _ _ H q) as (d & E & F).
      exists d. split; [exact E | now apply no_check_count].
    + apply fast_exit_then. emits.
Qed.

End FastCalls.

(** The claim as it stands fails for a method that is critical and not
    fast: a suspend flag is raised, the [End] of the call returns, and no
    suspend check has been made; the flag is still raised. *)
Lemma critical_call_makes_no_suspend_check :
  let rt := Demo.runtime true true true kArm64 in
  let m := Demo.method false true false "I" in
  let q := Demo.process (Demo.thread m 0 4) (Demo.tracing false) in
  let run := GenericJniMethodEnd 0 5 0 m q in
  IsCriticalNative m = true
  /\ state (self q) = kRunnable
  /\ flags (self q) <> 0
  /\ history q = []
  /\ returned run = Some 5
  /\ count is_suspend_check (history (final run)) = 0%nat
  /\ flags (self (final run)) <> 0.
Proof. vm_compute. repeat split; discriminate. Qed.

Lemma fast_call_stays_runnable_witness :
  let rt := Demo.runtime true true true kArm64 in
  let fast := Demo.method true false false "V" in
  let critical := Demo.method false true false "I" in
  let stub := Compiled StubFast None in
  let generic := Generic critical 0 5 0 in
  let p := Demo.process (Demo.thread fast 0 0) (Demo.tracing false) in
  let q := Demo.process (pushed (Demo.thread fast 0 4)) (Demo.tracing false) in
  let r := Demo.process (Demo.thread critical 0 4) (Demo.tracing false) in
  (stays_runnable (Start stub p) p
   /\ stays_runnable (End stub 3 q) q
   /\ checks_once (End stub 3 q) q)
  /\ (stays_runnable (Start generic r) r
      /\ stays_runnable (End generic 0 r) r
      /\ never_checks (End generic 0 r) r).
Proof.
  intros rt fast critical stub generic p q r. split.
  - exact (@fast_call_stays_runnable rt stub 3 p q eq_refl I eq_refl eq_refl).
  - apply (@fast_call_stays_runnable rt generic 0 r r eq_refl); [|reflexivity|reflexivity].
    cbn. discriminate.
Defined.

(** ** The scope of a call through the generic bridge *)

Section GenericScope.

Context {rt : Collaborators}.




End GenericScope.


(** * Further properties of the bridge *)

(** ** What an End does to the thread *)

Section EndEffect.

Context {rt : Collaborators}.

(** X1.  An [End] that returns leaves the pending exception and the method on
    top of the stack as they were.  The thread is Runnable afterwards exactly
    at the call sites that left Runnable; at the others its state is
    untouched.  Where the scope is popped, the saved cookie becomes the
    segment state and the cookie passed in becomes the saved cookie, whatever
    its value: the cookie is not validated. *)
Theorem End_effect (site : CallSite) (cookie r : Z) (p p' : Process) :
  End site cookie p = Returns r p' ->
  exception (self p') = exception (self p)
  /\ top_quick_frame (self p') = top_quick_frame (self p)
  /\ state (self p') = (if leaves_native site then kRunnable else state (self p))
  /\ jni_env (self p')
     = if pops site
       then {| local_ref_cookie := bit_cast_IRTSegmentState cookie;
               locals_segment_state := local_ref_cookie (jni_env (self p));
               check_jni := check_jni (jni_env (self p)) |}
       else jni_env (self p).
Proof.
  intros E.
  pose proof (spec_post _ _ _ _ _ _ (End_spec site cookie) E) as (S & J & X & F).
  repeat split; assumption.
Qed.

Lemma scope_closed (site : CallSite) (cookie r : Z) (p p1 q q' : Process) :
  pushes site = true ->
  Start site p = Returns cookie p1 ->
  scope_kept (self p1) (self q) ->
  End site cookie q = Returns r q' ->
  jni_env (self q') = jni_env (self p).
Proof.
  intros Hpush E1 [Kc Kj] E2.
  pose proof (spec_post _ _ _ _ _ _ (Start_spec site) E1) as S.
  unfold start_post in S. rewrite Hpush in S. destruct S as [-> S].
  pose proof (spec_post _ _ _ _ _ _ (End_spec site _) E2) as (_ & J & _).
  rewrite (pushes_pops _ Hpush) in J. rewrite J.
  cbv [popped with_jni_env with_local_ref_cookie with_locals_segment_state].
  cbn [jni_env local_ref_cookie locals_segment_state check_jni].
  rewrite Kc, Kj.
  destruct (leaves_native site); rewrite S;
    destruct (self p) as [st [[c] seg chk] e f m]; reflexivity.
Qed.

(** X2.  The scope a call opened is closed again whatever the native code
    did in between.  After a [Start] that pushes, let the native code leave
    any process whose saved cookie and CheckJNI switch are those [Start]
    left: references may have been created, exceptions raised, the state
    changed.  The [End] with the cookie of [Start] then restores the saved
    cookie and the segment state of before [Start]. *)
Theorem scope_closed_after_native_code (site : CallSite) (cookie r : Z)
    (p p1 q q' : Process) :
  pushes site = true ->
  Start site p = Returns cookie p1 ->
  scope_kept (self p1) (self q) ->
  End site cookie q = Returns r q' ->
  jni_env (self q') = jni_env (self p).
Proof. exact (scope_closed site cookie r p p1 q q'). Qed.

(** X3.  Nested calls close their scopes in the reverse order of opening.  A
    call opens a scope, its native code calls back and a second call opens
    and closes another; whatever the native code of both did (keeping the
    saved cookie they were given), the inner [End] restores the scope the
    outer native code had when the inner call began, and the outer [End]
    then restores the scope of before the outer [Start]. *)
Theorem nested_scopes_close_in_order (outer inner : CallSite)
    (c1 c2 r1 r2 : Z) (p p1 q1 p2 q2 q2' q3 q3' : Process) :
  pushes outer = true -> pushes inner = true ->
  Start outer p = Returns c1 p1 ->
  scope_kept (self p1) (self q1) ->
  Start inner q1 = Returns c2 p2 ->
  scope_kept (self p2) (self q2) ->
  End inner c2 q2 = Returns r2 q2' ->
  scope_kept (self q2') (self q3) ->
  End outer c1 q3 = Returns r1 q3' ->
  jni_env (self q2') = jni_env (self q1)
  /\ jni_env (self q3') = jni_env (self p).
Proof.
  intros Ho Hi S1 K1 S2 K2 E2 K3 E1.
  assert (Inner : jni_env (self q2') = jni_env (self q1))
    by exact (scope_closed inner c2 r2 q1 p2 q2 q2' Hi S2 K2 E2).
  split; [exact Inner|].
  apply (scope_closed outer c1 r1 p p1 q3 q3' Ho S1); [|exact E1].
  destruct K1 as [Kc Kj], K3 as [Kc' Kj']. unfold scope_kept.
  rewrite Kc', Kj', Inner. split; assumption.
Qed.

End EndEffect.

Lemma End_effect_witness :
  let rt := Demo.runtime true true true kArm64 in
  let m := Demo.method false false false "V" in
  let p := Demo.process (with_exception 77 (with_state kNative (Demo.thread m 0 0)))
                        (Demo.tracing false) in
  exists p',
    End (Compiled StubNormal None) 9 p = Returns 0 p'
    /\ exception (self p') = 77
    /\ state (self p') = kRunnable
    /\ jni_env (self p')
       = {| local_ref_cookie := {| top_index := 9 |};
            locals_segment_state := {| top_index := 3 |};
            check_jni := true |}.
Proof.
  intros rt m p. eexists. split; [vm_compute; reflexivity|].
  destruct (@End_effect rt (Compiled StubNormal None) 9 0 p _ eq_refl) as (X & _ & S & J).
  split; [exact X | split; [exact S | exact J]].
Defined.

Lemma scope_closed_after_native_code_witness :
  let rt := Demo.runtime true true true kArm64 in
  let m := Demo.method false false false "V" in
  let site := Compiled StubNormal None in
  let p := Demo.process (Demo.thread m 0 0) (Demo.tracing false) in
  let native t :=
    with_exception 77
      (with_jni_env (with_locals_segment_state {| top_index := 42 |} (jni_env t)) t) in
  let p1 := final (Start site p) in
  let q' := final (End site 3 (set_self native p1)) in
  Start site p = Returns 3 p1
  /\ End site 3 (set_self native p1) = Returns 0 q'
  /\ jni_env (self q') = Demo.env.
Proof.
  intros rt m site p native p1 q'.
  assert (S : Start site p = Returns 3 p1) by (vm_compute; reflexivity).
  assert (E : End site 3 (set_self native p1) = Returns 0 q') by (vm_compute; reflexivity).
  split; [exact S|]. split; [exact E|].
  apply (@scope_closed_after_native_code rt site 3 0 p p1 (set_self native p1) q');
    [reflexivity | exact S | split; vm_compute; reflexivity | exact E].
Defined.

Lemma nested_scopes_close_in_order_witness :
  let rt := Demo.runtime true true true kArm64 in
  let m := Demo.method false false false "V" in
  let outer := Compiled StubNormal None in
  let inner := Generic m 0 0 0 in
  let p := Demo.process (Demo.thread m 0 0) (Demo.tracing false) in
  let native s n t :=
    with_state s
      (with_jni_env (with_locals_segment_state {| top_index := n |} (jni_env t)) t) in
  let p1 := final (Start outer p) in
  let q1 := set_self (native kRunnable 11) p1 in
  let p2 := final (Start inner q1) in
  let q2 := set_self (native kNative 15) p2 in
  let q2' := final (End inner 7 q2) in
  let q3 := set_self (native kNative 19) q2' in
  let q3' := final (End outer 3 q3) in
  Start outer p = Returns 3 p1
  /\ Start inner q1 = Returns 7 p2
  /\ End inner 7 q2 = Returns 0 q2'
  /\ End outer 3 q3 = Returns 0 q3'
  /\ locals_segment_state (jni_env (self q2')) = {| top_index := 11 |}
  /\ jni_env (self q3') = Demo.env.
Proof.
  intros rt m outer inner p native p1 q1 p2 q2 q2' q3 q3'.
  assert (S1 : Start outer p = Returns 3 p1) by (vm_compute; reflexivity).
  assert (S2 : Start inner q1 = Returns 7 p2) by (vm_compute; reflexivity).
  assert (E2 : End inner 7 q2 = Returns 0 q2') by (vm_compute; reflexivity).
  assert (E1 : End outer 3 q3 = Returns 0 q3') by (vm_compute; reflexivity).
  assert (K1 : scope_kept (self p1) (self q1)) by (split; vm_compute; reflexivity).
  assert (K2 : scope_kept (self p2) (self q2)) by (split; vm_compute; reflexivity).
  assert (K3 : scope_kept (self q2') (self q3)) by (split; vm_compute; reflexivity).
  destruct (@nested_scopes_close_in_order rt outer inner 3 7 0 0 p p1 q1 p2 q2 q2' q3 q3'
              eq_refl eq_refl S1 K1 S2 K2 E2 K3 E1)
    as [Inner Outer].
  repeat (split; [assumption|]).
  split; [rewrite Inner; vm_compute; reflexivity | exact Outer].
Defined.

(** ** Primitive results of the generic bridge *)

Lemma signed_bits_range (w x : Z) :
  0 < w -> - 2 ^ (w - 1) <= signed_bits w x < 2 ^ (w - 1).
Proof.
  intros Hw. unfold signed_bits, unsigned_bits. cbv zeta.
  assert (H2 : 2 ^ w = 2 * 2 ^ (w - 1)).
  { replace w with (Z.succ (w - 1)) at 1 by lia. apply Z.pow_succ_r. lia. }
  assert (Hp : 0 < 2 ^ (w - 1)) by (apply Z.pow_pos_nonneg; lia).
  pose proof (Z.mod_pos_bound x (2 ^ w) ltac:(lia)) as B.
  destruct (Z.ltb_spec (x mod 2 ^ w) (2 ^ (w - 1))); lia.
Qed.

Lemma widened_signed (s : Z) :
  - 2 ^ 63 <= s < 2 ^ 63 -> signed_bits 64 (to_uint64 s) = s.
Proof.
  intros Hs. unfold signed_bits, unsigned_bits, to_uint64. cbv zeta.
  rewrite Z.mod_mod by (cbv; discriminate).
  change (64 - 1) with 63.
  change (2 ^ 63) with 9223372036854775808 in *.
  change (2 ^ 64) with 18446744073709551616 in *.
  destruct (Z.ltb_spec (s mod 18446744073709551616) 9223372036854775808);
    Z.to_euclidean_division_equations; lia.
Qed.

Lemma sign_extended (w x : Z) :
  0 < w <= 64 -> signed_bits 64 (to_uint64 (signed_bits w x)) = signed_bits w x.
Proof.
  intros Hw. apply widened_signed.
  pose proof (signed_bits_range w x ltac:(lia)) as R.
  assert (2 ^ (w - 1) <= 2 ^ 63) by (apply Z.pow_le_mono_r; lia).
  lia.
Qed.

Lemma zero_extended (w x : Z) :
  0 <= w <= 64 -> to_uint64 (unsigned_bits w x) = x mod 2 ^ w.
Proof.
  intros Hw. unfold to_uint64, unsigned_bits. apply Z.mod_small.
  pose proof (Z.mod_pos_bound x (2 ^ w) ltac:(apply Z.pow_pos_nonneg; lia)).
  assert (2 ^ w <= 2 ^ 64) by (apply Z.pow_le_mono_r; lia).
  lia.
Qed.

Lemma to_uint64_range (x : Z) : 0 <= to_uint64 x < 2 ^ 64.
Proof. apply Z.mod_pos_bound. reflexivity. Qed.

Ltac decide_tags :=
  repeat match goal with
         | |- context [Ascii.eqb ?a ?b] =>
             let v := eval vm_compute in (Ascii.eqb a b) in
             change (Ascii.eqb a b) with v
         end; cbv iota.

Section PrimitiveResult.

Context {rt : Collaborators}.

(** The value [GenericJniMethodEnd] returns for a return type other than a
    reference, read off the last part of the function. *)
Lemma GenericJniMethodEnd_value (cookie : Z) (result : jvalue) (result_f : Z)
    (called : ArtMethod) (p : Process) (v : Z) (p' : Process) (c : ascii) (x : Z) :
  return_shorty called = c ->
  Ascii.eqb c "L" = false -> Ascii.eqb c "F" = false ->
  (if Ascii.eqb c "D" then Some (to_uint64 result_f)
   else if Ascii.eqb c "Z" then Some (to_uint64 (jvalue_z result))
   else if Ascii.eqb c "B" then Some (to_uint64 (jvalue_b result))
   else if Ascii.eqb c "C" then Some (to_uint64 (jvalue_c result))
   else if Ascii.eqb c "S" then Some (to_uint64 (jvalue_s result))
   else if Ascii.eqb c "I" then Some (to_uint64 (jvalue_i result))
   else if Ascii.eqb c "J" then Some (to_uint64 (jvalue_j result))
   else if Ascii.eqb c "V" then Some 0
   else None) = Some x ->
  GenericJniMethodEnd cookie result result_f called p = Returns v p' ->
  v = x.
Proof.
  intros Hc HL HF Hx. unfold GenericJniMethodEnd. cbv zeta. rewrite Hc, HL, HF.
  match goal with
  | |- context [bind ?m1 (fun _ => bind ?m2 (fun _ => bind ?m3 _))] =>
      generalize m1 as phase1; generalize m2 as phase2; generalize m3 as pop
  end.
  intros pop phase2 phase1. unfold bind, ret.
  destruct (phase1 p) as [? p1|]; [|discriminate].
  destruct (phase2 p1) as [? p2|]; [|discriminate].
  destruct (pop p2) as [? p3|]; [|discriminate].
  repeat match type of Hx with
         | (if ?b then _ else _) = _ => destruct b
         end;
    try discriminate Hx; injection Hx as <-; intros E; now inversion E.
Qed.

Lemma GenericJniMethodEnd_range (cookie : Z) (result : jvalue) (result_f : Z)
    (called : ArtMethod) (p : Process) (v : Z) (p' : Process) :
  GenericJniMethodEnd cookie result result_f called p = Returns v p' ->
  0 <= v < 2 ^ 64.
Proof.
  unfold GenericJniMethodEnd. cbv zeta.
  match goal with
  | |- context [bind ?m1 (fun _ => bind ?m2 (fun _ => if _ then bind ?m3 _ else bind ?m4 _))] =>
      generalize m1 as phase1; generalize m2 as phase2;
      generalize m3 as handle; generalize m4 as pop
  end.
  intros pop handle phase2 phase1. unfold bind, ret.
  destruct (phase1 p) as [? p1|]; [|discriminate].
  destruct (phase2 p1) as [? p2|]; [|discriminate].
  destruct (Ascii.eqb (return_shorty called) "L").
  - destruct (handle p2) as [o p3|]; [|discriminate].
    intros E; inversion E. apply to_uint64_range.
  - destruct (pop p2) as [? p3|]; [|discriminate].
    repeat match goal with
           | |- context [if ?b then _ else _] => destruct b
           end;
      intros E; inversion E; first [apply to_uint64_range | split; [reflexivity | reflexivity]].
Qed.

(** X4.  The primitive results of the generic bridge.  A call of
    [GenericJniMethodEnd] that returns, returns a number below [2^64].  For
    the return types ['Z'] and ['C'] it is the low 8 and 16 bits of the
    [jvalue], zero-extended; for ['B'], ['S'] and ['I'] the low 8, 16 and 32
    bits, sign-extended to 64 bits; for ['J'] the [jvalue] itself; for ['D']
    the floating-point payload; for ['V'] zero.  The bytes of the [jvalue]
    above the width of the return type do not reach the result. *)
Theorem GenericJniMethodEnd_primitive_result (cookie : Z) (result : jvalue) (result_f : Z)
    (called : ArtMethod) (p : Process) (v : Z) (p' : Process) :
  GenericJniMethodEnd cookie result result_f called p = Returns v p' ->
  let tag := return_shorty called in
  0 <= v < 2 ^ 64
  /\ (tag = "Z"%char -> v = result mod 2 ^ 8)
  /\ (tag = "C"%char -> v = result mod 2 ^ 16)
  /\ (tag = "B"%char -> signed_bits 64 v = signed_bits 8 result)
  /\ (tag = "S"%char -> signed_bits 64 v = signed_bits 16 result)
  /\ (tag = "I"%char -> signed_bits 64 v = signed_bits 32 result)
  /\ (tag = "J"%char -> v = result mod 2 ^ 64)
  /\ (tag = "D"%char -> v = result_f mod 2 ^ 64)
  /\ (tag = "V"%char -> v = 0).
Proof.
  intros E tag. subst tag.
  split; [exact (GenericJniMethodEnd_range _ _ _ _ _ _ _ E)|].
  repeat split; intros T;
    rewrite (GenericJniMethodEnd_value _ _ _ _ _ _ _ _ _ T eq_refl eq_refl eq_refl E).
  - apply zero_extended. lia.
  - apply zero_extended. lia.
  - apply sign_extended. lia.
  - apply sign_extended. lia.
  - apply sign_extended. lia.
  - unfold to_uint64, jvalue_j, signed_bits, unsigned_bits. cbv zeta.
    change (64 - 1) with 63 in *.
    change (2 ^ 63) with 9223372036854775808 in *.
    change (2 ^ 64) with 18446744073709551616 in *.
    destruct (Z.ltb_spec (result mod 18446744073709551616) 9223372036854775808);
      Z.to_euclidean_division_equations; lia.
  - reflexivity.
  - reflexivity.
Qed.

End PrimitiveResult.

Lemma GenericJniMethodEnd_primitive_result_witness :
  let rt := Demo.runtime true true true kArm64 in
  let m := Demo.method false true false "B" in
  let p := Demo.process (Demo.thread m 0 0) (Demo.tracing false) in
  GenericJniMethodEnd 0 511 0 m p = Returns (2 ^ 64 - 1) p
  /\ signed_bits 64 (2 ^ 64 - 1) = -1.
Proof.
  intros rt m p.
  assert (E : GenericJniMethodEnd 0 511 0 m p = Returns (2 ^ 64 - 1) p)
    by (vm_compute; reflexivity).
  split; [exact E|].
  destruct (@GenericJniMethodEnd_primitive_result rt 0 511 0 m p _ _ E)
    as (_ & _ & _ & B & _).
  rewrite (B eq_refl). vm_compute. reflexivity.
Defined.

(** ** A return type the bridge does not know *)

Section UnknownReturnType.

Context {rt : Collaborators}.

Lemma unknown_tag (c x : ascii) (l : list ascii) :
  ~ In c l -> In x l -> Ascii.eqb c x = false.
Proof.
  intros Hc Hx. apply Ascii.eqb_neq. intros ->. exact (Hc Hx).
Qed.

(** X5.  A return type other than the ten the bridge knows is fatal, and is
    found out last.  When the first character of the shorty of the called
    method is none of [L F D Z B C S I J V] (the terminating zero of an empty
    shorty included), [GenericJniMethodEnd] never returns.  For a critical
    method that is neither fast nor synchronized the fatal error is all that
    happens.  For a normal method that is not synchronized the thread has
    been made Runnable and the scope has been popped by then, provided the
    debug check of the method on the stack and the CheckJNI check of held
    monitors let the call get that far. *)
Theorem GenericJniMethodEnd_unknown_return_type (cookie : Z) (result : jvalue)
    (result_f : Z) (called : ArtMethod) (p : Process) :
  let run := GenericJniMethodEnd cookie result result_f called p in
  let tag := return_shorty called in
  let fatal := LogFatal ("Unexpected return shorty character " ++ String tag "") in
  ~ In tag ["L"; "F"; "D"; "Z"; "B"; "C"; "S"; "I"; "J"; "V"]%char ->
  returned run = None
  /\ (IsCriticalNative called = true -> IsFastNative called = false ->
      IsSynchronized called = false ->
      run = Aborts fatal p)
  /\ (IsCriticalNative called = false -> IsFastNative called = false ->
      IsSynchronized called = false ->
      (kIsDebugBuild = true -> IsFastNative (top_quick_frame (self p)) = false) ->
      (check_jni (jni_env (self p)) = true -> no_held_monitors (with_state kRunnable (self p)) = true) ->
      exists p',
        run = Aborts fatal p'
        /\ self p' = popped cookie (with_state kRunnable (self p))).
Proof.
  intros run tag fatal Hun. subst run fatal.
  assert (T : forall x, In x ["L"; "F"; "D"; "Z"; "B"; "C"; "S"; "I"; "J"; "V"]%char ->
                        Ascii.eqb tag x = false)
    by (intros x; apply unknown_tag; exact Hun).
  assert (HL := T "L"%char ltac:(cbn; tauto)).
  assert (HF := T "F"%char ltac:(cbn; tauto)).
  assert (HD := T "D"%char ltac:(cbn; tauto)).
  assert (HZ := T "Z"%char ltac:(cbn; tauto)).
  assert (HB := T "B"%char ltac:(cbn; tauto)).
  assert (HC := T "C"%char ltac:(cbn; tauto)).
  assert (HS := T "S"%char ltac:(cbn; tauto)).
  assert (HI := T "I"%char ltac:(cbn; tauto)).
  assert (HJ := T "J"%char ltac:(cbn; tauto)).
  assert (HV := T "V"%char ltac:(cbn; tauto)).
  clear T. unfold GenericJniMethodEnd. cbv zeta. fold tag.
  rewrite HL, HF, HD, HZ, HB, HC, HS, HI, HJ, HV.
  split; [|split].
  - match goal with
    | |- context [bind ?m1 (fun _ => bind ?m2 (fun _ => bind ?m3 _))] =>
        generalize m1 as phase1; generalize m2 as phase2; generalize m3 as pop
    end.
    intros pop phase2 phase1. unfold bind, abort, returned.
    destruct (phase1 p) as [? p1|]; [|reflexivity].
    destruct (phase2 p1) as [? p2|]; [|reflexivity].
    destruct (pop p2) as [? p3|]; reflexivity.
  - intros -> -> ->. reflexivity.
  - intros -> -> -> Hframe Hheld.
    destruct p as [t r c l h]. cbn [self] in *.
    assert (Hdebug : kIsDebugBuild = false \/ IsFastNative (top_quick_frame t) = false)
      by (destruct kIsDebugBuild; auto).
    assert (Hcheck : check_jni (jni_env t) = false
                     \/ no_held_monitors (with_state kRunnable t) = true)
      by (destruct (check_jni (jni_env t)); auto).
    clear Hframe Hheld.
    destruct Hdebug as [Hd | Hd], Hcheck as [Hc | Hc];
      unfold_bridge; crunch; eexists; split; reflexivity.
Qed.

End UnknownReturnType.

Lemma GenericJniMethodEnd_unknown_return_type_witness :
  let rt := Demo.runtime true true true kArm64 in
  let m := Demo.method false false false "" in
  let p := Demo.process (with_state kNative (Demo.thread m 0 0)) (Demo.tracing false) in
  exists p',
    GenericJniMethodEnd 9 0 0 m p
    = Aborts (LogFatal ("Unexpected return shorty character " ++ String zero "")) p'
    /\ state (self p') = kRunnable
    /\ local_ref_cookie (jni_env (self p')) = {| top_index := 9 |}.
Proof.
  intros rt m p.
  destruct (@GenericJniMethodEnd_unknown_return_type rt 9 0 0 m p) as (_ & _ & H).
  - cbn. intros H. repeat destruct H as [H | H]; try discriminate H. exact H.
  - destruct H as (p' & E & S); try reflexivity.
    exists p'. split; [exact E|]. rewrite S. split; reflexivity.
Defined.

(** ** A stub of the wrong mode *)

Section WrongMode.

Context {rt : Collaborators}.

(** X6.  The debug build finds out a stub that does not fit the method on
    the stack, a normal stub called for a fast native method or the fast stub
    for a method that is not fast native, by a failed check that names the
    method.  At an [End] the check is the first thing to touch the thread,
    which is left as it was.  At a [Start] the check comes late: the saved
    cookie has been overwritten by then (and the monitor of a synchronized
    call entered), only the transition to Native has not been made. *)
Theorem wrong_stub_fails_in_debug_build (stub : Stub) (reference_result : option jobject)
    (cookie : Z) (p : Process) :
  let site := Compiled stub reference_result in
  let m := top_quick_frame (self p) in
  kIsDebugBuild = true ->
  IsFastNative m = (match stub with StubFast => false | _ => true end) ->
  (locks_resolve site ->
   exists p', Start site p = Aborts (CheckFailed (PrettyMethod m)) p'
              /\ self p' = pushed (self p))
  /\ (exists p', End site cookie p = Aborts (CheckFailed (PrettyMethod m)) p'
                 /\ self p' = self p).
Proof.
  intros site m Hd Hm. subst site m. destruct p as [t r c l h]. cbn [self] in *.
  split.
  - intros Hl.
    destruct stub, reference_result; cbn in Hl, Hm; cbv [Start]; unfold_bridge;
      rewrite ?Hd, ?Hm; crunch;
      first [ eexists; split; reflexivity
            | exfalso; conditions; eapply Hl; eassumption ].
  - destruct stub, reference_result; cbn in Hm; cbv [End void]; unfold_bridge;
      rewrite ?Hd, ?Hm; crunch; eexists; split; reflexivity.
Qed.

(** X7.  The release build does not look at the mode of the method.  With
    locks that resolve, the [Start] of every stub returns on every thread,
    with the cookie that was saved, and leaves the scope pushed; all stubs
    but the fast one leave the thread in Native, also when the method on the
    stack is fast native. *)
Theorem every_Start_returns_in_release_build (stub : Stub)
    (reference_result : option jobject) (p : Process) :
  let site := Compiled stub reference_result in
  kIsDebugBuild = false ->
  locks_resolve site ->
  exists p',
    Start site p = Returns (bit_cast_uint32 (local_ref_cookie (jni_env (self p)))) p'
    /\ self p' = (match stub with
                  | StubFast => pushed (self p)
                  | _ => with_state kNative (pushed (self p))
                  end).
Proof.
  intros site Hd Hl.
  destruct (spec_returns _ _ _ p (Start_spec site)) as (c & p' & E & Hc & S).
  - split; [|exact Hl]. intros Hd'. rewrite Hd in Hd'. discriminate Hd'.
  - exists p'. rewrite E, Hc. split; [reflexivity|]. rewrite S. now destruct stub.
Qed.

End WrongMode.

Lemma every_Start_returns_in_release_build_witness :
  let rt := Demo.runtime false true true kArm64 in
  let m := Demo.method true false false "V" in
  let p := Demo.process (Demo.thread m 0 0) (Demo.tracing false) in
  exists p', Start (Compiled StubNormal None) p = Returns 3 p'
             /\ state (self p') = kNative.
Proof.
  intros rt m p.
  destruct (@every_Start_returns_in_release_build rt StubNormal None p eq_refl I)
    as (p' & E & S).
  exists p'. split; [exact E | rewrite S; reflexivity].
Defined.

Lemma wrong_stub_fails_in_debug_build_witness :
  let rt := Demo.runtime true true true kArm64 in
  let m := Demo.method true false false "V" in
  let p := Demo.process (with_state kNative (Demo.thread m 0 0)) (Demo.tracing false) in
  (exists p', Start (Compiled StubNormal None) p = Aborts (CheckFailed "void Demo.nativeCall()") p'
              /\ state (self p') = kNative
              /\ local_ref_cookie (jni_env (self p')) = {| top_index := 7 |})
  /\ (exists p', End (Compiled StubNormal None) 3 p
                 = Aborts (CheckFailed "void Demo.nativeCall()") p'
                 /\ self p' = self p).
Proof.
  intros rt m p.
  destruct (@wrong_stub_fails_in_debug_build rt StubNormal None 3 p eq_refl eq_refl)
    as [S E].
  split.
  - destruct (S I) as (p' & R & T). exists p'. split; [exact R|].
    rewrite T. split; reflexivity.
  - exact E.
Defined.

(** ** Runs that keep a relation *)

Section Keeps.

Variable R : Process -> Process -> Prop.
Hypothesis R_refl : forall p, R p p.
Hypothesis R_trans : forall p q r, R p q -> R q r -> R p r.

Lemma keeps_ret {A} (a : A) : keeps R (ret a).
Proof. intros p. apply R_refl. Qed.

Lemma keeps_abort {A} why : keeps R (@abort A why).
Proof. intros p. apply R_refl. Qed.

Lemma keeps_bind {A B} (m : M A) (k : A -> M B) :
  keeps R m -> (forall a, keeps R (k a)) -> keeps R (bind m k).
Proof.
  intros Hm Hk p. specialize (Hm p). unfold bind.
  destruct (m p) as [a q | why q]; cbn in *; [|exact Hm].
  exact (R_trans _ _ _ Hm (Hk a q)).
Qed.

Lemma keeps_when b (m : M unit) : keeps R m -> keeps R (when b m).
Proof. intros H. destruct b; [exact H | apply keeps_ret]. Qed.

Lemma keeps_if {A} (b : bool) (m1 m2 : M A) :
  keeps R m1 -> keeps R m2 -> keeps R (if b then m1 else m2).
Proof. now destruct b. Qed.

End Keeps.

Ltac open_bridge :=
  cbv [ReadBarrierJni JniMethodFastStart JniMethodStart JniMethodStartSynchronized
       GoToRunnable GoToRunnableFast PopLocalReferences UnlockJniSynchronizedMethod
       JniMethodEnd JniMethodFastEnd JniMethodEndSynchronized
       JniMethodEndWithReferenceHandleResult JniMethodFastEndWithReference
       JniMethodEndWithReference JniMethodEndWithReferenceSynchronized
       GenericJniMethodEnd JniMonitoredMethodStart JniMonitoredMethodStartSynchronized
       JniMonitoredMethodEnd JniMonitoredMethodEndSynchronized
       JniMonitoredMethodEndWithReference JniMonitoredMethodEndWithReferenceSynchronized
       MONITOR_JNI PaletteShouldReportJniInvocations
       PaletteNotifyBeginJniInvocation PaletteNotifyEndJniInvocation
       CHECK DCHECK GetLocalRefCookie GetLocalsSegmentState SetLocalRefCookie
       SetLocalSegmentState IsCheckJniEnabled CheckNoHeldMonitors GetTopQuickFrame
       TransitionFromRunnableToSuspended TransitionFromSuspendedToRunnable TestAllFlags
       CheckSuspend IsSharedHeld IsExceptionPending GetException ClearException
       SetException DecodeJObject deref MonitorEnter MonitorExit CheckReferenceResult
       VerifyObject BarrierForRoot generic_start Start End void].

(** Decomposes a computation down to the operations on the process;
    [special] takes the parts that are kept as a whole, [refl] and [trans]
    prove the relation reflexive and transitive and [operation] proves that
    one step of an operation keeps it. *)
Ltac keeps_step special refl trans operation :=
  first
    [ match goal with
      | |- keeps _ (match ?x with _ => _ end) => destruct x
      end
    | special
    | apply keeps_ret; exact refl
    | apply keeps_abort; exact refl
    | apply keeps_bind; [ exact trans | | intros ? ]
    | apply keeps_when; [ exact refl | ]
    | apply keeps_if
    | solve [ intros [? ? ? ? ?]; cbn; operation ] ].

Ltac keeps_all special refl trans operation :=
  open_bridge; repeat keeps_step special refl trans operation.

(** *** The tracing configuration and the log *)

Lemma tracing_kept_refl p : tracing_kept p p.
Proof. repeat split. exists []. symmetry. apply app_nil_r. Qed.

Lemma tracing_kept_trans p q r : tracing_kept p q -> tracing_kept q r -> tracing_kept p r.
Proof.
  intros (S1 & N1 & l1 & L1) (S2 & N2 & l2 & L2).
  split; [congruence|]. split; [congruence|].
  exists (l1 ++ l2). rewrite L2, L1. symmetry. apply app_assoc.
Qed.

Lemma silent_when_off_refl p : silent_when_off p p.
Proof. intros _. split; reflexivity. Qed.

Lemma silent_when_off_trans p q r :
  silent_when_off p q -> silent_when_off q r -> silent_when_off p r.
Proof.
  intros H1 H2 Hoff. destruct (H1 Hoff) as [C1 L1].
  destruct H2 as [C2 L2]; [rewrite C1; exact Hoff|].
  split; congruence.
Qed.

(** The code the course adds is guarded by the switch. *)
Lemma silent_when_off_tracing {B} (body : ConfigItem -> M unit) (k : M B) :
  keeps silent_when_off k ->
  keeps silent_when_off
    (bind GetConfigItem
       (fun cfg => bind (when (isJNIMethodPrint cfg) (body cfg)) (fun _ => k))).
Proof.
  intros Hk p Hoff. unfold bind, GetConfigItem. rewrite Hoff.
  exact (Hk p Hoff).
Qed.

Ltac tracing_kept_operation :=
  repeat split; exists []; symmetry; apply app_nil_r.

Section TracingFrame.

Context {rt : Collaborators}.

Lemma Start_tracing_kept site : keeps tracing_kept (Start site).
Proof.
  destruct site as [[] ref | called to_lock result result_f];
    keeps_all fail tracing_kept_refl tracing_kept_trans
      ltac:(first [ tracing_kept_operation | repeat split; eexists; reflexivity ]).
Qed.

Lemma End_tracing_kept site cookie : keeps tracing_kept (End site cookie).
Proof.
  destruct site as [[] [ref|] | called to_lock result result_f];
    keeps_all fail tracing_kept_refl tracing_kept_trans
      ltac:(first [ tracing_kept_operation | repeat split; eexists; reflexivity ]).
Qed.

Lemma Start_silent_when_off site : keeps silent_when_off (Start site).
Proof.
  destruct site as [[] ref | called to_lock result result_f];
    keeps_all ltac:(apply silent_when_off_tracing)
      silent_when_off_refl silent_when_off_trans ltac:(intros _; split; reflexivity).
Qed.

Lemma End_silent_when_off site cookie : keeps silent_when_off (End site cookie).
Proof.
  destruct site as [[] [ref|] | called to_lock result result_f];
    keeps_all ltac:(apply silent_when_off_tracing)
      silent_when_off_refl silent_when_off_trans ltac:(intros _; split; reflexivity).
Qed.

(** X8.  What the calls of a call site do to the tracing configuration and
    the log.  Whether they return or not, [Start] and [End] leave the switch
    [isJNIMethodPrint] and the name [jniFuncName] as they were and only add
    lines to the end of the log; and with the switch off they leave the
    whole configuration, [jniEnable] included, and the log untouched. *)
Theorem tracing_is_guarded_by_the_switch (site : CallSite) (cookie : Z) (p : Process) :
  let guarded q :=
    isJNIMethodPrint (config q) = isJNIMethodPrint (config p)
    /\ jniFuncName (config q) = jniFuncName (config p)
    /\ (exists lines, logcat q = logcat p ++ lines)
    /\ (isJNIMethodPrint (config p) = false ->
        config q = config p /\ logcat q = logcat p) in
  guarded (final (Start site p)) /\ guarded (final (End site cookie p)).
Proof.
  intros guarded. subst guarded. cbv beta. split.
  - destruct (Start_tracing_kept site p) as (S & N & L).
    repeat split; try assumption; now apply (Start_silent_when_off site p).
  - destruct (End_tracing_kept site cookie p) as (S & N & L).
    repeat split; try assumption; now apply (End_silent_when_off site cookie p).
Qed.

End TracingFrame.

(** *** The flag of a traced call *)

Lemma config_kept_refl p : config_kept p p.
Proof. split; reflexivity. Qed.

Lemma config_kept_trans p q r : config_kept p q -> config_kept q r -> config_kept p r.
Proof. intros [C1 T1] [C2 T2]. split; congruence. Qed.

Lemma final_bind_returns {A B} (m : M A) (k : A -> M B) p r p' :
  bind m k p = Returns r p' -> exists a, k a (final (m p)) = Returns r p'.
Proof.
  unfold bind. destruct (m p) as [a q | why q]; [|discriminate].
  intros E. now exists a.
Qed.

Ltac config_kept_all :=
  keeps_all fail config_kept_refl config_kept_trans ltac:(split; reflexivity).

Section TracedCall.

Context {rt : Collaborators}.

(** The three blocks of tracing code, run for a traced method. *)
Lemma enter_block_traced {B} (k : M B) p :
  traced p ->
  (cfg <- GetConfigItem ;;
   when (isJNIMethodPrint cfg)
     (native_method <- GetTopQuickFrame ;;
      let methodname := PrettyMethod native_method in
      when (strstr methodname (jniFuncName cfg))
        (ALOGD "[ROM] enter jni %s %p" [ArgString methodname; ArgSelf] ;;;
         update_config (with_jniEnable true))) ;;;
   k)%bridge p
  = k (set_config (with_jniEnable true)
         (log_line ("[ROM] enter jni %s %p",
                    [ArgString (PrettyMethod (top_quick_frame (self p))); ArgSelf]) p)).
Proof.
  destruct p as [t r c l h]. intros [H1 H2]. cbn in H1, H2.
  cbv [bind GetConfigItem GetTopQuickFrame GetSelf ret when update_config ALOGD].
  cbn [config self]. rewrite H1. cbn [config self]. rewrite H2. reflexivity.
Qed.

Lemma leave_block_traced {B} (k : M B) p :
  traced p ->
  (cfg <- GetConfigItem ;;
   when (isJNIMethodPrint cfg)
     (native_method <- GetTopQuickFrame ;;
      let methodname := PrettyMethod native_method in
      when (strstr methodname (jniFuncName cfg))
        (update_config (with_jniEnable false) ;;;
         ALOGD "[ROM] leave jni %s" [ArgString methodname])) ;;;
   k)%bridge p
  = k (log_line ("[ROM] leave jni %s",
                 [ArgString (PrettyMethod (top_quick_frame (self p)))])
         (set_config (with_jniEnable false) p)).
Proof.
  destruct p as [t r c l h]. intros [H1 H2]. cbn in H1, H2.
  cbv [bind GetConfigItem GetTopQuickFrame GetSelf ret when update_config ALOGD].
  cbn [config self]. rewrite H1. cbn [config self]. rewrite H2. reflexivity.
Qed.

Lemma end_block_traced {B} (k : M B) p :
  traced p ->
  (cfg <- GetConfigItem ;;
   when (isJNIMethodPrint cfg)
     (native_method <- GetTopQuickFrame ;;
      let methodname := PrettyMethod native_method in
      ALOGD "[ROM] JniMethodEnd jni %s" [ArgString methodname] ;;;
      when (strstr methodname (jniFuncName cfg))
        (update_config (with_jniEnable false) ;;;
         ALOGD "[ROM] leave jni %s" [ArgString methodname])) ;;;
   k)%bridge p
  = k (log_line ("[ROM] leave jni %s",
                 [ArgString (PrettyMethod (top_quick_frame (self p)))])
         (set_config (with_jniEnable false)
            (log_line ("[ROM] JniMethodEnd jni %s",
                       [ArgString (PrettyMethod (top_quick_frame (self p)))]) p))).
Proof.
  destruct p as [t r c l h]. intros [H1 H2]. cbn in H1, H2.
  cbv [bind GetConfigItem GetTopQuickFrame GetSelf ret when update_config ALOGD].
  cbn [config self]. rewrite H1. cbn [config self]. rewrite H2. reflexivity.
Qed.

Lemma bind_run {A B} (m : M A) (k : A -> M B) p a q :
  m p = Returns a q -> bind m k p = k a q.
Proof. intros E. unfold bind. now rewrite E. Qed.

(** After the block the configuration is not touched any more. *)
Ltac rest_keeps_config :=
  match goal with
  | |- context [final (?rest ?q)] =>
      let K := fresh "K" in
      assert (K : keeps config_kept rest) by config_kept_all;
      destruct (K q) as [-> _]; reflexivity
  end.

Lemma JniMethodStart_traced p :
  traced p -> config (final (JniMethodStart p)) = with_jniEnable true (config p).
Proof.
  intros H. unfold JniMethodStart.
  do 3 (erewrite bind_run by reflexivity).
  rewrite enter_block_traced by exact H.
  rest_keeps_config.
Qed.

Lemma JniMethodEnd_traced cookie p :
  traced p -> config (final (JniMethodEnd cookie p)) = with_jniEnable false (config p).
Proof.
  intros H. unfold JniMethodEnd.
  rewrite end_block_traced by exact H.
  rest_keeps_config.
Qed.

Lemma HandleResult_traced result cookie p :
  traced p ->
  config (final (JniMethodEndWithReferenceHandleResult result cookie p))
  = with_jniEnable false (config p).
Proof.
  intros H. unfold JniMethodEndWithReferenceHandleResult.
  rewrite leave_block_traced by exact H.
  rest_keeps_config.
Qed.

Lemma kept_yields {A} (m : M A) : keeps config_kept m -> yields flag_kept m.
Proof. intros K p a q E. specialize (K p). rewrite E in K. exact (proj1 K). Qed.

Lemma yields_after {A B} b (m : M A) (k : A -> M B) :
  keeps config_kept m -> (forall a, yields (flag_set b) (k a)) ->
  yields (flag_set b) (bind m k).
Proof.
  intros Km Hk p r q E H. unfold bind in E. specialize (Km p).
  destruct (m p) as [a p1 | why p1]; [|discriminate]. cbn in Km.
  destruct Km as [C T], H as [H1 H2].
  rewrite (Hk a p1 r q E); [now rewrite C|].
  split; [now rewrite C | now rewrite C, T].
Qed.

Lemma yields_before {A B} b (m : M A) (k : A -> M B) :
  yields (flag_set b) m -> (forall a, keeps config_kept (k a)) ->
  yields (flag_set b) (bind m k).
Proof.
  intros Hm Kk p r q E H. unfold bind in E.
  destruct (m p) as [a p1 | why p1] eqn:Em; [|discriminate].
  specialize (Kk a p1). rewrite E in Kk. destruct Kk as [C _]. cbn in C.
  rewrite C. exact (Hm p a p1 Em H).
Qed.

Lemma yields_final {A} b (m : M A) :
  (forall p, traced p -> config (final (m p)) = with_jniEnable b (config p)) ->
  yields (flag_set b) m.
Proof. intros Hm p a q E H. specialize (Hm p H). now rewrite E in Hm. Qed.

Ltac flag_set_all :=
  cbv [Start End void generic_start GenericJniMethodEnd JniMethodStartSynchronized
       JniMonitoredMethodStart JniMonitoredMethodStartSynchronized
       JniMethodFastEndWithReference JniMethodEndWithReference
       JniMethodEndWithReferenceSynchronized JniMonitoredMethodEnd
       JniMonitoredMethodEndWithReference JniMonitoredMethodEndWithReferenceSynchronized];
  repeat first
    [ apply yields_final; first [ apply JniMethodStart_traced
                                | apply JniMethodEnd_traced
                                | apply HandleResult_traced ]
    | apply yields_after; [ solve [ config_kept_all ] | intros ? ]
    | apply yields_before; [ | intros ?; solve [ config_kept_all ] ] ].

Lemma Start_flag stub ref :
  yields (if marks_entry stub then flag_set true else flag_kept)
         (Start (Compiled stub ref)).
Proof.
  destruct stub; cbn [marks_entry];
    first [ apply kept_yields; solve [ config_kept_all ] | solve [ flag_set_all ] ].
Qed.

Lemma End_flag site cookie :
  yields (if marks_exit site then flag_set false else flag_kept) (End site cookie).
Proof.
  destruct site as [[] [ref|] | called to_lock result result_f]; cbn [marks_exit];
    try first [ apply kept_yields; solve [ config_kept_all ] | solve [ flag_set_all ] ].
  destruct (Ascii.eqb (return_shorty called) "L") eqn:HL.
  - cbv [End GenericJniMethodEnd]. rewrite HL. solve [ flag_set_all ].
  - apply kept_yields. cbv [End GenericJniMethodEnd]. rewrite HL. solve [ config_kept_all ].
Qed.

(** X9.  What a call does to [jniEnable] when the method on the stack is
    traced (the switch is on and the name of the method contains the name
    asked for).  A [Start] that returns has set the flag, except the one of
    the fast stub, which keeps the configuration.  An [End] that returns has
    cleared the flag when it went through [JniMethodEnd] or
    [JniMethodEndWithReferenceHandleResult].  The other Ends keep the
    configuration: those of a fast or a synchronized call without a
    reference result, and [GenericJniMethodEnd] for every return type but a
    reference.  After a traced synchronized call that returns nothing the
    flag therefore stays set. *)
Theorem jniEnable_of_a_traced_call (p : Process) :
  traced p ->
  (forall stub reference_result cookie p1,
      Start (Compiled stub reference_result) p = Returns cookie p1 ->
      config p1 = if marks_entry stub then with_jniEnable true (config p) else config p)
  /\ (forall site cookie r p',
         End site cookie p = Returns r p' ->
         config p' = if marks_exit site then with_jniEnable false (config p) else config p).
Proof.
  intros H. split.
  - intros stub ref cookie p1 E. pose proof (Start_flag stub ref p cookie p1 E) as F.
    destruct (marks_entry stub); [exact (F H) | exact F].
  - intros site cookie r p' E. pose proof (End_flag site cookie p r p' E) as F.
    destruct (marks_exit site); [exact (F H) | exact F].
Qed.

End TracedCall.

Lemma jniEnable_of_a_traced_call_witness :
  let rt := Demo.runtime true true true kArm64 in
  let m := Demo.method false false true "V" in
  let site := Compiled (StubSynchronized 2) None in
  let p := Demo.process (Demo.thread m 0 0) (Demo.tracing true) in
  let p1 := final (Start site p) in
  let p2 := final (End site 3 p1) in
  Start site p = Returns 3 p1
  /\ jniEnable (config p1) = true
  /\ End site 3 p1 = Returns 0 p2
  /\ jniEnable (config p2) = true.
Proof.
  intros rt m site p p1 p2.
  assert (S : Start site p = Returns 3 p1) by (vm_compute; reflexivity).
  assert (E : End site 3 p1 = Returns 0 p2) by (vm_compute; reflexivity).
  assert (T : traced p) by (split; vm_compute; reflexivity).
  assert (T1 : traced p1) by (split; vm_compute; reflexivity).
  destruct (@jniEnable_of_a_traced_call rt p T) as [Hs _].
  destruct (@jniEnable_of_a_traced_call rt p1 T1) as [_ He].
  split; [exact S|]. split; [rewrite (Hs _ _ _ _ S); reflexivity|].
  split; [exact E|]. rewrite (He _ _ _ _ E), (Hs _ _ _ _ S). reflexivity.
Defined.

(** ** Handles are decoded before the scope is popped *)

Section TwoPhases.

Context {rt : Collaborators}.

Variable I : Thread -> Prop.
Variables ok1 ok2 : Event -> bool.

Lemma two_phase_first {A} (m : M A) : confined I ok1 m -> two_phase I ok1 ok2 m.
Proof.
  intros H p Hp. destruct (H p Hp) as (d & E & F & S & _).
  exists d, []. rewrite app_nil_r. auto.
Qed.

Lemma two_phase_second {A} (m : M A) : emits_only ok2 m -> two_phase I ok1 ok2 m.
Proof.
  intros H p Hp. destruct (emits_only_history _ _ H p) as (d & E & F).
  exists [], d. cbn. auto.
Qed.

Lemma two_phase_later {A B} (m : M A) (k : A -> M B) :
  confined I ok1 m -> (forall a, two_phase I ok1 ok2 (k a)) ->
  two_phase I ok1 ok2 (bind m k).
Proof.
  intros Hm Hk p Hp. unfold bind.
  destruct (Hm p Hp) as (d & E & F & S & Hq).
  destruct (m p) as [a q | why q]; cbn in E, Hq.
  - destruct (Hk a q Hq) as (b & c & E' & Fb & Sb & Fc).
    exists (d ++ b), c. rewrite E', E, <- !app_assoc. split; [reflexivity|].
    rewrite events_app, forallb_app, F, Fb. repeat split; auto.
    now apply Forall_app.
  - exists d, []. cbn. rewrite app_nil_r. auto.
Qed.

Lemma two_phase_earlier {A B} (m : M A) (k : A -> M B) :
  two_phase I ok1 ok2 m -> (forall a, emits_only ok2 (k a)) ->
  two_phase I ok1 ok2 (bind m k).
Proof.
  intros Hm Hk p Hp. unfold bind.
  destruct (Hm p Hp) as (b & c & E & Fb & Sb & Fc).
  destruct (m p) as [a q | why q]; cbn in E.
  - destruct (emits_only_history _ _ (Hk a) q) as (d & E' & F).
    exists b, (c ++ d). rewrite E', E, <- !app_assoc. split; [reflexivity|].
    rewrite events_app, forallb_app, Fc, F. auto.
  - exists b, c. auto.
Qed.

Lemma two_phase_if {A} (b : bool) (m1 m2 : M A) :
  two_phase I ok1 ok2 m1 -> two_phase I ok1 ok2 m2 ->
  two_phase I ok1 ok2 (if b then m1 else m2).
Proof. now destruct b. Qed.

End TwoPhases.

Ltac two_phases :=
  cbv [End void GenericJniMethodEnd JniMethodEnd JniMethodFastEnd JniMethodEndSynchronized
       JniMethodEndWithReferenceHandleResult JniMethodFastEndWithReference
       JniMethodEndWithReference JniMethodEndWithReferenceSynchronized
       JniMonitoredMethodEnd JniMonitoredMethodEndSynchronized
       JniMonitoredMethodEndWithReference JniMonitoredMethodEndWithReferenceSynchronized];
  repeat first
    [ apply two_phase_first; solve [ emits ]
    | apply two_phase_second; solve [ emits ]
    | apply two_phase_later; [ solve [ emits ] | intros ? ]
    | apply two_phase_earlier; [ | intros ?; solve [ emits ] ]
    | apply two_phase_if ].

Lemma no_decode_count (d : list (Event * Thread)) :
  forallb (fun e => negb (is_decode e)) (events d) = true -> count is_decode d = 0%nat.
Proof.
  intros F. unfold count.
  rewrite (filter_rejected is_decode _ _ (fun a H => f_equal negb H) F).
  reflexivity.
Qed.

Section DecodeBeforePop.

Context {rt : Collaborators}.

Lemma End_two_phase env site cookie :
  two_phase (in_scope env) (fun e => negb (is_pop e)) (fun e => negb (is_decode e))
            (End site cookie).
Proof.
  destruct site as [[] [ref|] | called to_lock result result_f]; two_phases.
Qed.

(** X10.  Handles are decoded before the scope is popped.  What an [End]
    adds to the history, whether it returns or not, is in two parts.  The
    first has no pop, and every event of it, the decoding of the lock and of
    the reference result included, is made in the scope the thread had when
    [End] was called.  The second has no decoding of a handle. *)
Theorem handles_are_decoded_before_the_pop (site : CallSite) (cookie : Z) (p : Process) :
  exists before after,
    history (final (End site cookie p)) = history p ++ before ++ after
    /\ count is_pop before = 0%nat
    /\ Forall (fun et => jni_env (snd et) = jni_env (self p)) before
    /\ count is_decode after = 0%nat.
Proof.
  destruct (End_two_phase (jni_env (self p)) site cookie p eq_refl)
    as (before & after & E & F1 & S & F2).
  exists before, after. split; [exact E|].
  split; [exact (no_pop_count _ F1)|]. split; [exact S|].
  exact (no_decode_count _ F2).
Qed.

End DecodeBeforePop.

(** ** The monitoring hooks run in native state *)

Lemma no_palette_count (d : list (Event * Thread)) :
  forallb (fun e => negb (is_palette e)) (events d) = true -> count is_palette d = 0%nat.
Proof.
  intros F. unfold count.
  rewrite (filter_rejected is_palette _ _ (fun a H => f_equal negb H) F).
  reflexivity.
Qed.

Lemma no_palette_any (P : Thread -> Prop) (d : list (Event * Thread)) :
  forallb (fun e => negb (is_palette e)) (events d) = true ->
  Forall (fun et => is_palette (fst et) = true -> P (snd et)) d.
Proof.
  induction d as [|[e t] d IH]; cbn; intros F; constructor.
  - cbn. intros H. rewrite H in F. discriminate F.
  - apply IH. now apply andb_prop in F.
Qed.

Section Hooks.

Context {rt : Collaborators}.

Lemma hooks_after {A B} (m : M A) (k : A -> M B) (p : Process) :
  emits_only (fun e => negb (is_palette e)) m ->
  (forall a q, m p = Returns a q -> state (self q) = kNative) ->
  (forall a, confined (fun t => state t = kNative) (fun _ => true) (k a)) ->
  exists d,
    history (final (bind m k p)) = history p ++ d
    /\ Forall (fun et => is_palette (fst et) = true -> state (snd et) = kNative) d.
Proof.
  intros Hm Hn Hk. destruct (emits_only_history _ _ Hm p) as (d1 & E1 & F1).
  unfold bind. destruct (m p) as [a q | why q]; cbn in E1.
  - destruct (Hk a q (Hn a q eq_refl)) as (d2 & E2 & _ & S2 & _).
    exists (d1 ++ d2). rewrite E2, E1, app_assoc. split; [reflexivity|].
    apply Forall_app. split; [now apply (no_palette_any (fun t => state t = kNative))|].
    eapply Forall_impl; [|exact S2]. auto.
  - exists d1. split; [exact E1 | now apply (no_palette_any (fun t => state t = kNative))].
Qed.

Lemma Start_hooks stub ref p :
  exists d,
    history (final (Start (Compiled stub ref) p)) = history p ++ d
    /\ Forall (fun et => is_palette (fst et) = true -> state (snd et) = kNative) d.
Proof.
  assert (Plain : forall m : M Z, emits_only (fun e => negb (is_palette e)) m ->
            exists d, history (final (m p)) = history p ++ d
              /\ Forall (fun et => is_palette (fst et) = true -> state (snd et) = kNative) d).
  { intros m Hm. destruct (emits_only_history _ _ Hm p) as (d & E & F).
    exists d. split; [exact E | now apply (no_palette_any (fun t => state t = kNative))]. }
  destruct stub; cbn [Start]; try (apply Plain; solve [ emits ]).
  - unfold JniMonitoredMethodStart. apply hooks_after.
    + emits.
    + intros a q E.
      destruct (spec_post _ _ _ _ _ _ JniMethodStart_spec E) as [_ ->]. reflexivity.
    + intros a. emits.
  - unfold JniMonitoredMethodStartSynchronized. apply hooks_after.
    + emits.
    + intros a q E.
      destruct (spec_post _ _ _ _ _ _ (JniMethodStartSynchronized_spec lock) E) as [_ ->].
      reflexivity.
    + intros a. emits.
Qed.

Lemma End_hooks t site cookie :
  two_phase (eq t) is_palette (fun e => negb (is_palette e)) (End site cookie).
Proof.
  destruct site as [[] [ref|] | called to_lock result result_f]; two_phases.
Qed.

Lemma Start_unmonitored stub ref :
  monitored (Compiled stub ref) = false ->
  emits_only (fun e => negb (is_palette e)) (Start (Compiled stub ref)).
Proof. destruct stub; cbn; intros H; try discriminate H; emits. Qed.

Lemma End_unmonitored site cookie :
  monitored site = false ->
  emits_only (fun e => negb (is_palette e)) (End site cookie).
Proof.
  destruct site as [[] [ref|] | called to_lock result result_f]; cbn [monitored];
    intros H; try discriminate H; try solve [ emits ].
  cbv [End GenericJniMethodEnd]. rewrite H. emits.
Qed.

(** X11.  The monitoring hooks bracket the native code.  Whatever a [Start] of a stub adds to the history, every call of the
    palette in it is made with the thread in Native, that is after the
    transition.  What an [End] adds begins with its calls of the palette,
    each made with the thread exactly as it was when [End] was called; all
    that follows, the transition back, the unlocking and the pop, is no call
    of the palette.  The entry points of a call site that is not
    monitored (the plain, fast and synchronized stubs, and the generic bridge
    for a fast or critical method) do not call the palette at all. *)
Theorem hooks_bracket_the_native_code (p : Process) :
  (forall stub reference_result,
      let site := Compiled stub reference_result in
      exists d,
        history (final (Start site p)) = history p ++ d
        /\ Forall (fun et => is_palette (fst et) = true -> state (snd et) = kNative) d
        /\ (monitored site = false -> count is_palette d = 0%nat))
  /\ (forall site cookie,
         exists hooks rest,
           history (final (End site cookie p)) = history p ++ hooks ++ rest
           /\ forallb is_palette (events hooks) = true
           /\ Forall (fun et => snd et = self p) hooks
           /\ count is_palette rest = 0%nat
           /\ (monitored site = false -> hooks = [])).
Proof.
  split.
  - intros stub ref site. subst site.
    destruct (Start_hooks stub ref p) as (d & E & S).
    exists d. split; [exact E|]. split; [exact S|].
    intros H. destruct (emits_only_history _ _ (Start_unmonitored stub ref H) p)
      as (d' & E' & F').
    rewrite E in E'. apply app_inv_head in E'. subst d'. now apply no_palette_count.
  - intros site cookie.
    destruct (End_hooks (self p) site cookie p eq_refl) as (hooks & rest & E & F1 & S & F2).
    exists hooks, rest. split; [exact E|]. split; [exact F1|].
    split; [eapply Forall_impl; [|exact S]; cbn; auto|].
    split; [now apply no_palette_count|].
    intros H. destruct (emits_only_history _ _ (End_unmonitored site cookie H) p)
      as (d' & E' & F').
    rewrite E in E'. apply app_inv_head in E'. subst d'.
    rewrite events_app, forallb_app in F'. apply andb_prop in F' as [F' _].
    destruct hooks as [|[e t] hooks]; [reflexivity|].
    cbn in F1, F'. apply andb_prop in F1 as [F1 _]. apply andb_prop in F' as [F' _].
    rewrite F1 in F'. discriminate F'.
Qed.

End Hooks.

(** ** The root barrier, all outcomes *)

Section RootBarrierFrame.

Context {rt : Collaborators}.

(** X12.  What [ReadBarrierJni] leaves alone, and how it fails.  Whether it
    returns or not, the thread, the tracing configuration, the log and every
    root slot but the one of the declaring class are as before, and the
    history has grown by the call of the barrier routine on the root or by
    nothing.  In a debug build a runtime without read barriers fails the
    first check, and with the Baker barrier a null root fails the check that
    the class is not null; in both cases nothing has happened.  When neither
    is the case the call returns. *)
Theorem ReadBarrierJni_frame (declaring_class : RootSlot) (p : Process) :
  let run := ReadBarrierJni declaring_class p in
  (self (final run) = self p
   /\ config (final run) = config p
   /\ logcat (final run) = logcat p
   /\ (forall other, other <> declaring_class -> roots (final run) other = roots p other)
   /\ (history (final run) = history p
       \/ history (final run)
          = history p ++ [(EvBarrierForRoot (roots p declaring_class), self p)]))
  /\ (kIsDebugBuild = true -> kUseReadBarrier = false ->
      run = Aborts (CheckFailed "kUseReadBarrier") p)
  /\ (kIsDebugBuild = true -> kUseReadBarrier = true -> kUseBakerReadBarrier = true ->
      roots p declaring_class = nullptr ->
      run = Aborts (CheckFailed "The class of a static jni call must not be null") p)
  /\ ((kIsDebugBuild = true -> kUseReadBarrier = true) ->
      (kUseBakerReadBarrier = true -> roots p declaring_class <> nullptr) ->
      returned run = Some tt).
Proof.
  intros run. subst run. destruct p as [t r c l h]. cbn [self config logcat roots history].
  split; [|split; [|split]].
  - unfold_bridge. crunch; repeat split; auto;
      intros other H; apply Z.eqb_neq in H; now rewrite H.
  - intros Hd Hrb. unfold_bridge. rewrite Hd, Hrb. reflexivity.
  - intros Hd Hrb Hb Hn. apply is_null_true in Hn. unfold_bridge.
    cbn [roots]. rewrite Hd, Hrb, Hb. cbn. rewrite Hn. reflexivity.
  - intros Hd Hn.
    assert (Hd' : kIsDebugBuild = false \/ kUseReadBarrier = true)
      by (destruct kIsDebugBuild; auto).
    assert (Hn' : kUseBakerReadBarrier = false \/ is_null (r declaring_class) = false)
      by (destruct kUseBakerReadBarrier; [right; apply is_null_false; auto | auto]).
    clear Hd Hn. unfold_bridge.
    destruct Hd' as [Hd | Hd], Hn' as [Hn | Hn]; crunch; reflexivity.
Qed.

End RootBarrierFrame.

Lemma ReadBarrierJni_frame_witness :
  let rt := Demo.runtime true true true kArm64 in
  let p := Demo.process (Demo.thread (Demo.method false false false "V") 0 0)
                        (Demo.tracing false) in
  ReadBarrierJni 0 p
  = Aborts (CheckFailed "The class of a static jni call must not be null") p
  /\ returned (ReadBarrierJni 2 p) = Some tt.
Proof.
  intros rt p.
  destruct (@ReadBarrierJni_frame rt 0 p) as (_ & _ & Null & _).
  destruct (@ReadBarrierJni_frame rt 2 p) as (_ & _ & _ & Ret).
  split.
  - apply Null; reflexivity.
  - apply Ret; [reflexivity | intros _; discriminate].
Defined.

(** ** A call that ends with a monitor held *)

Lemma scope_kept_if_checked_refl p : scope_kept_if_checked p p.
Proof. intros _. reflexivity. Qed.

Lemma scope_kept_if_checked_trans p q r :
  scope_kept_if_checked p q -> scope_kept_if_checked q r -> scope_kept_if_checked p r.
Proof.
  intros H1 H2 H. specialize (H1 H). rewrite <- H1. apply H2. now rewrite H1.
Qed.

Lemma stops_first {A B} (m : M A) (k : A -> M B) :
  stops_if_checked m -> stops_if_checked (bind m k).
Proof.
  intros Hm p H. specialize (Hm p H). unfold bind.
  destruct (m p); [discriminate Hm | reflexivity].
Qed.

Lemma stops_later {A B} (m : M A) (k : A -> M B) :
  keeps scope_kept_if_checked m -> (forall a, stops_if_checked (k a)) ->
  stops_if_checked (bind m k).
Proof.
  intros Km Hk p H. specialize (Km p H). unfold bind.
  destruct (m p) as [a q | why q]; [|reflexivity]. cbn in Km.
  apply Hk. now rewrite Km.
Qed.

Lemma stops_if {A} (b : bool) (m1 m2 : M A) :
  stops_if_checked m1 -> stops_if_checked m2 -> stops_if_checked (if b then m1 else m2).
Proof. now destruct b. Qed.

(** The entry points and what they call, down to the operations on the
    process, but for [PopLocalReferences]. *)
Ltac open_bridge_to_pop :=
  cbv [ReadBarrierJni JniMethodFastStart JniMethodStart JniMethodStartSynchronized
       GoToRunnable GoToRunnableFast UnlockJniSynchronizedMethod
       JniMethodEnd JniMethodFastEnd JniMethodEndSynchronized
       JniMethodEndWithReferenceHandleResult JniMethodFastEndWithReference
       JniMethodEndWithReference JniMethodEndWithReferenceSynchronized
       GenericJniMethodEnd JniMonitoredMethodStart JniMonitoredMethodStartSynchronized
       JniMonitoredMethodEnd JniMonitoredMethodEndSynchronized
       JniMonitoredMethodEndWithReference JniMonitoredMethodEndWithReferenceSynchronized
       MONITOR_JNI PaletteShouldReportJniInvocations
       PaletteNotifyBeginJniInvocation PaletteNotifyEndJniInvocation
       CHECK DCHECK IsCheckJniEnabled GetTopQuickFrame
       TransitionFromRunnableToSuspended TransitionFromSuspendedToRunnable TestAllFlags
       CheckSuspend IsSharedHeld IsExceptionPending GetException ClearException
       SetException DecodeJObject deref MonitorEnter MonitorExit CheckReferenceResult
       VerifyObject BarrierForRoot generic_start Start End void].

Section HeldMonitor.

Context {rt : Collaborators}.

Hypothesis held : forall t, no_held_monitors t = false.

Lemma PopLocalReferences_held cookie :
  keeps scope_kept_if_checked (PopLocalReferences cookie)
  /\ stops_if_checked (PopLocalReferences cookie).
Proof.
  split; intros [t r c l h] H; cbn in H; unfold_bridge; cbn; rewrite H; cbn;
    rewrite held; reflexivity.
Qed.

Ltac scope_kept_all :=
  open_bridge_to_pop;
  repeat keeps_step ltac:(apply PopLocalReferences_held)
    scope_kept_if_checked_refl scope_kept_if_checked_trans ltac:(intros _; reflexivity).

Ltac stops :=
  first
    [ apply PopLocalReferences_held
    | apply stops_if; stops
    | apply stops_later; [ solve [ scope_kept_all ] | intros ?; stops ]
    | apply stops_first; stops ].

Ltac stops_all := open_bridge_to_pop; stops.

Lemma End_keeps_scope site cookie : keeps scope_kept_if_checked (End site cookie).
Proof.
  destruct site as [[] [ref|] | called to_lock result result_f]; scope_kept_all.
Qed.

Lemma End_stops site cookie : pops site = true -> stops_if_checked (End site cookie).
Proof.
  destruct site as [[] [ref|] | called to_lock result result_f]; intros Hp;
    try solve [ stops_all ].
  cbn in Hp. cbv [End GenericJniMethodEnd].
  destruct (Ascii.eqb (return_shorty called) "L") eqn:HL.
  - stops_all.
  - rewrite orb_false_r in Hp. apply negb_true_iff in Hp. rewrite Hp.
    cbn [negb andb when]. stops_all.
Qed.

(** X13.  A call cannot end while it holds a monitor, if CheckJNI is on.
    With CheckJNI on for the thread and a monitor still held, the [End] of a
    call site that pops does not return, and it leaves the scope as it was:
    neither the segment state nor the saved cookie has been written. *)
Theorem End_with_a_monitor_held (site : CallSite) (cookie : Z) (p : Process) :
  pops site = true ->
  check_jni (jni_env (self p)) = true ->
  returned (End site cookie p) = None
  /\ jni_env (self (final (End site cookie p))) = jni_env (self p).
Proof.
  intros Hp Hc. split.
  - exact (End_stops site cookie Hp p Hc).
  - exact (End_keeps_scope site cookie p Hc).
Qed.

End HeldMonitor.

Lemma End_with_a_monitor_held_witness :
  let rt := with_held_monitors (Demo.runtime true true true kArm64) in
  let m := Demo.method false false false "V" in
  let site := Compiled StubNormal None in
  let p := Demo.process (with_state kNative (Demo.thread m 0 0)) (Demo.tracing false) in
  returned (End site 9 p) = None
  /\ jni_env (self (final (End site 9 p))) = Demo.env.
Proof.
  intros rt m site p.
  exact (@End_with_a_monitor_held rt (fun _ => eq_refl) site 9 p eq_refl eq_refl).
Defined.

Section Unchecked.

Context {rt : Collaborators}.

Lemma unchecked_when {B} (m : M unit) (k : M B) :
  confined unchecked (fun e => negb (is_jni_check e)) k ->
  confined unchecked (fun e => negb (is_jni_check e))
    (bind IsCheckJniEnabled (fun checked => bind (when checked m) (fun _ => k))).
Proof.
  intros Hk p Hp. cbv [bind IsCheckJniEnabled GetSelf ret].
  rewrite Hp. exact (Hk p Hp).
Qed.

Lemma End_unchecked site cookie :
  confined unchecked (fun e => negb (is_jni_check e)) (End site cookie).
Proof.
  destruct site as [[] [ref|] | called to_lock result result_f];
    cbv [ReadBarrierJni JniMethodFastStart JniMethodStart JniMethodStartSynchronized
       GoToRunnable GoToRunnableFast PopLocalReferences UnlockJniSynchronizedMethod
       JniMethodEnd JniMethodFastEnd JniMethodEndSynchronized
       JniMethodEndWithReferenceHandleResult JniMethodFastEndWithReference
       JniMethodEndWithReference JniMethodEndWithReferenceSynchronized
       GenericJniMethodEnd JniMonitoredMethodStart JniMonitoredMethodStartSynchronized
       JniMonitoredMethodEnd JniMonitoredMethodEndSynchronized
       JniMonitoredMethodEndWithReference JniMonitoredMethodEndWithReferenceSynchronized
       MONITOR_JNI PaletteShouldReportJniInvocations
       PaletteNotifyBeginJniInvocation PaletteNotifyEndJniInvocation
       CHECK DCHECK GetLocalRefCookie GetLocalsSegmentState SetLocalRefCookie
       SetLocalSegmentState CheckNoHeldMonitors GetTopQuickFrame
       TransitionFromRunnableToSuspended TransitionFromSuspendedToRunnable TestAllFlags
       CheckSuspend IsSharedHeld IsExceptionPending GetException ClearException
       SetException DecodeJObject deref MonitorEnter MonitorExit CheckReferenceResult
       VerifyObject BarrierForRoot generic_start Start End void];
    repeat first [ apply unchecked_when | emits_step ].
Qed.

(** X14.  With CheckJNI off, an [End] makes none of the checks of CheckJNI:
    it neither asks whether monitors are still held nor has the reference
    result checked, and CheckJNI is still off afterwards. *)
Theorem unchecked_End_makes_no_JNI_check (site : CallSite) (cookie : Z) (p : Process) :
  check_jni (jni_env (self p)) = false ->
  exists d,
    history (final (End site cookie p)) = history p ++ d
    /\ count is_jni_check d = 0%nat
    /\ check_jni (jni_env (self (final (End site cookie p)))) = false.
Proof.
  intros H. destruct (End_unchecked site cookie p H) as (d & E & F & _ & U).
  exists d. split; [exact E|]. split; [|exact U].
  unfold count.
  rewrite (filter_rejected is_jni_check _ _ (fun a H => f_equal negb H) F).
  reflexivity.
Qed.

End Unchecked.

Lemma unchecked_End_makes_no_JNI_check_witness :
  let rt := with_held_monitors (Demo.runtime true true true kArm64) in
  let m := Demo.method false false false "V" in
  let site := Compiled StubNormal None in
  let env := {| local_ref_cookie := {| top_index := 3 |};
                locals_segment_state := {| top_index := 7 |};
                check_jni := false |} in
  let p := Demo.process (with_jni_env env (with_state kNative (Demo.thread m 0 0)))
                        (Demo.tracing false) in
  returned (End site 9 p) = Some 0
  /\ exists d, history (final (End site 9 p)) = [] ++ d /\ count is_jni_check d = 0%nat.
Proof.
  intros rt m site env p. split; [vm_compute; reflexivity|].
  destruct (@unchecked_End_makes_no_JNI_check rt site 9 p eq_refl) as (d & E & C & _).
  exists d. split; [exact E | exact C].
Defined.

(** *** The lines of the log *)

Lemma log_kept_refl p : log_kept p p.
Proof. reflexivity. Qed.

Lemma log_kept_trans p q r : log_kept p q -> log_kept q r -> log_kept p r.
Proof. unfold log_kept. congruence. Qed.

Ltac log_kept_all :=
  keeps_all fail log_kept_refl log_kept_trans ltac:(reflexivity).

Section LogLines.

Context {rt : Collaborators}.

Ltac run_block p H :=
  destruct p as [t r c l h]; cbn [self config] in *;
  cbv [bind GetConfigItem GetTopQuickFrame GetSelf ret when update_config ALOGD];
  cbn [config self]; rewrite H; cbn [config self];
  destruct (strstr (PrettyMethod (top_quick_frame t)) (jniFuncName c)); reflexivity.

(** The three blocks of tracing code, run with the switch on. *)
Lemma enter_block_on {B} (k : M B) p :
  isJNIMethodPrint (config p) = true ->
  (cfg <- GetConfigItem ;;
   when (isJNIMethodPrint cfg)
     (native_method <- GetTopQuickFrame ;;
      let methodname := PrettyMethod native_method in
      when (strstr methodname (jniFuncName cfg))
        (ALOGD "[ROM] enter jni %s %p" [ArgString methodname; ArgSelf] ;;;
         update_config (with_jniEnable true))) ;;;
   k)%bridge p
  = k (if strstr (PrettyMethod (top_quick_frame (self p))) (jniFuncName (config p))
       then set_config (with_jniEnable true)
              (log_line ("[ROM] enter jni %s %p",
                         [ArgString (PrettyMethod (top_quick_frame (self p))); ArgSelf]) p)
       else p).
Proof. intros H. run_block p H. Qed.

Lemma leave_block_on {B} (k : M B) p :
  isJNIMethodPrint (config p) = true ->
  (cfg <- GetConfigItem ;;
   when (isJNIMethodPrint cfg)
     (native_method <- GetTopQuickFrame ;;
      let methodname := PrettyMethod native_method in
      when (strstr methodname (jniFuncName cfg))
        (update_config (with_jniEnable false) ;;;
         ALOGD "[ROM] leave jni %s" [ArgString methodname])) ;;;
   k)%bridge p
  = k (if strstr (PrettyMethod (top_quick_frame (self p))) (jniFuncName (config p))
       then log_line ("[ROM] leave jni %s",
                      [ArgString (PrettyMethod (top_quick_frame (self p)))])
              (set_config (with_jniEnable false) p)
       else p).
Proof. intros H. run_block p H. Qed.

Lemma end_block_on {B} (k : M B) p :
  isJNIMethodPrint (config p) = true ->
  (cfg <- GetConfigItem ;;
   when (isJNIMethodPrint cfg)
     (native_method <- GetTopQuickFrame ;;
      let methodname := PrettyMethod native_method in
      ALOGD "[ROM] JniMethodEnd jni %s" [ArgString methodname] ;;;
      when (strstr methodname (jniFuncName cfg))
        (update_config (with_jniEnable false) ;;;
         ALOGD "[ROM] leave jni %s" [ArgString methodname])) ;;;
   k)%bridge p
  = k (let q := log_line ("[ROM] JniMethodEnd jni %s",
                          [ArgString (PrettyMethod (top_quick_frame (self p)))]) p in
       if strstr (PrettyMethod (top_quick_frame (self p))) (jniFuncName (config p))
       then log_line ("[ROM] leave jni %s",
                      [ArgString (PrettyMethod (top_quick_frame (self p)))])
              (set_config (with_jniEnable false) q)
       else q).
Proof. intros H. run_block p H. Qed.

Ltac rest_keeps_log :=
  match goal with
  | |- context [final (?rest ?q)] =>
      let K := fresh "K" in
      assert (K : keeps log_kept rest) by log_kept_all;
      rewrite (K q)
  end;
  cbn;
  match goal with
  | |- context [if ?b then _ else _] => destruct b
  end; cbn; rewrite <- ?app_assoc, ?app_nil_r; reflexivity.

(** X15.  The lines the tracing code writes, with the switch on.  Whether
    they return or not, [JniMethodStart] adds the line of the entry and
    [JniMethodEndWithReferenceHandleResult] the line of the exit, both only
    when the name of the method on the stack contains the name asked for;
    [JniMethodEnd] adds a line of its own for every method, and after it the
    line of the exit for a method whose name matches.  Nothing else is
    added. *)
Theorem lines_of_the_tracing_code (result : jobject) (cookie : Z) (p : Process) :
  let name := PrettyMethod (top_quick_frame (self p)) in
  let hit := strstr name (jniFuncName (config p)) in
  let enter := ("[ROM] enter jni %s %p", [ArgString name; ArgSelf]) in
  let leave := ("[ROM] leave jni %s", [ArgString name]) in
  let every := ("[ROM] JniMethodEnd jni %s", [ArgString name]) in
  isJNIMethodPrint (config p) = true ->
  logcat (final (JniMethodStart p)) = logcat p ++ (if hit then [enter] else [])
  /\ logcat (final (JniMethodEnd cookie p)) = logcat p ++ every :: (if hit then [leave] else [])
  /\ logcat (final (JniMethodEndWithReferenceHandleResult result cookie p))
     = logcat p ++ (if hit then [leave] else []).
Proof.
  intros name hit enter leave every H. subst name hit enter leave every.
  split; [|split].
  - unfold JniMethodStart.
    do 3 (erewrite bind_run by reflexivity).
    rewrite enter_block_on by exact H.
    rest_keeps_log.
  - unfold JniMethodEnd. rewrite end_block_on by exact H. cbv zeta.
    rest_keeps_log.
  - unfold JniMethodEndWithReferenceHandleResult.
    rewrite leave_block_on by exact H.
    rest_keeps_log.
Qed.

End LogLines.

Lemma lines_of_the_tracing_code_witness :
  let rt := Demo.runtime true true true kArm64 in
  let m := Demo.method false false false "V" in
  let other := {| isJNIMethodPrint := true; jniFuncName := "open"; jniEnable := false |} in
  let p := Demo.process (Demo.thread m 0 0) other in
  logcat (final (JniMethodStart p)) = []
  /\ logcat (final (JniMethodEnd 3 p))
     = [("[ROM] JniMethodEnd jni %s", [ArgString "void Demo.nativeCall()"])].
Proof.
  intros rt m other p.
  destruct (@lines_of_the_tracing_code rt 0 3 p eq_refl) as (S & E & _).
  split; [rewrite S | rewrite E]; reflexivity.
Defined.

(** ** The monitoring does not change a call *)

Lemma same_but_history_refl p : same_but_history p p.
Proof. repeat split. Qed.

Lemma same_but_history_sym p q : same_but_history p q -> same_but_history q p.
Proof. intros (A & B & C & D & E). repeat split; congruence. Qed.

Lemma same_but_history_trans p q r :
  same_but_history p q -> same_but_history q r -> same_but_history p r.
Proof.
  intros (A & B & C & D & E) (A' & B' & C' & D' & E'). repeat split; congruence.
Qed.

Lemma same_outcome_refl {A} (o : Outcome A) : same_outcome o o.
Proof. destruct o; split; auto using same_but_history_refl. Qed.

Section Unobserving.

Lemma unobserving_ret {A} (a : A) : unobserving (ret a).
Proof. intros p q H. cbn. auto. Qed.

Lemma unobserving_abort {A} why : unobserving (@abort A why).
Proof. intros p q H. cbn. auto. Qed.

Lemma unobserving_bind {A B} (m : M A) (k : A -> M B) :
  unobserving m -> (forall a, unobserving (k a)) -> unobserving (bind m k).
Proof.
  intros Hm Hk p q H. unfold bind. specialize (Hm p q H).
  destruct (m p) as [a p1 | why p1], (m q) as [b q1 | why' q1]; cbn in Hm;
    try contradiction.
  - destruct Hm as [-> S]. now apply Hk.
  - exact Hm.
Qed.

Lemma unobserving_if {A} (b : bool) (m1 m2 : M A) :
  unobserving m1 -> unobserving m2 -> unobserving (if b then m1 else m2).
Proof. now destruct b. Qed.

Lemma unobserving_when (b : bool) (m : M unit) : unobserving m -> unobserving (when b m).
Proof. intros H. destruct b; [exact H | apply unobserving_ret]. Qed.

Lemma unobserving_GetSelf : unobserving GetSelf.
Proof. intros p q H. cbn. split; [apply H | exact H]. Qed.

Lemma unobserving_GetConfigItem : unobserving GetConfigItem.
Proof. intros p q H. cbn. split; [apply H | exact H]. Qed.

Lemma unobserving_load_root slot : unobserving (load_root slot).
Proof. intros p q H. cbn. split; [|exact H]. destruct H as (_ & R & _). now rewrite R. Qed.

Lemma unobserving_update_self f : unobserving (update_self f).
Proof.
  intros p q (S & R & C & L & H). cbn. split; [reflexivity|].
  repeat split; try assumption; cbn; congruence.
Qed.

Lemma unobserving_update_config f : unobserving (update_config f).
Proof.
  intros p q (S & R & C & L & H). cbn. split; [reflexivity|].
  repeat split; try assumption; cbn; congruence.
Qed.

Lemma unobserving_ALOGD fmt args : unobserving (ALOGD fmt args).
Proof.
  intros p q (S & R & C & L & H). cbn. split; [reflexivity|].
  repeat split; try assumption; cbn; congruence.
Qed.

Lemma no_palette_app a b : no_palette (a ++ b) = no_palette a ++ no_palette b.
Proof. unfold no_palette. now rewrite events_app, filter_app. Qed.

Lemma unobserving_emit e : unobserving (emit e).
Proof.
  intros p q (S & R & C & L & H). cbn. split; [reflexivity|].
  repeat split; try assumption; cbn [history record].
  now rewrite !no_palette_app, H, S.
Qed.

Lemma unobserving_Assign slot o : unobserving (Assign slot o).
Proof.
  intros p q (S & R & C & L & H). cbn. split; [reflexivity|].
  repeat split; try assumption; cbn; try congruence. now rewrite R.
Qed.

End Unobserving.

Ltac unobserving_step :=
  first
    [ match goal with
      | |- unobserving (match ?x with _ => _ end) => destruct x
      end
    | apply unobserving_ret
    | apply unobserving_abort
    | apply unobserving_bind; [ | intros ? ]
    | apply unobserving_when
    | apply unobserving_if
    | apply unobserving_GetSelf
    | apply unobserving_GetConfigItem
    | apply unobserving_load_root
    | apply unobserving_update_self
    | apply unobserving_update_config
    | apply unobserving_ALOGD
    | apply unobserving_emit
    | apply unobserving_Assign ].

Ltac unobserving_all := open_bridge; repeat unobserving_step.

Section Transparent.

Context {rt : Collaborators}.

Lemma unobserving_End site cookie : unobserving (End site cookie).
Proof.
  destruct site as [[] [ref|] | called to_lock result result_f]; unobserving_all.
Qed.

Lemma MONITOR_JNI_returns e p :
  is_palette e = true ->
  exists q, MONITOR_JNI (emit e) p = Returns tt q /\ same_but_history q p.
Proof.
  intros He. destruct p as [t r c l h]. unfold_bridge.
  destruct should_report_jni_invocations; cbn; eexists; (split; [reflexivity|]);
    repeat split; cbn [history record self]; rewrite !no_palette_app;
    unfold no_palette at 2 3; cbn; rewrite ?He; cbn; now rewrite ?app_nil_r.
Qed.

Lemma hooks_first {B} e (k : M B) p :
  is_palette e = true -> unobserving k ->
  same_outcome (bind (MONITOR_JNI (emit e)) (fun _ => k) p) (k p).
Proof.
  intros He Hk. destruct (MONITOR_JNI_returns e p He) as (q & E & S).
  unfold bind at 1. rewrite E. now apply Hk.
Qed.

Lemma hooks_last {A} e (m : M A) p :
  is_palette e = true ->
  same_outcome (bind m (fun r => bind (MONITOR_JNI (emit e)) (fun _ => ret r)) p) (m p).
Proof.
  intros He. unfold bind at 1. destruct (m p) as [r q | why q].
  - destruct (MONITOR_JNI_returns e q He) as (q' & E & S).
    unfold bind. rewrite E. cbn. auto.
  - apply same_outcome_refl.
Qed.

(** X16.  The monitoring does not change a call.  The [Start] and the [End]
    of a monitored stub have the outcome of those of the stub without the
    monitoring, run in the same process: both return the same value or both
    abort for the same reason, with the same thread, roots, tracing
    configuration and log, and the same history but for the calls of the
    palette. *)
Theorem monitoring_is_transparent (stub : Stub) (reference_result : option jobject)
    (cookie : Z) (p : Process) :
  same_outcome (Start (Compiled stub reference_result) p)
               (Start (Compiled (plain stub) reference_result) p)
  /\ same_outcome (End (Compiled stub reference_result) cookie p)
                  (End (Compiled (plain stub) reference_result) cookie p).
Proof.
  destruct stub, reference_result as [ref|]; cbn [plain];
    try (split; apply same_outcome_refl); split;
    cbv [Start End void JniMonitoredMethodStart JniMonitoredMethodStartSynchronized
         JniMonitoredMethodEnd JniMonitoredMethodEndSynchronized
         JniMonitoredMethodEndWithReference JniMonitoredMethodEndWithReferenceSynchronized
         PaletteNotifyBeginJniInvocation PaletteNotifyEndJniInvocation];
    rewrite ?bind_assoc;
    first [ apply hooks_last; reflexivity
          | apply hooks_first; [ reflexivity | unobserving_all ] ].
Qed.

End Transparent.

(** ** What the calls of a call site leave alone *)

Lemma bystanders_kept_refl p : bystanders_kept p p.
Proof. repeat split. Qed.

Lemma bystanders_kept_trans p q r :
  bystanders_kept p q -> bystanders_kept q r -> bystanders_kept p r.
Proof. intros (A & B & C) (A' & B' & C'). repeat split; congruence. Qed.

Section Bystanders.

Context {rt : Collaborators}.

(** X17.  No [Start] and no [End] writes a root, changes the method on top
    of the managed stack or switches CheckJNI, whether it returns or not. *)
Theorem Start_and_End_leave_bystanders_alone (site : CallSite) (cookie : Z) (p : Process) :
  let kept q :=
    roots q = roots p
    /\ top_quick_frame (self q) = top_quick_frame (self p)
    /\ check_jni (jni_env (self q)) = check_jni (jni_env (self p)) in
  kept (final (Start site p)) /\ kept (final (End site cookie p)).
Proof.
  assert (S : keeps bystanders_kept (Start site)).
  { destruct site as [[] ref | called to_lock result result_f];
      keeps_all fail bystanders_kept_refl bystanders_kept_trans ltac:(repeat split). }
  assert (E : keeps bystanders_kept (End site cookie)).
  { destruct site as [[] [ref|] | called to_lock result result_f];
      keeps_all fail bystanders_kept_refl bystanders_kept_trans ltac:(repeat split). }
  intros kept. subst kept. cbv beta. split; [exact (S p) | exact (E p)].
Qed.

End Bystanders.

(** ** The runtime is touched while Runnable *)

Section Reaches.

Context {rt : Collaborators}.

Variable I : Thread -> Prop.
Variable ok : Event -> bool.

Lemma reaches_base {A} (m : M A) :
  emits_only ok m -> (forall p a q, m p = Returns a q -> I (self q)) -> reaches I ok m.
Proof.
  intros Hm Hi p. destruct (emits_only_history _ _ Hm p) as (d & E & F).
  exists d, []. rewrite app_nil_r. split; [exact E|]. split; [exact F|].
  split; [constructor|].
  destruct (m p) as [a q | why q] eqn:Em; cbn; [intros _ | intros H; now elim H].
  exact (Hi p a q Em).
Qed.

Lemma reaches_later {A B} (m : M A) (k : A -> M B) :
  emits_only ok m -> (forall a, reaches I ok (k a)) -> reaches I ok (bind m k).
Proof.
  intros Hm Hk p. destruct (emits_only_history _ _ Hm p) as (d & E & F).
  unfold bind. destruct (m p) as [a q | why q]; cbn in E.
  - destruct (Hk a q) as (b & c & E' & Fb & Sc & Hi).
    exists (d ++ b), c. rewrite E', E, <- !app_assoc. split; [reflexivity|].
    rewrite events_app, forallb_app, F, Fb. auto.
  - exists d, []. rewrite app_nil_r. repeat split; auto; cbn; intros H; now elim H.
Qed.

Lemma reaches_then {A B} (m : M A) (k : A -> M B) :
  reaches I ok m -> (forall a, confined I (fun _ => true) (k a)) ->
  reaches I ok (bind m k).
Proof.
  intros Hm Hk p. destruct (Hm p) as (b & c & E & Fb & Sc & Hi).
  unfold bind. destruct (m p) as [a q | why q]; cbn in E, Hi.
  - destruct (Hk a q (Hi ltac:(discriminate))) as (d & E' & _ & Sd & Hq).
    exists b, (c ++ d). rewrite E', E, <- !app_assoc. split; [reflexivity|].
    split; [exact Fb|]. split; [apply Forall_app; split; assumption|].
    intros _. exact Hq.
  - exists b, c. repeat split; auto.
Qed.

Lemma reaches_if {A} (b : bool) (m1 m2 : M A) :
  reaches I ok m1 -> reaches I ok m2 -> reaches I ok (if b then m1 else m2).
Proof. now destruct b. Qed.

End Reaches.

Ltac reaches_all returning :=
  first
    [ apply reaches_base; [ solve [ emits ] | solve [ returning ] ]
    | apply reaches_if; reaches_all returning
    | apply reaches_then; [ reaches_all returning | intros ?; solve [ emits ] ]
    | apply reaches_later; [ solve [ emits ] | intros ?; reaches_all returning ] ].

Section WhileRunnable.

Context {rt : Collaborators}.

Lemma GoToRunnable_runnable p a q : GoToRunnable p = Returns a q -> runnable (self q).
Proof.
  intros E. rewrite (spec_post _ _ _ _ _ _ GoToRunnable_spec E). reflexivity.
Qed.

Lemma End_reaches site cookie :
  leaves_native site = true ->
  reaches runnable is_changeover (End site cookie).
Proof.
  destruct site as [[] [ref|] | called to_lock result result_f]; cbn [leaves_native];
    intros H; try discriminate H;
    cbv [End void GenericJniMethodEnd JniMethodEnd JniMethodEndSynchronized
         JniMethodEndWithReference JniMethodEndWithReferenceSynchronized
         JniMonitoredMethodEnd JniMonitoredMethodEndSynchronized
         JniMonitoredMethodEndWithReference JniMonitoredMethodEndWithReferenceSynchronized];
    rewrite ?H;
    reaches_all ltac:(exact GoToRunnable_runnable).
Qed.

Lemma Start_two_phase st stub ref :
  two_phase (fun t => state t = st) (fun _ => true) is_changeover
            (Start (Compiled stub ref)).
Proof.
  destruct stub;
    cbv [Start JniMethodFastStart JniMethodStart JniMethodStartSynchronized
         JniMonitoredMethodStart JniMonitoredMethodStartSynchronized];
    repeat first
      [ apply two_phase_first; solve [ emits ]
      | apply two_phase_second; solve [ emits ]
      | apply two_phase_later; [ solve [ emits ] | intros ? ]
      | apply two_phase_earlier; [ | intros ?; solve [ emits ] ] ].
Qed.

Lemma changeover_is_no_work (P : Thread -> Prop) (d : list (Event * Thread)) :
  forallb is_changeover (events d) = true ->
  Forall (fun et => works_on_objects (fst et) = true -> P (snd et)) d.
Proof.
  induction d as [|[e t] d IH]; cbn; intros F; constructor.
  - cbn. apply andb_prop in F as [F _]. destruct e; cbn in *; congruence.
  - apply IH. now apply andb_prop in F.
Qed.

(** X18.  The release of the monitor, the decoding of handles and the pop
    are made while the thread is Runnable.  Of what the [End] of a call site
    that left Runnable adds to the history, every call that works on
    objects, on the scope or on the pending exception (the decoding of the
    lock and of the result, leaving the monitor, the writes of the segment
    state and the saved cookie, clearing and setting the exception, the
    checks of held monitors and of the result) is made with the thread
    Runnable, that is after the transition.  Of what the [Start] of a stub
    adds, every such call is made with the thread in the state it had when
    [Start] was called, that is before the transition.  This is about the
    calls the history records: the tracing code of [JniMethodEnd] reads the
    method on top of the stack before the transition, and that read is no
    event of the history. *)
Theorem release_and_decode_run_while_Runnable (p : Process) :
  (forall stub reference_result,
      exists d,
        history (final (Start (Compiled stub reference_result) p)) = history p ++ d
        /\ Forall (fun et => works_on_objects (fst et) = true ->
                             state (snd et) = state (self p)) d)
  /\ (forall site cookie,
         leaves_native site = true ->
         exists d,
           history (final (End site cookie p)) = history p ++ d
           /\ Forall (fun et => works_on_objects (fst et) = true ->
                                state (snd et) = kRunnable) d).
Proof.
  split.
  - intros stub ref.
    destruct (Start_two_phase (state (self p)) stub ref p eq_refl)
      as (before & after & E & _ & S & F).
    exists (before ++ after). split; [exact E|].
    apply Forall_app. split.
    + eapply Forall_impl; [|exact S]. cbn. auto.
    + now apply (changeover_is_no_work (fun t => state t = state (self p))).
  - intros site cookie H.
    destruct (End_reaches site cookie H p) as (before & after & E & F & S & _).
    exists (before ++ after). split; [exact E|].
    apply Forall_app. split.
    + now apply (changeover_is_no_work (fun t => state t = kRunnable)).
    + eapply Forall_impl; [|exact S]. cbn. auto.
Qed.

End WhileRunnable.

(** ** Steps that are taken once *)

Lemma rejected_count f (d : list (Event * Thread)) :
  forallb (fun e => negb (f e)) (events d) = true -> count f d = 0%nat.
Proof.
  intros F. unfold count.
  rewrite (filter_rejected f _ _ (fun a H => f_equal negb H) F). reflexivity.
Qed.

Section Once.

Context {rt : Collaborators}.

Variable f : Event -> bool.

Lemma once_emit e : f e = true -> once f (emit e).
Proof.
  intros H p. exists [(e, self p)]. unfold count. cbn. rewrite H. cbn. auto.
Qed.

Lemma once_later {A B} (m : M A) (k : A -> M B) :
  emits_only (fun e => negb (f e)) m -> (forall a, once f (k a)) -> once f (bind m k).
Proof.
  intros Hm Hk p. destruct (emits_only_history _ _ Hm p) as (d & E & F).
  unfold bind. destruct (m p) as [a q | why q]; cbn in E.
  - destruct (Hk a q) as (d' & E' & L & R).
    exists (d ++ d'). rewrite E', E, <- app_assoc, count_app, (rejected_count _ _ F).
    auto.
  - exists d. rewrite (rejected_count _ _ F). cbn.
    repeat split; auto; intros H; now elim H.
Qed.

Lemma once_then {A B} (m : M A) (k : A -> M B) :
  once f m -> (forall a, emits_only (fun e => negb (f e)) (k a)) -> once f (bind m k).
Proof.
  intros Hm Hk p. destruct (Hm p) as (d & E & L & R).
  unfold bind. destruct (m p) as [a q | why q]; cbn in E, R.
  - destruct (emits_only_history _ _ (Hk a) q) as (d' & E' & F).
    exists (d ++ d'). rewrite E', E, <- app_assoc, count_app, (rejected_count _ _ F).
    rewrite Nat.add_0_r. split; [reflexivity|]. split; [exact L|].
    intros _. apply R. discriminate.
  - exists d. repeat split; auto.
Qed.

Lemma once_if {A} (b : bool) (m1 m2 : M A) :
  once f m1 -> once f m2 -> once f (if b then m1 else m2).
Proof. now destruct b. Qed.

End Once.

Ltac once_all :=
  first
    [ apply once_emit; reflexivity
    | apply once_if; once_all
    | apply once_then; [ once_all | intros ?; solve [ emits ] ]
    | apply once_later; [ solve [ emits ] | intros ?; once_all ] ].

Lemma once_count f {A} (m : M A) p d :
  once f m -> history (final (m p)) = history p ++ d ->
  (count f d <= 1)%nat /\ (returned (m p) <> None -> count f d = 1%nat).
Proof.
  intros H E. destruct (H p) as (d' & E' & L & R).
  rewrite E in E'. apply app_inv_head in E'. subst d'. auto.
Qed.

Lemma never_count f {A} (m : M A) p d :
  emits_only (fun e => negb (f e)) m -> history (final (m p)) = history p ++ d ->
  count f d = 0%nat.
Proof.
  intros H E. destruct (emits_only_history _ _ H p) as (d' & E' & F).
  rewrite E in E'. apply app_inv_head in E'. subst d'. now apply rejected_count.
Qed.

(** [f] is taken once by [m] if [b], and never otherwise. *)
Lemma times_count (b : bool) f {A} (m : M A) p d :
  (if b then once f m else emits_only (fun e => negb (f e)) m) ->
  history (final (m p)) = history p ++ d ->
  (count f d <= 1)%nat /\ (returned (m p) <> None -> count f d = times b).
Proof.
  destruct b; cbn; intros H E.
  - exact (once_count f m p d H E).
  - rewrite (never_count f m p d H E). auto.
Qed.

Ltac once_or_never := open_bridge; first [ solve [ once_all ] | solve [ emits ] ].

Section OnceAtAStub.

Context {rt : Collaborators}.

Lemma End_pops_once stub ref cookie : once is_pop (End (Compiled stub ref) cookie).
Proof. destruct stub, ref; once_or_never. Qed.

Lemma End_writes_cookie_once stub ref cookie :
  once is_cookie_write (End (Compiled stub ref) cookie).
Proof. destruct stub, ref; once_or_never. Qed.

Lemma End_exits_once stub ref cookie :
  if locks stub then once is_monitor_exit (End (Compiled stub ref) cookie)
  else emits_only (fun e => negb (is_monitor_exit e)) (End (Compiled stub ref) cookie).
Proof. destruct stub, ref; cbn [locks]; once_or_never. Qed.

Lemma End_transitions_once stub ref cookie :
  if leaves_native (Compiled stub ref)
  then once is_transition (End (Compiled stub ref) cookie)
  else emits_only (fun e => negb (is_transition e)) (End (Compiled stub ref) cookie).
Proof. destruct stub, ref; cbn [leaves_native]; once_or_never. Qed.

Lemma Start_writes_cookie_once stub ref :
  once is_cookie_write (Start (Compiled stub ref)).
Proof. destruct stub; once_or_never. Qed.

Lemma Start_enters_once stub ref :
  if locks stub then once is_monitor_enter (Start (Compiled stub ref))
  else emits_only (fun e => negb (is_monitor_enter e)) (Start (Compiled stub ref)).
Proof. destruct stub; cbn [locks]; once_or_never. Qed.

Lemma Start_transitions_once stub ref :
  if leaves_native (Compiled stub ref)
  then once is_transition (Start (Compiled stub ref))
  else emits_only (fun e => negb (is_transition e)) (Start (Compiled stub ref)).
Proof. destruct stub; cbn [leaves_native]; once_or_never. Qed.

(** X19.  The calls of a stub take each step of the protocol at most once,
    and exactly as often as the stub asks for when they return.  A [Start]
    that returns has written the saved cookie once, has entered a monitor
    once if the stub is one of a synchronized method and not otherwise, and
    has made one transition unless the stub is the fast one, which makes
    none.  An [End] that returns has popped the scope once and written the
    saved cookie once, has left a monitor once if the stub is one of a
    synchronized method, and has made one transition unless the stub is the
    fast one. *)
Theorem a_stub_takes_each_step_once (stub : Stub) (reference_result : option jobject)
    (cookie : Z) (p : Process) :
  let site := Compiled stub reference_result in
  (exists d,
      history (final (Start site p)) = history p ++ d
      /\ (count is_cookie_write d <= 1 /\ count is_monitor_enter d <= 1
          /\ count is_transition d <= 1)%nat
      /\ (returned (Start site p) <> None ->
          count is_cookie_write d = 1%nat
          /\ count is_monitor_enter d = times (locks stub)
          /\ count is_transition d = times (leaves_native site)))
  /\ (exists d,
         history (final (End site cookie p)) = history p ++ d
         /\ (count is_pop d <= 1 /\ count is_cookie_write d <= 1
             /\ count is_monitor_exit d <= 1 /\ count is_transition d <= 1)%nat
         /\ (returned (End site cookie p) <> None ->
             count is_pop d = 1%nat
             /\ count is_cookie_write d = 1%nat
             /\ count is_monitor_exit d = times (locks stub)
             /\ count is_transition d = times (leaves_native site))).
Proof.
  intros site. subst site. split.
  - destruct (Start_writes_cookie_once stub reference_result p) as (d & E & _).
    destruct (once_count _ _ p d (Start_writes_cookie_once stub reference_result) E)
      as [L1 R1].
    destruct (times_count _ _ _ p d (Start_enters_once stub reference_result) E)
      as [L2 R2].
    destruct (times_count _ _ _ p d (Start_transitions_once stub reference_result) E)
      as [L3 R3].
    exists d. split; [exact E|]. split; [auto|].
    intros H. auto.
  - destruct (End_pops_once stub reference_result cookie p) as (d & E & _).
    destruct (once_count _ _ p d (End_pops_once stub reference_result cookie) E)
      as [L1 R1].
    destruct (once_count _ _ p d (End_writes_cookie_once stub reference_result cookie) E)
      as [L2 R2].
    destruct (times_count _ _ _ p d (End_exits_once stub reference_result cookie) E)
      as [L3 R3].
    destruct (times_count _ _ _ p d (End_transitions_once stub reference_result cookie) E)
      as [L4 R4].
    exists d. split; [exact E|]. split; [auto|].
    intros H. auto.
Qed.

End OnceAtAStub.
